(** * ExceltoPDF: the conversion worker of [main.pyw]

    A shallow embedding of [ConversionWorker] (the background worker that
    converts a batch of workbooks to PDF through the Excel automation
    interface) and of the two GUI slots that consume its signals, with the
    properties of the worker proved over the embedding. *)

From Stdlib Require Import ZArith Lia Bool Ascii.
From Stdlib Require Floats.SpecFloat.
From Stdlib Require String.
From stdpp Require Import base tactics option list sorting strings pretty gmap.

Local Open Scope Z_scope.
#[local] Set Warnings "-clear-no-such-hyp".

(** ** Python [str] methods used by the worker *)

Module PyStr.

(** [s.startswith(p)] *)
Fixpoint startswith (s p : string) {struct p} : bool :=
  match p with
  | EmptyString => true
  | String a p' =>
      match s with
      | EmptyString => false
      | String b s' => Ascii.eqb a b && startswith s' p'
      end
  end.

(** [s.endswith(suf)]: [s] is [suf], or the tail of [s] ends with [suf]. *)
Fixpoint endswith (s suf : string) : bool :=
  String.eqb s suf ||
  match s with
  | EmptyString => false
  | String _ s' => endswith s' suf
  end.

(** [s.endswith((a, b, ...))]: the tuple form. *)
Definition endswith_any (s : string) (sufs : list string) : bool :=
  existsb (endswith s) sufs.

(** [sub in s] *)
Fixpoint contains (s sub : string) : bool :=
  startswith s sub ||
  match s with
  | EmptyString => false
  | String _ s' => contains s' sub
  end.

(** The text before the last occurrence of the character [sep], if any. *)
Fixpoint before_last (sep : ascii) (s : string) : option string :=
  match s with
  | EmptyString => None
  | String c t =>
      match before_last sep t with
      | Some h => Some (String c h)
      | None => if Ascii.eqb c sep then Some EmptyString else None
      end
  end.

(** [s.rsplit(sep, 1)[0]] for a one-character [sep]: the text before the
    last [sep], the whole of [s] when [sep] does not occur. *)
Definition rsplit1_head (sep : ascii) (s : string) : string :=
  default s (before_last sep s).

(** [s.replace(old, new)] for a non-empty [old]: scan from the left, and at
    every position where [old] starts emit [new] and skip over [old].
    [skip] counts the characters of a matched [old] still to be skipped. *)
Fixpoint replace_from (old new s : string) (skip : nat) : string :=
  match s with
  | EmptyString => EmptyString
  | String c t =>
      match skip with
      | S k => replace_from old new t k
      | O =>
          if startswith s old
          then new +:+ replace_from old new t (Nat.pred (String.length old))
          else String c (replace_from old new t 0)
      end
  end.

Definition replace (s old new : string) : string := replace_from old new s 0.

(** [sep.join(parts)] *)
Definition join (sep : string) (parts : list string) : string :=
  String.concat sep parts.

End PyStr.

(** ** Python arithmetic of the progress computation

    [int((processed_files / total_files) * 100)] divides two [int]s with
    true division, which yields the binary64 float nearest to the quotient,
    multiplies that float by [100] (again rounded to nearest, ties to even)
    and truncates.  A non-negative binary64 value [x] is represented by the
    integer [x * 2^1074] (every binary64 value is a multiple of [2^-1074]),
    and the rounding is written out on these integers. *)

Module Float64.

(** Number of bits of the significand. *)
Definition prec : Z := 53.
(** Exponent of the smallest positive binary64 value, [2^-1074]. *)
Definition scale : Z := 1074.

(** The integer nearest to [a / b] ([b > 0]), ties to the even one. *)
Definition rne (a b : Z) : Z :=
  let q := a / b in
  let r := a mod b in
  if 2 * r <? b then q
  else if b <? 2 * r then q + 1
  else if Z.even q then q else q + 1.

(** Spacing (in units of [2^-1074]) of the binary64 values around the
    rational [n / d] given in units of [2^-1074]. *)
Definition ulp (n d : Z) : Z := 2 ^ Z.max 0 (Z.log2 (n / d) - (prec - 1)).

(** Round the non-negative rational [n / d] (in units of [2^-1074]) to the
    nearest binary64 value. *)
Definition round (n d : Z) : Z :=
  let u := ulp n d in rne n (d * u) * u.

(** [float(n)] for a small non-negative [int] (exact below [2^53]). *)
Definition of_int (n : Z) : Z := n * 2 ^ scale.

(** [p / t] on [int]s [0 <= p], [0 < t]: correctly rounded quotient. *)
Definition true_div (p t : Z) : Z := round (p * 2 ^ scale) t.

(** [x * y] on floats. *)
Definition mul (x y : Z) : Z := round (x * y) (2 ^ scale).

(** [int(x)]: truncation (of a non-negative float). *)
Definition to_int (x : Z) : Z := x / 2 ^ scale.

End Float64.

(** [int((processed_files / total_files) * 100)]; [None] stands for the
    [ZeroDivisionError] that [/] raises when [total_files] is [0]. *)
Definition progress_percent (processed_files total_files : Z) : option Z :=
  if total_files =? 0 then None
  else Some (Float64.to_int
               (Float64.mul (Float64.true_div processed_files total_files)
                            (Float64.of_int 100))).

(** The same expression over the Standard Library's specification of IEEE 754
    binary64 arithmetic, to compare [Float64] with. *)
Module Binary64.
Import Floats.SpecFloat.

Definition of_int (n : Z) : spec_float := binary_normalize 53 1024 n 0 false.

Definition to_int (x : spec_float) : Z :=
  match x with
  | S754_finite false m e => (Z.pos m * 2 ^ Z.max 0 e) / 2 ^ Z.max 0 (- e)
  | _ => 0
  end.

Definition percent (processed_files total_files : Z) : Z :=
  to_int (SFmul 53 1024
            (SFdiv 53 1024 (of_int processed_files) (of_int total_files))
            (of_int 100)).

(** [progress_percent] and [percent] agree on every count up to [n] files. *)
Definition agree_up_to (n : nat) : bool :=
  forallb (λ t, forallb (λ p, bool_decide
                                (progress_percent (Z.of_nat p) (Z.of_nat t)
                                 = Some (percent (Z.of_nat p) (Z.of_nat t))))
                        (seq 0 (S t)))
          (seq 1 n).

End Binary64.

(** ** [os.path]

    The worker goes through [os.path] for every path it builds.  [os.path] is
    the platform's path module ([posixpath] or [ntpath]); the worker is
    written against the interface. *)

Class OsPath := {
  (** [os.path.basename] *)
  basename : string → string;
  (** [os.path.join] with two arguments *)
  path_join : string → string → string;
  (** [os.path.normpath] *)
  normpath : string → string;
}.

(** CPython's [posixpath], transcribed. *)
Module posixpath.

Definition sep : ascii := "/"%char.

(** [sep in s] *)
Fixpoint has_sep (s : string) : bool :=
  match s with
  | EmptyString => false
  | String c t => Ascii.eqb c sep || has_sep t
  end.

(** [i = p.rfind(sep) + 1; return p[i:]] *)
Fixpoint basename (p : string) : string :=
  match p with
  | EmptyString => EmptyString
  | String c t =>
      if has_sep t then basename t
      else if Ascii.eqb c sep then t else p
  end.

(** [join(a, b)]: [b] if it is absolute, else [a + b] when [a] is empty or
    ends with the separator, else [a + sep + b]. *)
Definition join (a b : string) : string :=
  if PyStr.startswith b "/" then b
  else if String.eqb a "" || PyStr.endswith a "/" then a +:+ b
  else a +:+ "/" +:+ b.

(** [path.split(sep)] *)
Fixpoint split (s : string) : list string :=
  match s with
  | EmptyString => [EmptyString]
  | String c t =>
      if Ascii.eqb c sep then EmptyString :: split t
      else match split t with
           | [] => [String c EmptyString]
           | w :: ws => String c w :: ws
           end
  end.

(** The loop of [normpath] over the components; [new_comps] is kept with
    its last element first. *)
Fixpoint norm_comps (initial_slashes : nat) (comps new_comps : list string)
  : list string :=
  match comps with
  | [] => rev new_comps
  | comp :: rest =>
      if String.eqb comp "" || String.eqb comp "." then
        norm_comps initial_slashes rest new_comps
      else if negb (String.eqb comp "..")
              || (Nat.eqb initial_slashes 0 && bool_decide (new_comps = []))
              || match new_comps with
                 | top :: _ => String.eqb top ".."
                 | [] => false
                 end
      then norm_comps initial_slashes rest (comp :: new_comps)
      else norm_comps initial_slashes rest (tail new_comps)
  end.

Definition normpath (path : string) : string :=
  if String.eqb path "" then "."
  else
    let initial_slashes :=
      if PyStr.startswith path "/" then
        if PyStr.startswith path "//" && negb (PyStr.startswith path "///")
        then 2%nat else 1%nat
      else 0%nat in
    let comps := norm_comps initial_slashes (split path) [] in
    let path' :=
      String.concat "" (replicate initial_slashes "/") +:+ PyStr.join "/" comps in
    if String.eqb path' "" then "." else path'.

End posixpath.

Definition posix_path : OsPath := {|
  basename := posixpath.basename;
  path_join := posixpath.join;
  normpath := posixpath.normpath;
|}.

(** ** Signals, log lines and the operations the worker performs *)

(** A Python exception, by its text. *)
Definition Exn : Type := string.

(** The lines the worker sends through [progress_update]. *)
Inductive LogLine : Type :=
| LogCancelledByUser
| LogAttempting (attempt retries : Z) (file_name : string)
| LogConverted (file_name pdf_path : string)
| LogAttemptError (attempt : Z) (file_name : string) (e : Exn)
| LogFailed (file_name : string) (retries : Z)
| LogRenamed (original_pdf_name new_pdf_name : string)
| LogNotFound (original_pdf_name : string)
| LogRenameFailed (original_pdf_name : string) (e : Exn).

(** The f-strings of [main.pyw]. *)
Definition render (l : LogLine) : string :=
  match l with
  | LogCancelledByUser => "Conversion cancelled by user."
  | LogAttempting attempt retries file_name =>
      "Attempting conversion (" +:+ pretty attempt +:+ "/" +:+ pretty retries
        +:+ ") for: " +:+ file_name
  | LogConverted file_name pdf_path =>
      "Successfully converted: " +:+ file_name +:+ " to PDF at " +:+ pdf_path
  | LogAttemptError attempt file_name e =>
      "Attempt " +:+ pretty attempt +:+ ": Error converting " +:+ file_name
        +:+ " - " +:+ e
  | LogFailed file_name retries =>
      "Failed to convert " +:+ file_name +:+ " after " +:+ pretty retries
        +:+ " attempts."
  | LogRenamed original new =>
      "Renamed " +:+ original +:+ " to " +:+ new
  | LogNotFound original =>
      "File not found for renaming: " +:+ original
  | LogRenameFailed original e =>
      "Failed to rename " +:+ original +:+ ": " +:+ e
  end.

(** The calls that set up and release the automation session.  They are
    made outside of every [try] (lines 35-37 and 88-89). *)
Inductive SessionCall : Type :=
| CallCoInitialize                           (* [pythoncom.CoInitialize()] *)
| CallDispatch                               (* [win32.Dispatch("Excel.Application")] *)
| CallSetVisible                             (* [excel_app.Visible = False] *)
| CallQuit                                   (* [excel_app.Quit()] *)
| CallCoUninitialize.                        (* [pythoncom.CoUninitialize()] *)

(** One operation of the worker thread, with what it returned.  A call that
    can raise carries [Some e] when it raised [e]; a session call that
    returned is recorded under its own name, one that raised as
    [SessionError]. *)
Inductive Event : Type :=
| CoInitialize
| Dispatch                                   (* [win32.Dispatch("Excel.Application")] *)
| SetVisible (b : bool)
| IsCancelled (b : bool)                     (* [self.is_cancelled()] returned [b] *)
| Chmod (file : string) (r : option Exn)
| LoggingError (msg : string)
| ProgressUpdate (l : LogLine)               (* [self.progress_update.emit] *)
| Progress (percent : Z)                     (* [self.progress.emit] *)
| ConversionComplete (message : string)      (* [self.conversion_complete.emit] *)
| WorkbooksOpen (file : string) (r : option Exn)
| ExportAsFixedFormat (pdf_path : string) (r : option Exn)
| WorkbookClose (r : option Exn)
| Sleep (seconds : Z)
| Quit                                       (* [excel_app.Quit()] *)
| CoUninitialize
| FinalizeFilenames (paths : list string)    (* [self.finalize_filenames()] entered *)
| PathExists (path : string) (b : bool)
| Rename (src dst : string) (r : option Exn)
| SessionError (call : SessionCall) (e : Exn).  (* the session call raised [e] *)

(** The worker object together with the part of the world it acts on. *)
Record State : Type := mkState {
  (** [self.files], [self.output_dir], [self.retries] *)
  files : list string;
  output_dir : string;
  retries : Z;
  (** [self.cancelled], written by the GUI thread *)
  cancelled : bool;
  (** [self.saved_pdf_paths] *)
  saved_pdf_paths : list string;
  (** the operations performed so far, oldest first *)
  trace : list Event;
  (** number of calls made to the workbook automation interface *)
  calls : nat;
  (** names of the files present in the output directory: every path the
      worker writes, tests or renames is a path of that directory, and
      stands for the entry named by its basename *)
  listing : gset string;
}.

(** [ConversionWorker(files, output_dir, retries)] over a given directory
    content. *)
Definition new_worker (fs : list string) (out : string) (n : Z)
    (dir : gset string) : State :=
  mkState fs out n false [] [] 0 dir.

Definition set_cancelled (b : bool) (st : State) : State :=
  mkState (files st) (output_dir st) (retries st) b (saved_pdf_paths st)
          (trace st) (calls st) (listing st).
Definition set_saved_pdf_paths (l : list string) (st : State) : State :=
  mkState (files st) (output_dir st) (retries st) (cancelled st) l
          (trace st) (calls st) (listing st).
Definition set_trace (t : list Event) (st : State) : State :=
  mkState (files st) (output_dir st) (retries st) (cancelled st)
          (saved_pdf_paths st) t (calls st) (listing st).
Definition set_calls (n : nat) (st : State) : State :=
  mkState (files st) (output_dir st) (retries st) (cancelled st)
          (saved_pdf_paths st) (trace st) n (listing st).
Definition set_listing (d : gset string) (st : State) : State :=
  mkState (files st) (output_dir st) (retries st) (cancelled st)
          (saved_pdf_paths st) (trace st) (calls st) d.

(** A computation of the worker either returns or raises. *)
Inductive Result (A : Type) : Type :=
| Returned (a : A) (st : State)
| Raised (e : Exn) (st : State).
Arguments Returned {A} a st.
Arguments Raised {A} e st.

Definition M (A : Type) : Type := State → Result A.

Definition ret {A} (a : A) : M A := λ st, Returned a st.
Definition raise {A} (e : Exn) : M A := λ st, Raised e st.
Definition bind {A B} (m : M A) (k : A → M B) : M B :=
  λ st, match m st with
        | Returned a st' => k a st'
        | Raised e st' => Raised e st'
        end.
Definition gets {A} (f : State → A) : M A := λ st, Returned (f st) st.
Definition modify (f : State → State) : M unit := λ st, Returned tt (f st).

(** [try: body except Exception as e: handler(e)] *)
Definition try_except {A} (body : M A) (handler : Exn → M A) : M A :=
  λ st, match body st with
        | Returned a st' => Returned a st'
        | Raised e st' => handler e st'
        end.

#[global] Instance worker_ret : MRet M := @ret.
#[global] Instance worker_bind : MBind M := λ A B k m, bind m k.

Definition final_state {A} (r : Result A) : State :=
  match r with Returned _ st => st | Raised _ st => st end.

Definition returned {A} (r : Result A) : bool :=
  match r with Returned _ _ => true | Raised _ _ => false end.

(** [range(a, b)] *)
Definition range (a b : Z) : list Z :=
  map (λ i, a + Z.of_nat i) (seq 0 (Z.to_nat (b - a))).

(** ** [ConversionWorker] *)

Section Worker.

Context {os_path : OsPath}.

(** The automation session: what each of the calls that set it up and
    release it does, [None] for a normal return and [Some e] for raising
    [e]. *)
Variable session : SessionCall → option Exn.

(** The workbook interface: what the [k]-th call among [Workbooks.Open],
    [ExportAsFixedFormat] and [Close] does, [None] for a normal return and
    [Some e] for raising [e]. *)
Variable engine : nat → option Exn.

(** [os.chmod(file, 0o600)]: the exception it raises on [file], if any. *)
Variable chmod : string → option Exn.

(** The GUI thread: [Some n] when the user presses Cancel once the worker
    has performed [n] operations, [None] when Cancel is never pressed. *)
Variable cancel_click : option nat.

(** [os.rename] onto an existing name: replaces it ([true], POSIX) or
    raises [FileExistsError] ([false], Windows). *)
Variable replace_existing : bool.

(** [cancel_conversion]: the flag is set under the mutex. *)
Definition cancel_conversion (st : State) : State := set_cancelled true st.

(** The GUI thread runs between two operations of the worker. *)
Definition gui_thread (st : State) : State :=
  match cancel_click with
  | Some n => if bool_decide (n ≤ length (trace st))%nat
              then cancel_conversion st else st
  | None => st
  end.

Definition record (ev : Event) (st : State) : State :=
  set_trace (trace st ++ [ev]) st.

(** An operation that returns nothing and does not raise. *)
Definition op (ev : Event) : M unit :=
  λ st, Returned tt (record ev (gui_thread st)).

(** A session call: it returns, or raises what the session gives it. *)
Definition session_call (call : SessionCall) (ev : Event) : M unit :=
  λ st, let st := gui_thread st in
        match session call with
        | None => Returned tt (record ev st)
        | Some e => Raised e (record (SessionError call e) st)
        end.

(** [is_cancelled]: the flag is read under the mutex. *)
Definition is_cancelled : M bool :=
  λ st, let st := gui_thread st in
        Returned (cancelled st) (record (IsCancelled (cancelled st)) st).

Definition progress_update (l : LogLine) : M unit := op (ProgressUpdate l).

(** A call to the automation interface; [ev] records it with its result. *)
Definition engine_call (ev : option Exn → Event) : M unit :=
  λ st, let st := gui_thread st in
        let r := engine (calls st) in
        let st' := set_calls (S (calls st)) (record (ev r) st) in
        match r with
        | None => Returned tt st'
        | Some e => Raised e st'
        end.

(** A successful export leaves the PDF in the output directory. *)
Definition export (pdf_path : string) : M unit :=
  engine_call (ExportAsFixedFormat pdf_path) ;;
  modify (λ st, set_listing ({[ basename pdf_path ]} ∪ listing st) st).

Definition reset_permissions (file : string) : M unit :=
  op (Chmod file (chmod file)) ;;
  match chmod file with
  | None => mret tt
  | Some e =>
      op (LoggingError ("Failed to reset permissions for " +:+ file
                          +:+ " - " +:+ e))
  end.

(** The name of the PDF made from [file_name] (lines 48-51). *)
Definition pdf_name_of (file_name : string) : string :=
  if PyStr.endswith_any file_name [".xls"; ".xlsx"]
  then PyStr.rsplit1_head "." file_name +:+ ".pdf"
  else file_name +:+ ".pdf".

(** The path of the PDF made from [file] (lines 46-54). *)
Definition pdf_path_of (out file : string) : string :=
  normpath (path_join out (pdf_name_of (basename file))).

(** The body of the [try] and its [except] clause (lines 62-78): [true]
    when the conversion went through. *)
Definition attempt_conversion (attempt : Z) (file file_name pdf_path : string)
  : M bool :=
  try_except
    (rs ← gets retries;
     progress_update (LogAttempting attempt rs file_name) ;;
     engine_call (WorkbooksOpen file) ;;
     export pdf_path ;;
     engine_call WorkbookClose ;;
     progress_update (LogConverted file_name pdf_path) ;;
     modify (λ st, set_saved_pdf_paths (saved_pdf_paths st ++ [pdf_path]) st) ;;
     mret true)
    (λ e,
     op (LoggingError ("Attempt " +:+ pretty attempt +:+ ": Failed to convert "
                         +:+ file_name +:+ " - " +:+ e)) ;;
     progress_update (LogAttemptError attempt file_name e) ;;
     op (Sleep 1) ;;
     mret false).

(** [for attempt in range(1, self.retries + 1)] (lines 58-78); the result
    is [success]. *)
Fixpoint retry_loop (attempts : list Z) (file file_name pdf_path : string)
  : M bool :=
  match attempts with
  | [] => mret false
  | attempt :: rest =>
      c ← is_cancelled;
      if c : bool then mret false
      else
        success ← attempt_conversion attempt file file_name pdf_path;
        if success : bool then mret true
        else retry_loop rest file file_name pdf_path
  end.

(** The body of the loop over the files after the cancellation check
    (lines 46-86); the result is the new value of [processed_files]. *)
Definition process_file (file : string) (total_files processed_files : Z)
  : M Z :=
  let file_name := basename file in
  out ← gets output_dir;
  let pdf_path := pdf_path_of out file in
  reset_permissions file ;;
  rs ← gets retries;
  success ← retry_loop (range 1 (rs + 1)) file file_name pdf_path;
  (if success : bool then mret tt
   else c ← is_cancelled;
        if c : bool then mret tt
        else progress_update (LogFailed file_name rs)) ;;
  c ← is_cancelled;
  if c : bool then mret processed_files
  else
    let processed_files := processed_files + 1 in
    match progress_percent processed_files total_files with
    | None => raise "ZeroDivisionError"
    | Some progress_percent =>
        op (Progress progress_percent) ;; mret processed_files
    end.

(** [for file in self.files] (lines 41-86). *)
Fixpoint files_loop (fs : list string) (total_files processed_files : Z)
  : M Z :=
  match fs with
  | [] => mret processed_files
  | file :: rest =>
      c ← is_cancelled;
      if c : bool then
        progress_update LogCancelledByUser ;; mret processed_files
      else
        processed_files ← process_file file total_files processed_files;
        files_loop rest total_files processed_files
  end.

(** [os.path.exists] on a path of the output directory. *)
Definition path_exists (path : string) : M bool :=
  λ st, let st := gui_thread st in
        let b := bool_decide (basename path ∈ listing st) in
        Returned b (record (PathExists path b) st).

(** What [os.rename(src, dst)] does to the output directory: the new
    content, or the exception raised. *)
Definition rename_in (dir : gset string) (src dst : string)
  : Exn + gset string :=
  if bool_decide (src ∈ dir) then
    if bool_decide (src = dst) then inr dir
    else if bool_decide (dst ∈ dir) && negb replace_existing
         then inl "FileExistsError"
         else inr ({[ dst ]} ∪ dir ∖ {[ src ]})
  else inl "FileNotFoundError".

(** [os.rename] between two paths of the output directory. *)
Definition os_rename (src dst : string) : M unit :=
  λ st, let st := gui_thread st in
        match rename_in (listing st) (basename src) (basename dst) with
        | inr dir => Returned tt (set_listing dir (record (Rename src dst None) st))
        | inl e => Raised e (record (Rename src dst (Some e)) st)
        end.

(** The body of the loop of [finalize_filenames] (lines 99-114). *)
Definition finalize_one (pdf_path : string) : M unit :=
  let original_pdf_name := basename pdf_path in
  let new_pdf_name := PyStr.replace original_pdf_name "%20" " " in
  out ← gets output_dir;
  let new_pdf_path := path_join out new_pdf_name in
  if bool_decide (pdf_path ≠ new_pdf_path) then
    try_except
      (e ← path_exists pdf_path;
       if e : bool then
         os_rename pdf_path new_pdf_path ;;
         progress_update (LogRenamed original_pdf_name new_pdf_name)
       else progress_update (LogNotFound original_pdf_name))
      (λ rename_error,
       progress_update (LogRenameFailed original_pdf_name rename_error))
  else mret tt.

Fixpoint finalize_loop (paths : list string) : M unit :=
  match paths with
  | [] => mret tt
  | pdf_path :: rest => finalize_one pdf_path ;; finalize_loop rest
  end.

(** [finalize_filenames] (lines 93-114). *)
Definition finalize_filenames : M unit :=
  paths ← gets saved_pdf_paths;
  op (FinalizeFilenames paths) ;;
  finalize_loop paths.

(** [convert_files] (lines 34-91).  No [try] encloses the job: an
    exception of a session call ends it there. *)
Definition convert_files : M unit :=
  session_call CallCoInitialize CoInitialize ;;
  session_call CallDispatch Dispatch ;;
  session_call CallSetVisible (SetVisible false) ;;
  fs ← gets files;
  let total_files := Z.of_nat (length fs) in
  files_loop fs total_files 0 ;;
  session_call CallQuit Quit ;;
  session_call CallCoUninitialize CoUninitialize ;;
  finalize_filenames ;;
  c ← is_cancelled;
  op (ConversionComplete
        (if c : bool then "Conversion cancelled." else "All files processed.")).

End Worker.

(** A session whose calls all return. *)
Definition session_ok : SessionCall → option Exn := λ _, None.

(** ** The two slots of [ExcelToPDFConverterApp] fed by the worker *)

Record Window : Type := mkWindow {
  (** [self.progress_bar.value()] *)
  progress_bar : Z;
  (** [self.convert_btn.text()] and whether the button is enabled *)
  convert_btn_text : string;
  convert_btn_enabled : bool;
  (** the messages passed to [self.log_text.append], oldest first: the
      calls made on the widget, not what it displays for them (Qt shows a
      message that looks like rich text as HTML) *)
  log_text : list string;
}.

(** [QProgressBar.setValue] with the default range [0..100]: a value out of
    the range leaves the bar as it is. *)
Definition setValue (value : Z) (w : Window) : Window :=
  if bool_decide (0 ≤ value ≤ 100)
  then mkWindow value (convert_btn_text w) (convert_btn_enabled w) (log_text w)
  else w.

(** [log]: one more call to [self.log_text.append], with [message] as its
    argument.  The call to [logging.info] leaves the window as it is. *)
Definition log (message : string) (w : Window) : Window :=
  mkWindow (progress_bar w) (convert_btn_text w) (convert_btn_enabled w)
           (log_text w ++ [message]).

(** [update_progress] *)
Definition update_progress (value : Z) (w : Window) : Window :=
  setValue value w.

(** [conversion_complete] *)
Definition conversion_complete (message : string) (w : Window) : Window :=
  log message
    (setValue 100
       (mkWindow (progress_bar w) "Convert to PDF" true (log_text w))).

(** The start branch of [toggle_conversion], up to the start of the thread. *)
Definition start_conversion (w : Window) : Window :=
  setValue 0 (mkWindow (progress_bar w) "Cancel" (convert_btn_enabled w) (log_text w)).

(** The connections made in [toggle_conversion]: each signal of the worker
    runs its slot, in the order of emission. *)
Definition deliver (w : Window) (ev : Event) : Window :=
  match ev with
  | ProgressUpdate l => log (render l) w
  | Progress value => update_progress value w
  | ConversionComplete message => conversion_complete message w
  | _ => w
  end.

(** ** Reading a trace *)

(** The percentages sent through [progress], in order. *)
Definition progress_values (t : list Event) : list Z :=
  omap (λ ev, match ev with Progress v => Some v | _ => None end) t.

Definition is_open (ev : Event) : bool :=
  match ev with WorkbooksOpen _ _ => true | _ => false end.
Definition is_engine_call (ev : Event) : bool :=
  match ev with
  | WorkbooksOpen _ _ | ExportAsFixedFormat _ _ | WorkbookClose _ => true
  | _ => false
  end.
Definition is_sleep (ev : Event) : bool :=
  match ev with Sleep _ => true | _ => false end.
Definition is_complete (ev : Event) : bool :=
  match ev with ConversionComplete _ => true | _ => false end.
Definition is_dispatch (ev : Event) : bool :=
  match ev with Dispatch => true | _ => false end.
Definition is_quit (ev : Event) : bool :=
  match ev with Quit => true | _ => false end.
Definition is_progress (ev : Event) : bool :=
  match ev with Progress _ => true | _ => false end.
Definition is_failed_line (ev : Event) : bool :=
  match ev with ProgressUpdate (LogFailed _ _) => true | _ => false end.
Definition is_converted_line (ev : Event) : bool :=
  match ev with ProgressUpdate (LogConverted _ _) => true | _ => false end.
Definition is_attempt_error (ev : Event) : bool :=
  match ev with ProgressUpdate (LogAttemptError _ _ _) => true | _ => false end.

(** Number of events of a trace that satisfy [f]. *)
Definition count (f : Event → bool) (t : list Event) : nat :=
  length (filter (λ ev, f ev = true) t).

(** The operations of the job proper: everything but the acquisition and
    release of the automation session, the entry into the finalization and
    the terminal signal. *)
Definition is_job_step (ev : Event) : bool :=
  match ev with
  | CoInitialize | Dispatch | SetVisible _ | Quit | CoUninitialize
  | FinalizeFilenames _ | ConversionComplete _ | SessionError _ _ => false
  | _ => true
  end.

(** The flag as the worker reads it: the [i]-th operation, when it is a call
    to [is_cancelled], returns [true] exactly when Cancel was pressed by
    then. *)
Definition pressed (cancel_click : option nat) (i : nat) : bool :=
  match cancel_click with
  | Some n => bool_decide (n ≤ i)%nat
  | None => false
  end.

(** ** The shape of the traces of the worker *)

(** How the retry loop of one file ended: the range of attempts was used up,
    the loop was left on a cancellation, or an attempt went through. *)
Inductive RetryEnd : Type := Exhausted | Broke | Succeeded.

Section Shapes.

Context {os_path : OsPath}.
(** [self.output_dir], [self.retries] and [total_files]. *)
Variables (out : string) (rs total : Z).

(** The automation calls of an attempt stopped by the exception [e]. *)
Inductive failed_calls (file pdf_path : string) (e : Exn) : list Event → Prop :=
| open_raises :
    failed_calls file pdf_path e [WorkbooksOpen file (Some e)]
| export_raises :
    failed_calls file pdf_path e
      [WorkbooksOpen file None; ExportAsFixedFormat pdf_path (Some e)]
| close_raises :
    failed_calls file pdf_path e
      [WorkbooksOpen file None; ExportAsFixedFormat pdf_path None;
       WorkbookClose (Some e)].

(** An attempt that raised: the check, the announcement, the calls, the
    two error reports and the pause. *)
Definition failed_attempt (file_name : string) (attempt : Z) (e : Exn)
    (engine_calls : list Event) : list Event :=
  [IsCancelled false; ProgressUpdate (LogAttempting attempt rs file_name)]
  ++ engine_calls
  ++ [LoggingError ("Attempt " +:+ pretty attempt +:+ ": Failed to convert "
                      +:+ file_name +:+ " - " +:+ e);
      ProgressUpdate (LogAttemptError attempt file_name e);
      Sleep 1].

(** An attempt that went through. *)
Definition good_attempt (file file_name pdf_path : string) (attempt : Z)
  : list Event :=
  [IsCancelled false; ProgressUpdate (LogAttempting attempt rs file_name);
   WorkbooksOpen file None; ExportAsFixedFormat pdf_path None;
   WorkbookClose None; ProgressUpdate (LogConverted file_name pdf_path)].

(** The retry loop of one file over a range of attempt numbers. *)
Inductive retry_events (file file_name pdf_path : string)
  : list Z → RetryEnd → list Event → Prop :=
| retry_exhausted :
    retry_events file file_name pdf_path [] Exhausted []
| retry_broke attempt rest :
    retry_events file file_name pdf_path (attempt :: rest) Broke
      [IsCancelled true]
| retry_succeeded attempt rest :
    retry_events file file_name pdf_path (attempt :: rest) Succeeded
      (good_attempt file file_name pdf_path attempt)
| retry_failed attempt rest e engine_calls r evs :
    failed_calls file pdf_path e engine_calls →
    retry_events file file_name pdf_path rest r evs →
    retry_events file file_name pdf_path (attempt :: rest) r
      (failed_attempt file_name attempt e engine_calls ++ evs).

Definition chmod_events (file : string) (r : option Exn) : list Event :=
  Chmod file r ::
  match r with
  | None => []
  | Some e => [LoggingError ("Failed to reset permissions for " +:+ file
                               +:+ " - " +:+ e)]
  end.

(** Line 80-81: the flag is read only when the loop did not succeed. *)
Definition report_events (file_name : string) (r : RetryEnd) (c : bool)
  : list Event :=
  match r with
  | Succeeded => []
  | _ => IsCancelled c ::
         if c then [] else [ProgressUpdate (LogFailed file_name rs)]
  end.

(** Lines 83-86. *)
Definition count_events (c : bool) (percent : Z) : list Event :=
  IsCancelled c :: if c then [] else [Progress percent].

(** One file, from [reset_permissions] to the progress signal, with
    [processed_files] before and after. *)
Inductive file_events (file : string) (processed : Z) : Z → list Event → Prop :=
| file_events_intro chm r revs c1 c2 percent :
    retry_events file (basename file) (pdf_path_of out file)
                 (range 1 (rs + 1)) r revs →
    (r = Broke → c1 = true) →
    (r ≠ Succeeded → c1 = true → c2 = true) →
    progress_percent (processed + 1) total = Some percent →
    file_events file processed (if c2 then processed else processed + 1)
      (chmod_events file chm ++ revs
         ++ report_events (basename file) r c1 ++ count_events c2 percent).

(** The loop over the files. *)
Inductive loop_events : list string → Z → Z → list Event → Prop :=
| loop_done processed :
    loop_events [] processed processed []
| loop_cancelled file rest processed :
    loop_events (file :: rest) processed processed
      [IsCancelled true; ProgressUpdate LogCancelledByUser]
| loop_next file rest processed processed1 processed' fevs evs :
    file_events file processed processed1 fevs →
    loop_events rest processed1 processed' evs →
    loop_events (file :: rest) processed processed'
      (IsCancelled false :: fevs ++ evs).

(** One path of the finalization. *)
Inductive finalize_one_events (pdf_path : string) : list Event → Prop :=
| finalize_same :
    pdf_path = path_join out (PyStr.replace (basename pdf_path) "%20" " ") →
    finalize_one_events pdf_path []
| finalize_renamed :
    pdf_path ≠ path_join out (PyStr.replace (basename pdf_path) "%20" " ") →
    finalize_one_events pdf_path
      [PathExists pdf_path true;
       Rename pdf_path
              (path_join out (PyStr.replace (basename pdf_path) "%20" " ")) None;
       ProgressUpdate (LogRenamed (basename pdf_path)
                         (PyStr.replace (basename pdf_path) "%20" " "))]
| finalize_failed e :
    pdf_path ≠ path_join out (PyStr.replace (basename pdf_path) "%20" " ") →
    finalize_one_events pdf_path
      [PathExists pdf_path true;
       Rename pdf_path
              (path_join out (PyStr.replace (basename pdf_path) "%20" " "))
              (Some e);
       ProgressUpdate (LogRenameFailed (basename pdf_path) e)]
| finalize_missing :
    pdf_path ≠ path_join out (PyStr.replace (basename pdf_path) "%20" " ") →
    finalize_one_events pdf_path
      [PathExists pdf_path false;
       ProgressUpdate (LogNotFound (basename pdf_path))].

Inductive finalize_events : list string → list Event → Prop :=
| finalize_nil : finalize_events [] []
| finalize_cons pdf_path rest evs1 evs :
    finalize_one_events pdf_path evs1 →
    finalize_events rest evs →
    finalize_events (pdf_path :: rest) (evs1 ++ evs).

(** The terminal message. *)
Definition terminal_message (c : bool) : string :=
  if c then "Conversion cancelled." else "All files processed.".

(** A whole job over [fs]. *)
Definition job_events (saved : list string) (c : bool)
    (levs fevs : list Event) : list Event :=
  [CoInitialize; Dispatch; SetVisible false] ++ levs
  ++ [Quit; CoUninitialize; FinalizeFilenames saved] ++ fevs
  ++ [IsCancelled c; ConversionComplete (terminal_message c)].

End Shapes.

(** The paths announced in "Successfully converted" lines, in order. *)
Definition converted_paths (t : list Event) : list string :=
  omap (λ ev, match ev with
              | ProgressUpdate (LogConverted _ pdf_path) => Some pdf_path
              | _ => None
              end) t.

(** [success] after the retry loop. *)
Definition success_of (r : RetryEnd) : bool :=
  match r with Succeeded => true | _ => false end.

(** The worker went from [st] to [st'] performing [evs]: its parameters are
    untouched, the flag is not reset, and the recorded paths grew by the
    paths of the conversions announced in [evs]. *)
Record steps_to (st : State) (evs : list Event) (st' : State) : Prop := {
  steps_trace : trace st' = trace st ++ evs;
  steps_files : files st' = files st;
  steps_output_dir : output_dir st' = output_dir st;
  steps_retries : retries st' = retries st;
  steps_cancelled : cancelled st = true → cancelled st' = true;
  steps_saved :
    saved_pdf_paths st' = saved_pdf_paths st ++ converted_paths evs;
}.

(** One iteration of [finalize_filenames] over a directory content: what it
    does and the content it leaves. *)
Inductive finalize_one_outcome `{OsPath} (replace_existing : bool)
    (out pdf_path : string) (dir : gset string)
  : list Event → gset string → Prop :=
| outcome_same :
    pdf_path = path_join out (PyStr.replace (basename pdf_path) "%20" " ") →
    finalize_one_outcome replace_existing out pdf_path dir [] dir
| outcome_missing :
    pdf_path ≠ path_join out (PyStr.replace (basename pdf_path) "%20" " ") →
    basename pdf_path ∉ dir →
    finalize_one_outcome replace_existing out pdf_path dir
      [PathExists pdf_path false;
       ProgressUpdate (LogNotFound (basename pdf_path))] dir
| outcome_failed e :
    pdf_path ≠ path_join out (PyStr.replace (basename pdf_path) "%20" " ") →
    basename pdf_path ∈ dir →
    rename_in replace_existing dir (basename pdf_path)
      (basename (path_join out (PyStr.replace (basename pdf_path) "%20" " ")))
    = inl e →
    finalize_one_outcome replace_existing out pdf_path dir
      [PathExists pdf_path true;
       Rename pdf_path
              (path_join out (PyStr.replace (basename pdf_path) "%20" " "))
              (Some e);
       ProgressUpdate (LogRenameFailed (basename pdf_path) e)] dir
| outcome_renamed dir' :
    pdf_path ≠ path_join out (PyStr.replace (basename pdf_path) "%20" " ") →
    basename pdf_path ∈ dir →
    rename_in replace_existing dir (basename pdf_path)
      (basename (path_join out (PyStr.replace (basename pdf_path) "%20" " ")))
    = inr dir' →
    finalize_one_outcome replace_existing out pdf_path dir
      [PathExists pdf_path true;
       Rename pdf_path
              (path_join out (PyStr.replace (basename pdf_path) "%20" " ")) None;
       ProgressUpdate (LogRenamed (basename pdf_path)
                         (PyStr.replace (basename pdf_path) "%20" " "))] dir'.

(** The loop of [finalize_filenames] over a directory content. *)
Inductive finalize_outcomes `{OsPath} (replace_existing : bool) (out : string)
  : list string → gset string → list Event → gset string → Prop :=
| outcomes_nil dir :
    finalize_outcomes replace_existing out [] dir [] dir
| outcomes_cons pdf_path rest dir dir1 dir2 evs1 evs :
    finalize_one_outcome replace_existing out pdf_path dir evs1 dir1 →
    finalize_outcomes replace_existing out rest dir1 evs dir2 →
    finalize_outcomes replace_existing out (pdf_path :: rest) dir (evs1 ++ evs) dir2.

(** What one iteration of [finalize_filenames] leaves in the output
    directory: the result of [os.rename] when the path differs from the new
    path, the file is there and the call does not raise. *)
Definition finalize_dir `{OsPath} (replace_existing : bool) (out pdf_path : string)
    (dir : gset string) : gset string :=
  let new_pdf_path := path_join out (PyStr.replace (basename pdf_path) "%20" " ") in
  if bool_decide (pdf_path ≠ new_pdf_path) && bool_decide (basename pdf_path ∈ dir)
  then match rename_in replace_existing dir (basename pdf_path) (basename new_pdf_path) with
       | inr dir' => dir'
       | inl _ => dir
       end
  else dir.

(** Every read of the flag in the trace returns what the GUI thread has
    done by then. *)
Definition checks_ok (cancel_click : option nat) (t : list Event) : Prop :=
  ∀ i b, t !! i = Some (IsCancelled b) → b = pressed cancel_click i.

(** The flag is set only once Cancel is pressed, and is read as it is. *)
Definition flag_inv (cancel_click : option nat) (st : State) : Prop :=
  (cancelled st = true → pressed cancel_click (length (trace st)) = true)
  ∧ checks_ok cancel_click (trace st).

(** [m] keeps the invariant [I], whether it returns or raises. *)
Definition preserves {A} (I : State → Prop) (m : M A) : Prop :=
  ∀ st, I st → I (final_state (m st)).

(** The files reported in "Failed to convert" lines, in order. *)
Definition failed_files (t : list Event) : list string :=
  omap (λ ev, match ev with
              | ProgressUpdate (LogFailed file_name _) => Some file_name
              | _ => None
              end) t.

(** Every attempt is entered through a read of the flag that returned
    [False]: a call to [Workbooks.Open] comes right after the announcement
    of the attempt, which comes right after such a read. *)
Definition attempts_checked (t : list Event) : Prop :=
  ∀ j file r,
    t !! j = Some (WorkbooksOpen file r) →
    ∃ j' attempt retries file_name,
      j = S (S j')
      ∧ t !! j' = Some (IsCancelled false)
      ∧ t !! S j' = Some (ProgressUpdate (LogAttempting attempt retries file_name)).

(** Every event that satisfies [P] is immediately followed by [next]. *)
Definition each_followed (P : Event → bool) (next : Event) (t : list Event) : Prop :=
  ∀ i ev, t !! i = Some ev → P ev = true → t !! S i = Some next.

(** No event that satisfies [Q] comes after an event that satisfies [P]. *)
Definition none_after (P Q : Event → bool) (t : list Event) : Prop :=
  ∀ i j a b,
    t !! i = Some a → P a = true → t !! j = Some b → Q b = true → (j < i)%nat.

(** The automation interface of the scenarios: the first [n] calls return,
    every later call raises. *)
Definition engine_ok_for (n : nat) (k : nat) : option Exn :=
  if bool_decide (k < n)%nat then None else Some "com_error".

(** What the finalization relies on from [os.path]: joining a directory
    and a file name gives a path whose basename is that file name, and a file
    name with its ["%20"] replaced by spaces is still a file name. *)
Class OsPathLaws (os_path : OsPath) : Prop := {
  basename_path_join (d p : string) :
    basename (path_join d (basename p)) = basename p;
  basename_unquoted (p : string) :
    basename (PyStr.replace (basename p) "%20" " ")
    = PyStr.replace (basename p) "%20" " ";
}.

(** The worker as [toggle_conversion] creates it (line 239): the retry limit
    is left to its default. *)
Definition default_retries : Z := 3.
Definition start_worker (selected_files : list string) (output_dir : string)
    (dir : gset string) : State :=
  new_worker selected_files output_dir default_retries dir.

(** The inputs of the small jobs used as examples: an automation interface
    whose calls all return, one whose calls all raise, a [chmod] that never
    fails, the window before a job is started. *)
Definition all_return : nat → option Exn := λ _, None.
Definition all_raise : nat → option Exn := engine_ok_for 0.
Definition chmod_ok : string → option Exn := λ _, None.
Definition idle_window : Window := mkWindow 0 "Convert to PDF" true [].

(** ** [ExcelToPDFConverterApp]

    The window object with the slots the user drives.  A slot is a function
    of the window; what a dialog returned is an argument of the slot. *)

Record App : Type := mkApp {
  (** the widgets *)
  window : Window;
  (** [self.selected_files] *)
  selected_files : list string;
  (** [self.output_dir] *)
  app_output_dir : string;
  (** [self.worker], as the GUI thread sees it; [None] as long as the
      attribute is not assigned ([__init__] does not assign it) *)
  worker : option State;
  (** number of calls to [self.conversion_thread.start()] *)
  threads_started : nat;
}.

(** [ExcelToPDFConverterApp()]: [init_ui] builds the widgets, then the
    selection is empty and no thread exists. *)
Definition new_app : App := mkApp idle_window [] "" None 0.

Definition set_window (w : Window) (a : App) : App :=
  mkApp w (selected_files a) (app_output_dir a) (worker a) (threads_started a).

(** [self.log(message)] *)
Definition app_log (message : string) (a : App) : App :=
  set_window (log message (window a)) a.

(** [QPushButton.setEnabled] *)
Definition setEnabled (b : bool) (w : Window) : Window :=
  mkWindow (progress_bar w) (convert_btn_text w) b (log_text w).

(** [select_files] (lines 208-214); [files] is the list returned by the file
    dialog, empty when the dialog is dismissed. *)
Definition select_files (files : list string) (a : App) : App :=
  match files with
  | [] => a
  | _ :: _ =>
      app_log ("Selected files: " +:+ pretty (length files))
        (mkApp (window a) files (app_output_dir a) (worker a) (threads_started a))
  end.

(** [select_output_folder] (lines 216-220); [folder] is the string returned
    by the directory dialog, empty when the dialog is dismissed. *)
Definition select_output_folder (folder : string) (a : App) : App :=
  if String.eqb folder "" then a
  else
    app_log ("Selected output folder: " +:+ folder)
      (mkApp (window a) (selected_files a) folder (worker a) (threads_started a)).

(** [toggle_conversion] (lines 226-250).  [dir] is the content of the
    output directory at the moment a worker is created.  The result is the
    window after the slot, or the exception the slot raises: reading
    [self.worker] while the attribute is not assigned is an
    [AttributeError]. *)
Definition toggle_conversion (dir : gset string) (a : App) : Exn + App :=
  if String.eqb (convert_btn_text (window a)) "Convert to PDF" then
    if bool_decide (selected_files a = []) then
      inr (app_log "No files selected. Please select Excel files first." a)
    else if String.eqb (app_output_dir a) "" then
      inr (app_log "No output folder selected. Please select an output folder." a)
    else
      inr (mkApp (start_conversion (window a)) (selected_files a)
             (app_output_dir a)
             (Some (start_worker (selected_files a) (app_output_dir a) dir))
             (S (threads_started a)))
  else
    match worker a with
    | None => inl "AttributeError"
    | Some w =>
        inr (mkApp (setEnabled false (window a)) (selected_files a)
               (app_output_dir a) (Some (cancel_conversion w))
               (threads_started a))
    end.

(** What reaches the window: the user's actions and the signals of workers. *)
Inductive GuiEvent : Type :=
| BrowseFiles (files : list string)          (* "Browse Files", then the dialog *)
| SelectOutputFolder (folder : string)       (* "Select Output Folder", then the dialog *)
| ClickConvert (dir : gset string)           (* a click on [convert_btn] *)
| WorkerSignal (ev : Event).                 (* a signal delivered to its slot *)

(** The event loop of the window.  A click on a disabled button is not
    passed to the slot. *)
Definition gui_step (a : App) (g : GuiEvent) : Exn + App :=
  match g with
  | BrowseFiles files => inr (select_files files a)
  | SelectOutputFolder folder => inr (select_output_folder folder a)
  | ClickConvert dir =>
      if convert_btn_enabled (window a) then toggle_conversion dir a else inr a
  | WorkerSignal ev => inr (set_window (deliver (window a) ev) a)
  end.

Fixpoint gui_run (a : App) (gs : list GuiEvent) : Exn + App :=
  match gs with
  | [] => inr a
  | g :: rest =>
      match gui_step a g with
      | inr a' => gui_run a' rest
      | inl e => inl e
      end
  end.

(** The lines a trace adds to the log of the window: the texts sent through
    [progress_update] and [conversion_complete]. *)
Definition signal_lines (t : list Event) : list string :=
  omap (λ ev, match ev with
              | ProgressUpdate l => Some (render l)
              | ConversionComplete message => Some message
              | _ => None
              end) t.

(** The attempt numbers announced in "Attempting conversion" lines. *)
Definition attempts_announced (t : list Event) : list Z :=
  omap (λ ev, match ev with
              | ProgressUpdate (LogAttempting attempt _ _) => Some attempt
              | _ => None
              end) t.

Definition is_chmod (ev : Event) : bool :=
  match ev with Chmod _ _ => true | _ => false end.
Definition is_complete_signal (g : GuiEvent) : bool :=
  match g with WorkerSignal (ConversionComplete _) => true | _ => false end.

(** The last non-empty choice among the file dialogs of [gs], [cur] when
    there is none. *)
Fixpoint last_choice (cur : list string) (gs : list GuiEvent) : list string :=
  match gs with
  | [] => cur
  | BrowseFiles (f :: fs) :: rest => last_choice (f :: fs) rest
  | _ :: rest => last_choice cur rest
  end.

(** The percentages of the counts [1 .. m] out of [n] files. *)
Definition percentages (n : Z) (m : nat) : list Z :=
  omap (λ k, progress_percent k n) (range 1 (Z.of_nat m + 1)).

(** The last non-empty answer among the folder dialogs of [gs]. *)
Fixpoint last_folder (cur : string) (gs : list GuiEvent) : string :=
  match gs with
  | [] => cur
  | SelectOutputFolder folder :: rest =>
      last_folder (if String.eqb folder "" then cur else folder) rest
  | _ :: rest => last_folder cur rest
  end.

(** Number of terminal signals delivered. *)
Definition completions (gs : list GuiEvent) : nat :=
  length (filter (λ g, is_complete_signal g = true) gs).

(** What holds of the window between two events. *)
Record app_inv (a : App) (started completed : nat) : Prop := {
  inv_text :
    convert_btn_text (window a) = "Convert to PDF"
    ∨ convert_btn_text (window a) = "Cancel";
  inv_idle :
    convert_btn_text (window a) = "Convert to PDF" →
    convert_btn_enabled (window a) = true ∧ (started ≤ completed)%nat;
  inv_busy :
    convert_btn_text (window a) = "Cancel" →
    is_Some (worker a) ∧ (started ≤ S completed)%nat;
  inv_worker w :
    worker a = Some w →
    files w ≠ [] ∧ output_dir w ≠ "" ∧ retries w = 3
    ∧ saved_pdf_paths w = [] ∧ trace w = [];
}.

(** The outcome carried by a call to the automation interface. *)
Definition outcome_of (ev : Event) : option (option Exn) :=
  match ev with
  | WorkbooksOpen _ r | ExportAsFixedFormat _ r | WorkbookClose r => Some r
  | _ => None
  end.

(** The outcomes of the automation calls of a trace, in order. *)
Definition engine_outcomes (t : list Event) : list (option Exn) :=
  omap outcome_of t.

(** The automation calls recorded so far are the first calls of the
    interface, with the outcomes the interface gives them. *)
Definition engine_inv (engine : nat → option Exn) (st : State) : Prop :=
  engine_outcomes (trace st) = map engine (seq 0 (calls st)).

(** No automation call of the trace raised. *)
Definition no_call_raised (t : list Event) : Prop :=
  Forall (λ ev, ∀ e, outcome_of ev ≠ Some (Some e)) t.

(** The operations by which the worker goes on with the job after a check
    at the head of a file or after the retry loop: entering a file
    ([os.chmod]), reporting a failure, counting a file. *)
Definition goes_on (ev : Event) : bool :=
  is_chmod ev || is_failed_line ev || is_progress ev.

(** Every event that satisfies [P] comes right after a read of the flag
    that returned [False]. *)
Definition after_check (P : Event → bool) (t : list Event) : Prop :=
  ∀ j ev, t !! j = Some ev → P ev = true →
          ∃ j', j = S j' ∧ t !! j' = Some (IsCancelled false).

(** The first event, if any, does not satisfy [P]. *)
Definition quiet_head (P : Event → bool) (t : list Event) : Prop :=
  ∀ ev, t !! 0%nat = Some ev → P ev = false.

(** ** A session call that raises *)

(** The first session call of a job that raises, with its exception: the
    calls are made in this order, [Quit] and [CoUninitialize] after the loop
    over the files. *)
Definition first_failure (session : SessionCall → option Exn)
  : option (SessionCall * Exn) :=
  match session CallCoInitialize with
  | Some e => Some (CallCoInitialize, e)
  | None =>
  match session CallDispatch with
  | Some e => Some (CallDispatch, e)
  | None =>
  match session CallSetVisible with
  | Some e => Some (CallSetVisible, e)
  | None =>
  match session CallQuit with
  | Some e => Some (CallQuit, e)
  | None =>
  match session CallCoUninitialize with
  | Some e => Some (CallCoUninitialize, e)
  | None => None
  end end end end end.

(** The trace of a job ended by the exception [e] of the session call
    [call]; [levs] are the operations of the loop over the files. *)
Definition cut_events (call : SessionCall) (e : Exn) (levs : list Event)
  : list Event :=
  match call with
  | CallCoInitialize => [SessionError call e]
  | CallDispatch => [CoInitialize; SessionError call e]
  | CallSetVisible => [CoInitialize; Dispatch; SessionError call e]
  | CallQuit =>
      [CoInitialize; Dispatch; SetVisible false] ++ levs ++ [SessionError call e]
  | CallCoUninitialize =>
      [CoInitialize; Dispatch; SetVisible false] ++ levs
      ++ [Quit; SessionError call e]
  end.

(** Whether the handle has been acquired, and whether it has been released,
    when the session call [call] raises. *)
Definition acquired_before (call : SessionCall) : bool :=
  match call with CallCoInitialize | CallDispatch => false | _ => true end.
Definition released_before (call : SessionCall) : bool :=
  match call with CallCoUninitialize => true | _ => false end.

Definition is_finalize (ev : Event) : bool :=
  match ev with FinalizeFilenames _ => true | _ => false end.

#[global] Instance session_call_eq_dec : EqDecision SessionCall.
Proof. solve_decision. Defined.

(** A session in which the call [call] raises and the others return. *)
Definition session_fails_at (call : SessionCall) : SessionCall → option Exn :=
  λ c, if decide (c = call) then Some "com_error" else None.

(** A call to [os.rename] that went through. *)
Definition is_renamed (ev : Event) : bool :=
  match ev with Rename _ _ None => true | _ => false end.

(** ** The permissions of the input files *)



(** The operations of [reset_permissions]: [os.chmod] and what goes to
    [logging.error]. *)
Definition is_silent (ev : Event) : bool :=
  match ev with Chmod _ _ | LoggingError _ => true | _ => false end.

(** A trace without its calls to [os.chmod] and its [logging.error] lines:
    the calls to the session and to the workbook interface, the reads of
    the flag, the signals, the pauses and the operations on the output
    directory. *)
Definition audible (t : list Event) : list Event :=
  filter (λ ev, is_silent ev = false) t.

(** Two workers that differ at most by the silent operations performed. *)
Record same_run (st1 st2 : State) : Prop := {
  same_files : files st1 = files st2;
  same_output_dir : output_dir st1 = output_dir st2;
  same_retries : retries st1 = retries st2;
  same_cancelled : cancelled st1 = cancelled st2;
  same_saved : saved_pdf_paths st1 = saved_pdf_paths st2;
  same_calls : calls st1 = calls st2;
  same_listing : listing st1 = listing st2;
  same_audible : audible (trace st1) = audible (trace st2);
}.

(** Two computations that take such workers to such workers, with the same
    result or the same exception. *)
Definition agree {A} (m1 m2 : M A) : Prop :=
  ∀ st1 st2, same_run st1 st2 →
    match m1 st1, m2 st2 with
    | Returned a s1, Returned b s2 => a = b ∧ same_run s1 s2
    | Raised e s1, Raised e' s2 => e = e' ∧ same_run s1 s2
    | _, _ => False
    end.

(** * Properties *)

(** ** Strings *)

#[local] Arguments String.append !_ _ / : simpl nomatch.

Module PyStrFacts.
Import PyStr.

Lemma append_nil_r (s : string) : s +:+ "" = s.
Proof. induction s as [|c s IH]; simpl; [done | by rewrite IH]. Qed.

Lemma append_assoc (a b c : string) : (a +:+ b) +:+ c = a +:+ (b +:+ c).
Proof. induction a as [|x a IH]; simpl; [done | by rewrite IH]. Qed.

Lemma length_append (a b : string) :
  String.length (a +:+ b) = (String.length a + String.length b)%nat.
Proof. induction a as [|x a IH]; simpl; [done | by rewrite IH]. Qed.

Lemma eqb_eq (a b : string) : String.eqb a b = true ↔ a = b.
Proof. apply String.eqb_eq. Qed.

Lemma eqb_refl (a : string) : String.eqb a a = true.
Proof. by apply eqb_eq. Qed.

(** Two texts that end with tails of the same length agree on both parts. *)
Lemma append_inj (a b c d : string) :
  String.length b = String.length d → a +:+ b = c +:+ d → a = c ∧ b = d.
Proof.
  revert c; induction a as [|x a IH]; intros [|y c] Hlen Heq; simpl in *.
  - done.
  - apply (f_equal String.length) in Heq. simpl in Heq.
    rewrite length_append in Heq. lia.
  - apply (f_equal String.length) in Heq. simpl in Heq.
    rewrite length_append in Heq. lia.
  - injection Heq as -> Heq. destruct (IH c Hlen Heq) as [-> ->]. done.
Qed.

Lemma endswith_nil (suf : string) : endswith "" suf = String.eqb "" suf.
Proof. unfold endswith. apply orb_false_r. Qed.

Lemma endswith_cons (x : ascii) (s suf : string) :
  endswith (String x s) suf = String.eqb (String x s) suf || endswith s suf.
Proof. done. Qed.

Lemma endswith_short (s suf : string) :
  (String.length s < String.length suf)%nat → endswith s suf = false.
Proof.
  induction s as [|x s IH]; intros Hlen.
  - rewrite endswith_nil. apply not_true_is_false. intros <-%eqb_eq.
    simpl in Hlen. lia.
  - rewrite endswith_cons, IH by (simpl in Hlen; lia). rewrite orb_false_r.
    apply not_true_is_false. intros <-%eqb_eq. lia.
Qed.

(** [endswith] decides "is of the form [stem + suf]". *)
Lemma endswith_spec (s suf : string) :
  endswith s suf = true ↔ ∃ stem, s = stem +:+ suf.
Proof.
  split.
  - induction s as [|x s IH]; intros H.
    + rewrite endswith_nil in H. apply eqb_eq in H as <-. by exists "".
    + rewrite endswith_cons in H. apply orb_true_iff in H as [H|H].
      * apply eqb_eq in H as <-. by exists "".
      * destruct (IH H) as [stem ->]. by exists (String x stem).
  - intros [stem ->]. induction stem as [|x stem IH].
    + change ("" +:+ suf) with suf. destruct suf as [|y suf].
      * done.
      * by rewrite endswith_cons, eqb_refl.
    + change (String x stem +:+ suf) with (String x (stem +:+ suf)).
      by rewrite endswith_cons, IH, orb_true_r.
Qed.

Lemma endswith_append (stem suf : string) : endswith (stem +:+ suf) suf = true.
Proof. apply endswith_spec. by exists stem. Qed.

(** A text that ends with [b] ends with [c] of the same length only when
    [b] is [c]. *)
Lemma endswith_same_length (a b c : string) :
  String.length b = String.length c →
  endswith (a +:+ b) c = String.eqb b c.
Proof.
  intros Hlen. destruct (String.eqb b c) eqn:Hbc.
  - apply eqb_eq in Hbc as ->. apply endswith_append.
  - apply not_true_is_false. intros [stem Heq]%endswith_spec.
    apply append_inj in Heq as [_ ->]; [|done].
    by rewrite eqb_refl in Hbc.
Qed.

Lemma before_last_append (sep : ascii) (s x : string) :
  before_last sep x = None →
  before_last sep (s +:+ String sep x) = Some s.
Proof.
  intros Hx. induction s as [|c s IH]; simpl.
  - by rewrite Hx, Ascii.eqb_refl.
  - by rewrite IH.
Qed.

Lemma rsplit1_head_append (sep : ascii) (s x : string) :
  before_last sep x = None →
  rsplit1_head sep (s +:+ String sep x) = s.
Proof. intros Hx. unfold rsplit1_head. by rewrite before_last_append. Qed.

(** *** [startswith] and [contains] *)

Lemma startswith_spec (s p : string) :
  startswith s p = true ↔ ∃ r, s = p +:+ r.
Proof.
  revert s. induction p as [|a p IH]; intros s.
  - split; [intros _; by exists s | done].
  - destruct s as [|b s]; simpl.
    + split; [done | by intros [r ?]].
    + rewrite andb_true_iff, IH, Ascii.eqb_eq. split.
      * intros [-> [r ->]]. by exists r.
      * intros [r [= -> ->]]. eauto.
Qed.

Lemma startswith_append (a b p : string) :
  startswith a p = true → startswith (a +:+ b) p = true.
Proof.
  intros [r ->]%startswith_spec. apply startswith_spec.
  exists (r +:+ b). apply append_assoc.
Qed.

Lemma contains_cons (c : ascii) (s sub : string) :
  contains (String c s) sub = startswith (String c s) sub || contains s sub.
Proof. done. Qed.

(** *** [replace("%20", " ")] *)

(** The replacement made by [finalize_filenames]. *)
Abbreviation unquote s := (replace s "%20" " ").

Lemma unquote_nil : unquote "" = "".
Proof. done. Qed.

Lemma unquote_match (r : string) : unquote ("%20" +:+ r) = " " +:+ unquote r.
Proof. done. Qed.

Lemma unquote_skip (c : ascii) (t : string) :
  startswith (String c t) "%20" = false →
  unquote (String c t) = String c (unquote t).
Proof.
  intros H. unfold replace.
  change (replace_from "%20" " " (String c t) 0) with
    (if startswith (String c t) "%20"
     then " " +:+ replace_from "%20" " " t 2
     else String c (replace_from "%20" " " t 0)).
  by rewrite H.
Qed.

(** Induction along the scan of [replace]: either ["%20"] starts here and
    is skipped, or one character is copied. *)
Lemma unquote_ind (P : string → Prop) :
  P "" →
  (∀ r, P r → P ("%20" +:+ r)) →
  (∀ c t, startswith (String c t) "%20" = false → P t → P (String c t)) →
  ∀ s, P s.
Proof.
  intros Hnil Hmatch Hskip s.
  assert (∀ n s, (String.length s ≤ n)%nat → P s) as Hall; [|by eapply Hall].
  clear s. induction n as [|n IH]; intros [|c t] Hlen; simpl in Hlen;
    try done; try lia.
  destruct (startswith (String c t) "%20") eqn:Hsw.
  - apply startswith_spec in Hsw as [r Hr]. rewrite Hr. apply Hmatch, IH.
    apply (f_equal String.length) in Hr. simpl in Hr. lia.
  - apply Hskip; [done|]. apply IH. lia.
Qed.

(** First character of the result: a space where ["%20"] started, the
    first character of the text otherwise. *)
Lemma unquote_startswith_20 (c : ascii) (t : string) :
  startswith (String c t) "%20" = false →
  startswith (String c (unquote t)) "%20" = false.
Proof.
  intros H. apply not_true_is_false. intros [r Hr]%startswith_spec.
  injection Hr as -> Hr.
  destruct t as [|d t]; [done|].
  destruct (startswith (String d t) "%20") eqn:Hd.
  - apply startswith_spec in Hd as [r' Hd]. rewrite Hd in Hr.
    by rewrite unquote_match in Hr.
  - rewrite unquote_skip in Hr by done. injection Hr as -> Hr.
    destruct t as [|e t]; [done|].
    destruct (startswith (String e t) "%20") eqn:He.
    + apply startswith_spec in He as [r' He]. rewrite He in Hr.
      by rewrite unquote_match in Hr.
    + rewrite unquote_skip in Hr by done. by injection Hr as -> Hr.
Qed.

(** Every occurrence is replaced: none is left. *)
Lemma unquote_clean (s : string) : contains (unquote s) "%20" = false.
Proof.
  induction s as [|r IH|c t Hc IH] using unquote_ind.
  - done.
  - rewrite unquote_match.
    change (" " +:+ unquote r) with (String " " (unquote r)).
    by rewrite contains_cons, IH.
  - rewrite unquote_skip by done.
    by rewrite contains_cons, IH, unquote_startswith_20.
Qed.

(** A text without occurrence is left as it is. *)
Lemma unquote_id (s : string) : contains s "%20" = false → unquote s = s.
Proof.
  induction s as [|r IH|c t Hc IH] using unquote_ind; intros H.
  - done.
  - done.
  - rewrite contains_cons in H. apply orb_false_iff in H as [_ H].
    rewrite unquote_skip by done. by rewrite IH.
Qed.

Lemma unquote_idemp (s : string) : unquote (unquote s) = unquote s.
Proof. apply unquote_id, unquote_clean. Qed.

Lemma unquote_changes (s : string) :
  contains s "%20" = true → unquote s ≠ s.
Proof.
  intros H Heq. pose proof (unquote_clean s) as Hc. rewrite Heq in Hc.
  congruence.
Qed.

Lemma concat_cons (sep x : string) (xs : list string) :
  xs ≠ [] → String.concat sep (x :: xs) = x +:+ sep +:+ String.concat sep xs.
Proof. by destruct xs. Qed.

(** The text is cut at its occurrences of ["%20"] into pieces that contain
    none, and the result is the same pieces with one space between two
    neighbours: every occurrence becomes one space, and nothing else
    changes. *)
Lemma unquote_pieces (s : string) :
  ∃ pieces : list string,
    pieces ≠ []
    ∧ s = join "%20" pieces
    ∧ unquote s = join " " pieces
    ∧ Forall (λ piece, contains piece "%20" = false) pieces.
Proof.
  unfold join.
  induction s as [|r IH|c t Hc IH] using unquote_ind.
  - exists [""]. repeat split; try done. by constructor.
  - destruct IH as (ps & Hne & Hr & Hu & Hall).
    exists ("" :: ps). repeat split; try done.
    + by rewrite concat_cons, <- Hr.
    + by rewrite concat_cons, unquote_match, <- Hu.
    + by constructor.
  - destruct IH as (ps & Hne & Hr & Hu & Hall).
    destruct ps as [|p ps]; [done|].
    assert (contains (String c p) "%20" = false) as Hp.
    { rewrite contains_cons. apply Forall_cons in Hall as [-> _].
      rewrite orb_false_r. apply not_true_is_false. intros Hsw.
      destruct ps as [|q ps].
      - simpl in Hr. congruence.
      - rewrite concat_cons in Hr by done. rewrite Hr in Hc.
        change (String c (p +:+ "%20" +:+ String.concat "%20" (q :: ps)))
          with (String c p +:+ ("%20" +:+ String.concat "%20" (q :: ps))) in Hc.
        by rewrite startswith_append in Hc. }
    exists (String c p :: ps). repeat split; try done.
    + destruct ps as [|q ps]; [simpl in *; congruence|].
      rewrite concat_cons in * by done. by rewrite Hr.
    + rewrite unquote_skip by done.
      destruct ps as [|q ps]; [simpl in *; congruence|].
      rewrite concat_cons in * by done. by rewrite Hu.
    + apply Forall_cons in Hall as [_ Hall]. by constructor.
Qed.

End PyStrFacts.

(** ** The name of the PDF *)

Section PdfName.
Import PyStr PyStrFacts.

Lemma pdf_name_of_xls (stem : string) :
  pdf_name_of (stem +:+ ".xls") = stem +:+ ".pdf".
Proof.
  unfold pdf_name_of, endswith_any. simpl existsb.
  rewrite endswith_append. simpl.
  by rewrite (rsplit1_head_append "." stem "xls").
Qed.

Lemma pdf_name_of_xlsx (stem : string) :
  pdf_name_of (stem +:+ ".xlsx") = stem +:+ ".pdf".
Proof.
  unfold pdf_name_of, endswith_any. simpl existsb.
  rewrite (endswith_append stem ".xlsx"), orb_true_r. simpl.
  by rewrite (rsplit1_head_append "." stem "xlsx").
Qed.

Lemma pdf_name_of_other (file_name : string) :
  endswith file_name ".xls" = false →
  endswith file_name ".xlsx" = false →
  pdf_name_of file_name = file_name +:+ ".pdf".
Proof.
  intros H1 H2. unfold pdf_name_of, endswith_any. simpl existsb.
  by rewrite H1, H2.
Qed.

Lemma pdf_not_xls (stem : string) :
  endswith (stem +:+ ".pdf") ".xls" = false
  ∧ endswith (stem +:+ ".pdf") ".xlsx" = false.
Proof.
  split.
  - by rewrite endswith_same_length.
  - apply not_true_is_false. intros [stem' Heq]%endswith_spec.
    change (stem' +:+ ".xlsx") with (stem' +:+ "." +:+ "xlsx") in Heq.
    rewrite <- append_assoc in Heq.
    by apply append_inj in Heq as [_ ?].
Qed.

(** C1.  The PDF derived from an input whose basename is [stem + ".xls"]
    or [stem + ".xlsx"] is named [stem + ".pdf"]: exactly that trailing
    suffix is removed.  For a basename with neither suffix the PDF is
    named [basename + ".pdf"], so that a basename [stem + ".pdf"] yields
    [stem + ".pdf.pdf"].  The name is what the worker joins to the output
    directory. *)
Theorem pdf_name_derivation `{OsPath} (out file stem : string) :
  pdf_path_of out file = normpath (path_join out (pdf_name_of (basename file)))
  ∧ (basename file = stem +:+ ".xls" ∨ basename file = stem +:+ ".xlsx" →
     pdf_name_of (basename file) = stem +:+ ".pdf")
  ∧ (endswith (basename file) ".xls" = false →
     endswith (basename file) ".xlsx" = false →
     pdf_name_of (basename file) = basename file +:+ ".pdf")
  ∧ (basename file = stem +:+ ".pdf" →
     pdf_name_of (basename file) = stem +:+ ".pdf.pdf").
Proof.
  repeat split.
  - intros [-> | ->]; [apply pdf_name_of_xls | apply pdf_name_of_xlsx].
  - apply pdf_name_of_other.
  - intros ->. destruct (pdf_not_xls stem) as [H1 H2].
    rewrite pdf_name_of_other by done. by rewrite append_assoc.
Qed.

End PdfName.

(** ** The progress percentage *)

Module Float64Facts.
Import Float64.

Lemma div_mod_bounds (a b : Z) :
  0 < b → a = b * (a / b) + a mod b ∧ 0 ≤ a mod b < b.
Proof.
  intros Hb. split; [apply Z.div_mod; lia | apply Z.mod_pos_bound; lia].
Qed.

Lemma rne_bounds (a b : Z) : a / b ≤ rne a b ≤ a / b + 1.
Proof. unfold rne. repeat case_match; lia. Qed.

Lemma rne_mono (a1 a2 b : Z) : 0 < b → a1 ≤ a2 → rne a1 b ≤ rne a2 b.
Proof.
  intros Hb Ha.
  pose proof (Z.div_le_mono a1 a2 b Hb Ha) as Hq.
  destruct (decide (a1 / b = a2 / b)) as [Heq|Hne].
  - destruct (div_mod_bounds a1 b Hb) as [H1 H1'].
    destruct (div_mod_bounds a2 b Hb) as [H2 H2'].
    assert (a1 mod b ≤ a2 mod b) as Hr by (rewrite Heq in H1; nia).
    unfold rne. rewrite Heq.
    repeat case_match;
      repeat match goal with
             | H : (_ <? _) = true |- _ => apply Z.ltb_lt in H
             | H : (_ <? _) = false |- _ => apply Z.ltb_ge in H
             end; try lia; congruence.
  - pose proof (rne_bounds a1 b). pose proof (rne_bounds a2 b). lia.
Qed.

Lemma rne_exact (k b : Z) : 0 < b → rne (k * b) b = k.
Proof.
  intros Hb. unfold rne.
  rewrite Z.div_mul, Z.mod_mul by lia.
  replace (2 * 0 <? b) with true by (symmetry; apply Z.ltb_lt; lia). done.
Qed.

Lemma rne_ge (m a b : Z) : 0 < b → m * b ≤ a → m ≤ rne a b.
Proof.
  intros Hb H. rewrite <- (rne_exact m b Hb). by apply rne_mono.
Qed.

Lemma rne_le (m a b : Z) : 0 < b → a ≤ m * b → rne a b ≤ m.
Proof.
  intros Hb H. rewrite <- (rne_exact m b Hb). by apply rne_mono.
Qed.

Lemma pow2_pos (e : Z) : 0 ≤ e → 0 < 2 ^ e.
Proof. intros. apply Z.pow_pos_nonneg; lia. Qed.

Lemma ulp_pos (n d : Z) : 0 < ulp n d.
Proof. unfold ulp. apply pow2_pos. lia. Qed.

Lemma round_nonneg (n d : Z) : 0 ≤ n → 0 < d → 0 ≤ round n d.
Proof.
  intros Hn Hd. unfold round. pose proof (ulp_pos n d) as Hu.
  apply Z.mul_nonneg_nonneg; [|lia].
  apply (rne_ge 0); lia.
Qed.

(** Rounding to nearest is monotone. *)
Lemma round_mono (n1 n2 d : Z) :
  0 < d → 0 ≤ n1 ≤ n2 → round n1 d ≤ round n2 d.
Proof.
  intros Hd [Hn1 Hn].
  pose proof (Z.div_le_mono n1 n2 d Hd Hn) as Hq.
  pose proof (Z.log2_le_mono _ _ Hq) as Hk.
  unfold round, ulp.
  set (k1 := Z.log2 (n1 / d)) in *. set (k2 := Z.log2 (n2 / d)) in *.
  set (e1 := Z.max 0 (k1 - (prec - 1))). set (e2 := Z.max 0 (k2 - (prec - 1))).
  assert (e1 ≤ e2) as He by (unfold e1, e2; lia).
  assert (0 ≤ e1) as He1 by (unfold e1; lia).
  pose proof (pow2_pos e1 He1) as Hu1.
  destruct (decide (e1 = e2)) as [<-|Hlt].
  - apply Z.mul_le_mono_nonneg_r; [lia|]. apply rne_mono; lia.
  - assert (e2 = k2 - (prec - 1) ∧ 0 < e2) as [He2 He2'] by (unfold e1, e2 in *; lia).
    pose proof (pow2_pos e2 ltac:(lia)) as Hu2.
    (* the smaller value stays below [2^k2], the larger one reaches it *)
    transitivity (2 ^ (prec - 1) * 2 ^ e2).
    + replace e2 with ((e2 - e1) + e1) at 1 by lia.
      rewrite (Z.pow_add_r 2 (e2 - e1) e1), Z.mul_assoc by lia.
      apply Z.mul_le_mono_nonneg_r; [lia|].
      apply rne_le; [lia|].
      assert (n1 / d < 2 ^ (k1 + 1)) as Hup.
      { destruct (decide (0 < n1 / d)) as [Hpos|Hz].
        - apply (Z.log2_spec _ Hpos).
        - assert (n1 / d = 0) as -> by (pose proof (Z.div_pos n1 d); lia).
          apply pow2_pos. unfold k1. pose proof (Z.log2_nonneg (n1 / d)). lia. }
      assert (n1 < 2 ^ (k1 + 1) * d) as Hn1'.
      { destruct (div_mod_bounds n1 d Hd). nia. }
      assert (2 ^ (k1 + 1) ≤ 2 ^ (prec - 1) * 2 ^ (e2 - e1) * 2 ^ e1) as Hpow.
      { rewrite <- !Z.pow_add_r by (unfold prec; lia).
        apply Z.pow_le_mono_r; [lia|]. unfold e1, prec in *. lia. }
      nia.
    + apply Z.mul_le_mono_nonneg_r; [lia|].
      apply rne_ge; [lia|].
      assert (0 < n2 / d) as Hpos.
      { destruct (decide (0 < n2 / d)); [done|].
        unfold k2 in He2. rewrite Z.log2_nonpos in He2 by lia.
        unfold prec in *. lia. }
      pose proof (proj1 (Z.log2_spec _ Hpos)) as Hlow. fold k2 in Hlow.
      replace k2 with ((prec - 1) + e2) in Hlow by lia.
      rewrite Z.pow_add_r in Hlow by (unfold prec; lia).
      destruct (div_mod_bounds n2 d Hd). nia.
Qed.

Lemma true_div_mono (p1 p2 t : Z) :
  0 < t → 0 ≤ p1 ≤ p2 → true_div p1 t ≤ true_div p2 t.
Proof.
  intros Ht Hp. unfold true_div. pose proof (pow2_pos scale ltac:(done)).
  apply round_mono; [done|]. nia.
Qed.

Lemma true_div_nonneg (p t : Z) : 0 < t → 0 ≤ p → 0 ≤ true_div p t.
Proof.
  intros Ht Hp. unfold true_div. pose proof (pow2_pos scale ltac:(done)).
  apply round_nonneg; [nia | done].
Qed.

Lemma mul_mono (x1 x2 y : Z) : 0 ≤ y → 0 ≤ x1 ≤ x2 → mul x1 y ≤ mul x2 y.
Proof.
  intros Hy Hx. unfold mul. pose proof (pow2_pos scale ltac:(done)).
  apply round_mono; [done|]. nia.
Qed.


Lemma to_int_mono (x1 x2 : Z) : x1 ≤ x2 → to_int x1 ≤ to_int x2.
Proof.
  intros. unfold to_int. apply Z.div_le_mono; [|done].
  by apply pow2_pos.
Qed.

(** [t / t] is [1.0]. *)
Lemma true_div_same (t : Z) : 0 < t → true_div t t = 2 ^ scale.
Proof.
  intros Ht. unfold true_div, round, ulp.
  rewrite (Z.mul_comm t (2 ^ scale)), Z.div_mul by lia.
  rewrite Z.log2_pow2 by done.
  change (Z.max 0 (scale - (prec - 1))) with 1022.
  replace (2 ^ scale * t) with (2 ^ 52 * (t * 2 ^ 1022)).
  - rewrite rne_exact; [|pose proof (pow2_pos 1022 ltac:(done)); nia].
    by rewrite <- Z.pow_add_r.
  - change scale with (52 + 1022). rewrite Z.pow_add_r by done. ring.
Qed.

End Float64Facts.

Section ProgressPercent.
Import Float64 Float64Facts.

Lemma progress_percent_defined (p t : Z) :
  t ≠ 0 → is_Some (progress_percent p t).
Proof.
  intros Ht. unfold progress_percent.
  destruct (Z.eqb_spec t 0); [done | eauto].
Qed.

(** The percentage does not decrease when one more file is processed. *)
Lemma progress_percent_mono (p1 p2 t v1 v2 : Z) :
  0 ≤ p1 ≤ p2 →
  0 < t →
  progress_percent p1 t = Some v1 →
  progress_percent p2 t = Some v2 →
  v1 ≤ v2.
Proof.
  intros Hp Ht. unfold progress_percent.
  destruct (Z.eqb_spec t 0); [lia|]. intros [= <-] [= <-].
  apply to_int_mono, mul_mono.
  - unfold of_int. pose proof (pow2_pos scale ltac:(done)). lia.
  - split; [apply true_div_nonneg; lia | apply true_div_mono; lia].
Qed.

(** The rounding written out in [Float64] is that of binary64 arithmetic:
    the two computations agree for every job of up to ten files, and on the
    counts where the floating-point result is one less than the exact
    percentage. *)
Lemma progress_percent_binary64 :
  Binary64.agree_up_to 10 = true
  ∧ progress_percent 29 100 = Some (Binary64.percent 29 100)
  ∧ progress_percent 57 100 = Some (Binary64.percent 57 100).
Proof. by vm_compute. Qed.

Example progress_percent_29_of_100 : progress_percent 29 100 = Some 28.
Proof. by vm_compute. Qed.

Example progress_percent_1_of_3 : progress_percent 1 3 = Some 33.
Proof. by vm_compute. Qed.

(** All the files processed: exactly [100]. *)
Lemma progress_percent_full (t : Z) :
  0 < t → progress_percent t t = Some 100.
Proof.
  intros Ht. unfold progress_percent.
  destruct (Z.eqb_spec t 0); [lia|].
  rewrite true_div_same by done. by vm_compute.
Qed.



End ProgressPercent.

(** ** The worker follows the shapes *)

Lemma converted_paths_app (t1 t2 : list Event) :
  converted_paths (t1 ++ t2) = converted_paths t1 ++ converted_paths t2.
Proof. unfold converted_paths. apply omap_app. Qed.

Lemma steps_to_refl (st : State) : steps_to st [] st.
Proof. split; try done; simpl; by rewrite app_nil_r. Qed.

Lemma steps_to_trans (st st1 st2 : State) (evs1 evs2 : list Event) :
  steps_to st evs1 st1 → steps_to st1 evs2 st2 → steps_to st (evs1 ++ evs2) st2.
Proof.
  intros [] []. split; try congruence; try tauto.
  - rewrite app_assoc. congruence.
  - rewrite converted_paths_app, app_assoc. congruence.
Qed.

Section Run.

Context {os_path : OsPath}.
Variable engine : nat → option Exn.
Variable chmod : string → option Exn.
Variable cancel_click : option nat.
Variable replace_existing : bool.

Abbreviation gui_thread := (gui_thread cancel_click).
Abbreviation op := (op cancel_click).
Abbreviation is_cancelled := (is_cancelled cancel_click).
Abbreviation engine_call := (engine_call engine cancel_click).

Lemma gui_thread_fields (st : State) :
  trace (gui_thread st) = trace st
  ∧ files (gui_thread st) = files st
  ∧ output_dir (gui_thread st) = output_dir st
  ∧ retries (gui_thread st) = retries st
  ∧ saved_pdf_paths (gui_thread st) = saved_pdf_paths st
  ∧ calls (gui_thread st) = calls st
  ∧ listing (gui_thread st) = listing st.
Proof. unfold gui_thread. repeat case_match; done. Qed.

Lemma gui_thread_cancelled (st : State) :
  cancelled (gui_thread st)
  = cancelled st || pressed cancel_click (length (trace st)).
Proof.
  unfold gui_thread, pressed. destruct cancel_click as [n|].
  - case_bool_decide; simpl; by rewrite ?orb_true_r, ?orb_false_r.
  - by rewrite orb_false_r.
Qed.

(** One operation that touches nothing but the trace. *)
Lemma step_to (st : State) (ev : Event) :
  converted_paths [ev] = [] →
  steps_to st [ev] (record ev (gui_thread st)).
Proof.
  intros Hev. destruct (gui_thread_fields st) as (Ht&Hf&Ho&Hr&Hs&Hc&Hl).
  split; unfold record, set_trace;
    cbn [trace files output_dir retries cancelled saved_pdf_paths];
    try congruence.
  - intros Hset. rewrite gui_thread_cancelled, Hset. done.
  - rewrite Hev, app_nil_r. done.
Qed.

Lemma op_spec (ev : Event) (st : State) :
  converted_paths [ev] = [] →
  ∃ st', op ev st = Returned tt st' ∧ steps_to st [ev] st'
         ∧ calls st' = calls st ∧ listing st' = listing st.
Proof.
  intros Hev. eexists; split; [done|]. split; [by apply step_to|].
  destruct (gui_thread_fields st) as (Ht&Hf&Ho&Hr&Hs&Hc&Hl). done.
Qed.

Lemma is_cancelled_spec (st : State) :
  ∃ st', is_cancelled st = Returned (cancelled st') st'
         ∧ steps_to st [IsCancelled (cancelled st')] st'
         ∧ calls st' = calls st ∧ listing st' = listing st.
Proof.
  exists (record (IsCancelled (cancelled (gui_thread st))) (gui_thread st)).
  split; [done|]. split; [by apply step_to|].
  destruct (gui_thread_fields st) as (Ht&Hf&Ho&Hr&Hs&Hc&Hl). done.
Qed.

(** A session call that returns is an operation like the others. *)
Lemma session_call_returns (session : SessionCall → option Exn)
    (call : SessionCall) (ev : Event) :
  session call = None → session_call session cancel_click call ev = op ev.
Proof. intros H. unfold session_call. by rewrite H. Qed.

Lemma session_call_ok (call : SessionCall) (ev : Event) :
  session_call session_ok cancel_click call ev = op ev.
Proof. by apply session_call_returns. Qed.

(** A session call that raises ends the computation with its exception. *)
Lemma session_call_raises (session : SessionCall → option Exn)
    (call : SessionCall) (ev : Event) (e : Exn) (st : State) :
  session call = Some e →
  ∃ st', session_call session cancel_click call ev st = Raised e st'
         ∧ steps_to st [SessionError call e] st'.
Proof.
  intros H. eexists. unfold session_call. rewrite H. split; [done|].
  by apply step_to.
Qed.

(** *** Running a sequence *)

Lemma bind_returned {A B} (m : M A) (k : A → M B) (st st1 : State) (a : A) :
  m st = Returned a st1 → (m ≫= k) st = k a st1.
Proof. intros H. unfold mbind, worker_bind, bind. by rewrite H. Qed.

Lemma bind_raised {A B} (m : M A) (k : A → M B) (st st1 : State) (e : Exn) :
  m st = Raised e st1 → (m ≫= k) st = Raised e st1.
Proof. intros H. unfold mbind, worker_bind, bind. by rewrite H. Qed.

Lemma try_returned {A} (m : M A) (h : Exn → M A) (st st1 : State) (a : A) :
  m st = Returned a st1 → try_except m h st = Returned a st1.
Proof. intros H. unfold try_except. by rewrite H. Qed.

Lemma try_raised {A} (m : M A) (h : Exn → M A) (st st1 : State) (e : Exn) :
  m st = Raised e st1 → try_except m h st = h e st1.
Proof. intros H. unfold try_except. by rewrite H. Qed.

Lemma gets_spec {A} (f : State → A) (st : State) :
  gets f st = Returned (f st) st.
Proof. done. Qed.

Lemma mret_spec {A} (a : A) (st : State) : (mret a : M A) st = Returned a st.
Proof. done. Qed.

(** Use the equation [H : m st = ...] of the first computation of a
    sequence. *)
Ltac run H :=
  first [ rewrite (bind_returned _ _ _ _ _ H)
        | rewrite (bind_raised _ _ _ _ _ H)
        | rewrite (try_returned _ _ _ _ _ H)
        | rewrite (try_raised _ _ _ _ _ H) ].

Ltac run_gets :=
  match goal with
  | |- context [ (gets ?f ≫= _) ?st ] =>
      rewrite (bind_returned (gets f) _ st st (f st) (gets_spec f st))
  end.

Lemma engine_call_spec (ev : option Exn → Event) (st : State) :
  (∀ r, converted_paths [ev r] = []) →
  ∃ st', steps_to st [ev (engine (calls st))] st'
         ∧ calls st' = S (calls st)
         ∧ listing st' = listing st
         ∧ engine_call ev st =
             match engine (calls st) with
             | None => Returned tt st'
             | Some e => Raised e st'
             end.
Proof.
  intros Hev. unfold engine_call.
  destruct (gui_thread_fields st) as (Ht&Hf&Ho&Hr&Hs&Hc&Hl).
  exists (set_calls (S (calls (gui_thread st)))
            (record (ev (engine (calls (gui_thread st)))) (gui_thread st))).
  rewrite Hc. split; [|split; [done|split; [done|]]].
  - pose proof (step_to st (ev (engine (calls st))) (Hev _)) as [].
    split; done.
  - done.
Qed.

Lemma export_spec (pdf_path : string) (st : State) :
  ∃ st', steps_to st [ExportAsFixedFormat pdf_path (engine (calls st))] st'
         ∧ calls st' = S (calls st)
         ∧ export engine cancel_click pdf_path st =
             match engine (calls st) with
             | None => Returned tt st'
             | Some e => Raised e st'
             end.
Proof.
  destruct (engine_call_spec (ExportAsFixedFormat pdf_path) st (λ _, eq_refl))
    as (st1 & S1 & C1 & _ & E1).
  unfold export. destruct (engine (calls st)) as [e|].
  - exists st1. by run E1.
  - exists (set_listing ({[basename pdf_path]} ∪ listing st1) st1).
    run E1. split; [|done]. destruct S1. by split.
Qed.

(** The body of the [try] and its handler. *)
Lemma attempt_conversion_spec (attempt : Z) (file file_name pdf_path : string)
    (st : State) :
  (∃ st', attempt_conversion engine cancel_click attempt file file_name pdf_path st
          = Returned true st'
          ∧ engine (calls st) = None
          ∧ steps_to st
              [ProgressUpdate (LogAttempting attempt (retries st) file_name);
               WorkbooksOpen file None; ExportAsFixedFormat pdf_path None;
               WorkbookClose None;
               ProgressUpdate (LogConverted file_name pdf_path)] st')
  ∨ (∃ e engine_calls st',
       attempt_conversion engine cancel_click attempt file file_name pdf_path st
       = Returned false st'
       ∧ failed_calls file pdf_path e engine_calls
       ∧ steps_to st
           ([ProgressUpdate (LogAttempting attempt (retries st) file_name)]
            ++ engine_calls
            ++ [LoggingError ("Attempt " +:+ pretty attempt
                                +:+ ": Failed to convert " +:+ file_name
                                +:+ " - " +:+ e);
                ProgressUpdate (LogAttemptError attempt file_name e);
                Sleep 1]) st').
Proof.
  unfold attempt_conversion.
  (* what the handler does from the state where the exception arrived *)
  assert (∀ e st1, ∃ st',
            (op (LoggingError ("Attempt " +:+ pretty attempt
                                 +:+ ": Failed to convert " +:+ file_name
                                 +:+ " - " +:+ e)) ;;
             progress_update cancel_click (LogAttemptError attempt file_name e) ;;
             op (Sleep 1) ;; mret false) st1 = Returned false st'
            ∧ steps_to st1
                [LoggingError ("Attempt " +:+ pretty attempt
                                 +:+ ": Failed to convert " +:+ file_name
                                 +:+ " - " +:+ e);
                 ProgressUpdate (LogAttemptError attempt file_name e);
                 Sleep 1] st') as Hhandler.
  { intros e st1.
    destruct (op_spec (LoggingError ("Attempt " +:+ pretty attempt
                                 +:+ ": Failed to convert " +:+ file_name
                                 +:+ " - " +:+ e)) st1 eq_refl)
      as (st2 & E2 & S2 & _).
    destruct (op_spec (ProgressUpdate (LogAttemptError attempt file_name e))
                st2 eq_refl) as (st3 & E3 & S3 & _).
    destruct (op_spec (Sleep 1) st3 eq_refl) as (st4 & E4 & S4 & _).
    exists st4. run E2. unfold progress_update. run E3. run E4.
    split; [done|].
    apply (steps_to_trans _ _ _ [_] [_; _] S2).
    apply (steps_to_trans _ _ _ [_] [_] S3 S4). }
  destruct (op_spec (ProgressUpdate (LogAttempting attempt (retries st) file_name))
              st eq_refl) as (st1 & E1 & S1 & C1 & _).
  destruct (engine_call_spec (WorkbooksOpen file) st1 (λ _, eq_refl))
    as (st2 & S2 & C2 & _ & E2).
  rewrite C1 in *.
  destruct (engine (calls st)) as [e|] eqn:Hopen.
  { (* [Workbooks.Open] raised *)
    right. destruct (Hhandler e st2) as (st' & E' & S').
    exists e, [WorkbooksOpen file (Some e)], st'. split; [|split].
    - erewrite try_raised; [exact E'|].
      run_gets. unfold progress_update. run E1. by run E2.
    - constructor.
    - apply (steps_to_trans _ _ _ [_] _ S1).
      apply (steps_to_trans _ _ _ [_] _ S2 S'). }
  destruct (export_spec pdf_path st2) as (st3 & S3 & C3 & E3).
  destruct (engine (calls st2)) as [e|] eqn:Hexport.
  { (* [ExportAsFixedFormat] raised *)
    right. destruct (Hhandler e st3) as (st' & E' & S').
    exists e, [WorkbooksOpen file None; ExportAsFixedFormat pdf_path (Some e)], st'.
    split; [|split].
    - erewrite try_raised; [exact E'|].
      run_gets. unfold progress_update. run E1. run E2. by run E3.
    - constructor.
    - apply (steps_to_trans _ _ _ [_] _ S1).
      apply (steps_to_trans _ _ _ [_] _ S2).
      apply (steps_to_trans _ _ _ [_] _ S3 S'). }
  destruct (engine_call_spec WorkbookClose st3 (λ _, eq_refl))
    as (st4 & S4 & C4 & _ & E4).
  destruct (engine (calls st3)) as [e|] eqn:Hclose.
  { (* [Close] raised *)
    right. destruct (Hhandler e st4) as (st' & E' & S').
    exists e, [WorkbooksOpen file None; ExportAsFixedFormat pdf_path None;
               WorkbookClose (Some e)], st'.
    split; [|split].
    - erewrite try_raised; [exact E'|].
      run_gets. unfold progress_update. run E1. run E2. run E3. by run E4.
    - constructor.
    - apply (steps_to_trans _ _ _ [_] _ S1).
      apply (steps_to_trans _ _ _ [_] _ S2).
      apply (steps_to_trans _ _ _ [_] _ S3).
      apply (steps_to_trans _ _ _ [_] _ S4 S'). }
  (* the conversion went through *)
  left.
  set (ev := ProgressUpdate (LogConverted file_name pdf_path)).
  set (st5 := record ev (gui_thread st4)).
  set (st6 := set_saved_pdf_paths (saved_pdf_paths st5 ++ [pdf_path]) st5).
  assert (steps_to st4 [ev] st6) as S6.
  { destruct (gui_thread_fields st4) as (Ht&Hf&Ho&Hr&Hs&Hc&Hl).
    split; unfold st6, st5, record, set_trace, set_saved_pdf_paths;
      cbn [trace files output_dir retries cancelled saved_pdf_paths];
      try congruence.
    - intros Hset. rewrite gui_thread_cancelled, Hset. done.
    - rewrite Hs. done. }
  exists st6. split; [|split; [done|]].
  - erewrite try_returned; [done|].
    run_gets. unfold progress_update. run E1. run E2. run E3. run E4.
    rewrite (bind_returned (op ev) _ st4 st5 tt eq_refl).
    rewrite (bind_returned
               (modify (λ st0, set_saved_pdf_paths
                                 (saved_pdf_paths st0 ++ [pdf_path]) st0))
               _ st5 st6 tt eq_refl).
    done.
  - apply (steps_to_trans _ _ _ [_] _ S1).
    apply (steps_to_trans _ _ _ [_] _ S2).
    apply (steps_to_trans _ _ _ [_] _ S3).
    apply (steps_to_trans _ _ _ [_] _ S4 S6).
Qed.

Lemma retry_events_converted (rs : Z) (file file_name pdf_path : string)
    (attempts : list Z) (r : RetryEnd) (evs : list Event) :
  retry_events rs file file_name pdf_path attempts r evs →
  converted_paths evs = if success_of r then [pdf_path] else [].
Proof.
  induction 1 as [| | |attempt rest e calls r evs Hcalls _ IH]; try done.
  unfold failed_attempt. rewrite !converted_paths_app, IH.
  by destruct Hcalls.
Qed.

(** The retry loop. *)
Lemma retry_loop_spec (file file_name pdf_path : string) (attempts : list Z)
    (st : State) :
  ∃ r st' evs,
    retry_loop engine cancel_click attempts file file_name pdf_path st
    = Returned (success_of r) st'
    ∧ steps_to st evs st'
    ∧ retry_events (retries st) file file_name pdf_path attempts r evs
    ∧ (r = Broke → cancelled st' = true)
    ∧ (r = Succeeded → ∃ k, engine k = None).
Proof.
  revert st. induction attempts as [|attempt rest IH]; intros st.
  - exists Exhausted, st, []. split_and!; try done.
    + apply steps_to_refl.
    + constructor.
  - cbn [retry_loop].
    destruct (is_cancelled_spec st) as (st1 & E1 & S1 & _).
    run E1. destruct (cancelled st1) eqn:Hc.
    { exists Broke, st1, [IsCancelled true]. split_and!; try done.
      constructor. }
    destruct (attempt_conversion_spec attempt file file_name pdf_path st1)
      as [(st2 & E2 & Hok & S2) | (e & calls & st2 & E2 & Hcalls & S2)];
      rewrite (steps_retries _ _ _ S1) in S2.
    + run E2.
      exists Succeeded, st2, (good_attempt (retries st) file file_name pdf_path attempt).
      split_and!; try done.
      * apply (steps_to_trans _ _ _ [_] _ S1 S2).
      * constructor.
      * eauto.
    + run E2. destruct (IH st2) as (r & st3 & evs & E3 & S3 & G3 & Hb & Hs).
      rewrite E3.
      assert (retries st2 = retries st) as Hrs.
      { rewrite (steps_retries _ _ _ S2). apply S1. }
      rewrite Hrs in G3.
      exists r, st3, (failed_attempt (retries st) file_name attempt e calls ++ evs).
      split_and!; try done.
      * apply (steps_to_trans _ _ _ _ _ (steps_to_trans _ _ _ [_] _ S1 S2) S3).
      * by constructor.
Qed.

Lemma reset_permissions_spec (file : string) (st : State) :
  ∃ st', reset_permissions chmod cancel_click file st = Returned tt st'
         ∧ steps_to st (chmod_events file (chmod file)) st'.
Proof.
  unfold reset_permissions, chmod_events.
  destruct (op_spec (Chmod file (chmod file)) st eq_refl) as (st1 & E1 & S1 & _).
  run E1. destruct (chmod file) as [e|].
  - destruct (op_spec (LoggingError ("Failed to reset permissions for "
                +:+ file +:+ " - " +:+ e)) st1 eq_refl) as (st2 & E2 & S2 & _).
    exists st2. split; [done|]. apply (steps_to_trans _ _ _ [_] [_] S1 S2).
  - by exists st1.
Qed.

(** Lines 80-81. *)
Lemma report_spec (file_name : string) (r : RetryEnd) (st : State) :
  ∃ c st',
    (if success_of r then mret ()
     else c ← is_cancelled;
          if c : bool then mret ()
          else progress_update cancel_click (LogFailed file_name (retries st))) st
    = Returned tt st'
    ∧ steps_to st (report_events (retries st) file_name r c) st'
    ∧ (cancelled st = true → r ≠ Succeeded → c = true)
    ∧ (r ≠ Succeeded → c = true → cancelled st' = true).
Proof.
  assert (∃ c st',
    (c ← is_cancelled;
     if c : bool then mret ()
     else progress_update cancel_click (LogFailed file_name (retries st))) st
    = Returned tt st'
    ∧ steps_to st (IsCancelled c ::
         if c then [] else [ProgressUpdate (LogFailed file_name (retries st))]) st'
    ∧ (cancelled st = true → c = true)
    ∧ (c = true → cancelled st' = true)) as (c & st' & E & S & H1 & H2).
  { destruct (is_cancelled_spec st) as (st1 & E1 & S1 & _).
    exists (cancelled st1). destruct (cancelled st1) eqn:Hc.
    - exists st1. run E1. split_and!; try done.
    - destruct (op_spec (ProgressUpdate (LogFailed file_name (retries st)))
                  st1 eq_refl) as (st2 & E2 & S2 & _).
      exists st2. run E1. unfold progress_update. split_and!; try done.
      + apply (steps_to_trans _ _ _ [_] [_] S1 S2).
      + intros Hset. rewrite (steps_cancelled _ _ _ S1 Hset) in Hc. done. }
  destruct r.
  - exists c, st'. split_and!; auto.
  - exists c, st'. split_and!; auto.
  - exists false, st. split_and!; try done. apply steps_to_refl.
Qed.

(** One file. *)
Lemma process_file_spec (file : string) (total processed : Z) (st : State) :
  total ≠ 0 →
  ∃ processed' st' evs,
    process_file engine chmod cancel_click file total processed st
    = Returned processed' st'
    ∧ steps_to st evs st'
    ∧ file_events (output_dir st) (retries st) total file processed processed' evs
    ∧ ((∀ k, engine k ≠ None) → converted_paths evs = []).
Proof.
  intros Htotal. unfold process_file.
  run_gets.
  destruct (reset_permissions_spec file st) as (st1 & E1 & S1). run E1.
  run_gets. rewrite (steps_retries _ _ _ S1).
  destruct (retry_loop_spec file (basename file) (pdf_path_of (output_dir st) file)
              (range 1 (retries st + 1)) st1)
    as (r & st2 & revs & E2 & S2 & G2 & Hbroke & Hok).
  rewrite (steps_retries _ _ _ S1) in G2. run E2.
  destruct (report_spec (basename file) r st2) as (c1 & st3 & E3 & S3 & Hc1 & Hc1').
  assert (retries st2 = retries st) as Hrs.
  { rewrite (steps_retries _ _ _ S2). apply S1. }
  rewrite Hrs in E3, S3. run E3.
  destruct (is_cancelled_spec st3) as (st4 & E4 & S4 & _). run E4.
  destruct (progress_percent_defined (processed + 1) total Htotal) as [percent Hpct].
  assert (file_events (output_dir st) (retries st) total file processed
            (if cancelled st4 then processed else processed + 1)
            (chmod_events file (chmod file) ++ revs
               ++ report_events (retries st) (basename file) r c1
               ++ count_events (cancelled st4) percent)) as G.
  { apply file_events_intro; try done.
    - intros ->. apply Hc1; [by apply Hbroke | done].
    - intros Hr Hset. apply (steps_cancelled _ _ _ S4). by apply Hc1'. }
  assert (∀ evs4 st5,
            steps_to st4 evs4 st5 →
            count_events (cancelled st4) percent = IsCancelled (cancelled st4) :: evs4 →
            steps_to st (chmod_events file (chmod file) ++ revs
               ++ report_events (retries st) (basename file) r c1
               ++ count_events (cancelled st4) percent) st5) as Hsteps.
  { intros evs4 st5 S5 ->.
    apply (steps_to_trans _ _ _ _ _ S1).
    apply (steps_to_trans _ _ _ _ _ S2).
    apply (steps_to_trans _ _ _ _ _ S3).
    apply (steps_to_trans _ _ _ [_] _ S4 S5). }
  assert ((∀ k, engine k ≠ None) →
          converted_paths (chmod_events file (chmod file) ++ revs
               ++ report_events (retries st) (basename file) r c1
               ++ count_events (cancelled st4) percent) = []) as Hnone.
  { intros Hfail. rewrite !converted_paths_app.
    rewrite (retry_events_converted _ _ _ _ _ _ _ G2).
    assert (success_of r = false) as ->.
    { destruct r; try done. destruct (Hok eq_refl) as [k Hk]. by destruct (Hfail k). }
    unfold chmod_events, report_events, count_events.
    by repeat case_match. }
  destruct (cancelled st4) eqn:Hc2.
  - exists processed, st4. eexists. split; [done|].
    split; [|split; [exact G | exact Hnone]].
    eapply Hsteps; [apply steps_to_refl | done].
  - rewrite Hpct.
    destruct (op_spec (Progress percent) st4 eq_refl) as (st5 & E5 & S5 & _).
    run E5. exists (processed + 1), st5. eexists. split; [done|].
    split; [|split; [exact G | exact Hnone]].
    eapply Hsteps; [exact S5 | done].
Qed.

(** The loop over the files. *)
Lemma files_loop_spec (fs : list string) (total processed : Z) (st : State) :
  fs = [] ∨ total ≠ 0 →
  ∃ processed' st' evs,
    files_loop engine chmod cancel_click fs total processed st
    = Returned processed' st'
    ∧ steps_to st evs st'
    ∧ loop_events (output_dir st) (retries st) total fs processed processed' evs
    ∧ ((∀ k, engine k ≠ None) → converted_paths evs = []).
Proof.
  revert processed st. induction fs as [|file rest IH]; intros processed st Htotal.
  - exists processed, st, []. split_and!; try done.
    + apply steps_to_refl.
    + constructor.
  - destruct Htotal as [?|Htotal]; [done|]. cbn [files_loop].
    destruct (is_cancelled_spec st) as (st1 & E1 & S1 & _). run E1.
    destruct (cancelled st1) eqn:Hc.
    + destruct (op_spec (ProgressUpdate LogCancelledByUser) st1 eq_refl)
        as (st2 & E2 & S2 & _).
      unfold progress_update. run E2.
      exists processed, st2, [IsCancelled true; ProgressUpdate LogCancelledByUser].
      split_and!; try done.
      * apply (steps_to_trans _ _ _ [_] [_] S1 S2).
      * constructor.
    + destruct (process_file_spec file total processed st1 Htotal)
        as (p1 & st2 & fevs & E2 & S2 & G2 & N2).
      run E2.
      destruct (IH p1 st2 (or_intror Htotal))
        as (p' & st3 & evs & E3 & S3 & G3 & N3).
      rewrite (steps_output_dir _ _ _ S1), (steps_retries _ _ _ S1) in G2.
      rewrite (steps_output_dir _ _ _ S2), (steps_retries _ _ _ S2),
        (steps_output_dir _ _ _ S1), (steps_retries _ _ _ S1) in G3.
      exists p', st3, (IsCancelled false :: fevs ++ evs).
      split_and!; try done.
      * apply (steps_to_trans _ _ _ [_] _ S1).
        apply (steps_to_trans _ _ _ _ _ S2 S3).
      * by econstructor.
      * intros Hfail. change (IsCancelled false :: fevs ++ evs)
          with ([IsCancelled false] ++ fevs ++ evs).
        rewrite !converted_paths_app, N2, N3 by done. done.
Qed.

(** *** Finalization *)

Lemma path_exists_spec (path : string) (st : State) :
  ∃ st', path_exists cancel_click path st
         = Returned (bool_decide (basename path ∈ listing st)) st'
         ∧ steps_to st [PathExists path (bool_decide (basename path ∈ listing st))] st'
         ∧ listing st' = listing st.
Proof.
  destruct (gui_thread_fields st) as (Ht&Hf&Ho&Hr&Hs&Hc&Hl).
  unfold path_exists. cbv zeta. rewrite Hl.
  eexists. split; [done|]. split; [by apply step_to|]. done.
Qed.

Lemma os_rename_spec (src dst : string) (st : State) :
  match rename_in replace_existing (listing st) (basename src) (basename dst) with
  | inr dir =>
      ∃ st', os_rename cancel_click replace_existing src dst st = Returned tt st'
             ∧ steps_to st [Rename src dst None] st'
             ∧ listing st' = dir
  | inl e =>
      ∃ st', os_rename cancel_click replace_existing src dst st = Raised e st'
             ∧ steps_to st [Rename src dst (Some e)] st'
             ∧ listing st' = listing st
  end.
Proof.
  destruct (gui_thread_fields st) as (Ht&Hf&Ho&Hr&Hs&Hc&Hl).
  unfold os_rename. cbv zeta. rewrite Hl.
  destruct (rename_in _ _ _ _) as [e|dir].
  - eexists. split; [done|]. split; [by apply step_to|]. done.
  - eexists. split; [done|]. split; [|done].
    destruct (step_to st (Rename src dst None) eq_refl). by split.
Qed.

(** One path of the finalization. *)
Lemma finalize_one_spec (pdf_path : string) (st : State) :
  ∃ st' evs,
    finalize_one cancel_click replace_existing pdf_path st = Returned tt st'
    ∧ steps_to st evs st'
    ∧ finalize_one_events (output_dir st) pdf_path evs
    ∧ listing st' = finalize_dir replace_existing (output_dir st) pdf_path (listing st)
    ∧ finalize_one_outcome replace_existing (output_dir st) pdf_path
        (listing st) evs (listing st').
Proof.
  unfold finalize_one, finalize_dir. run_gets.
  set (new := path_join (output_dir st) (PyStr.replace (basename pdf_path) "%20" " ")).
  case_bool_decide as Hne; cbn [andb].
  2: { exists st, []. 
       assert (pdf_path = new) by (by destruct (decide (pdf_path = new))).
       split_and!; try done.
       - apply steps_to_refl.
       - by apply finalize_same.
       - by apply outcome_same. }
  destruct (path_exists_spec pdf_path st) as (st1 & E1 & S1 & L1).
  case_bool_decide as Hex.
  - pose proof (os_rename_spec pdf_path new st1) as Hren. rewrite L1 in Hren.
    destruct (rename_in _ _ _ _) as [e|dir'] eqn:Hrename.
    + destruct Hren as (st2 & E2 & S2 & L2).
      destruct (op_spec (ProgressUpdate (LogRenameFailed (basename pdf_path) e))
                  st2 eq_refl) as (st3 & E3 & S3 & _ & L3).
      exists st3. eexists. split_and!.
      * erewrite try_raised; [exact E3|]. run E1. by run E2.
      * eapply steps_to_trans; [exact S1|].
        eapply steps_to_trans; [exact S2 | exact S3].
      * by apply finalize_failed.
      * congruence.
      * rewrite L3, L2. by apply outcome_failed.
    + destruct Hren as (st2 & E2 & S2 & L2).
      destruct (op_spec (ProgressUpdate (LogRenamed (basename pdf_path)
                  (PyStr.replace (basename pdf_path) "%20" " "))) st2 eq_refl)
        as (st3 & E3 & S3 & _ & L3).
      exists st3. eexists. split_and!.
      * rewrite (try_returned _ _ st st3 tt); [done|]. run E1. run E2. exact E3.
      * eapply steps_to_trans; [exact S1|].
        eapply steps_to_trans; [exact S2 | exact S3].
      * by apply finalize_renamed.
      * congruence.
      * rewrite L3, L2. by apply outcome_renamed.
  - destruct (op_spec (ProgressUpdate (LogNotFound (basename pdf_path))) st1 eq_refl)
      as (st2 & E2 & S2 & _ & L2).
    exists st2. eexists. split_and!.
    + rewrite (try_returned _ _ st st2 tt); [done|]. run E1. exact E2.
    + eapply steps_to_trans; [exact S1 | exact S2].
    + by apply finalize_missing.
    + congruence.
    + rewrite L2, L1. by apply outcome_missing.
Qed.

Lemma finalize_loop_spec (paths : list string) (st : State) :
  ∃ st' evs,
    finalize_loop cancel_click replace_existing paths st = Returned tt st'
    ∧ steps_to st evs st'
    ∧ finalize_events (output_dir st) paths evs
    ∧ listing st'
      = foldl (λ dir p, finalize_dir replace_existing (output_dir st) p dir)
              (listing st) paths.
Proof.
  revert st. induction paths as [|pdf_path rest IH]; intros st.
  - exists st, []. split_and!; try done; [apply steps_to_refl | constructor].
  - cbn [finalize_loop foldl].
    destruct (finalize_one_spec pdf_path st) as (st1 & evs1 & E1 & S1 & G1 & L1 & _).
    run E1. destruct (IH st1) as (st2 & evs & E2 & S2 & G2 & L2).
    rewrite (steps_output_dir _ _ _ S1) in G2, L2.
    exists st2, (evs1 ++ evs). split_and!; try done.
    + apply (steps_to_trans _ _ _ _ _ S1 S2).
    + by constructor.
    + by rewrite L2, L1.
Qed.

Lemma finalize_loop_outcomes (paths : list string) (st : State) :
  ∃ st' evs,
    finalize_loop cancel_click replace_existing paths st = Returned tt st'
    ∧ steps_to st evs st'
    ∧ finalize_outcomes replace_existing (output_dir st) paths
        (listing st) evs (listing st').
Proof.
  revert st. induction paths as [|pdf_path rest IH]; intros st.
  - exists st, []. split_and!; try done; [apply steps_to_refl | constructor].
  - cbn [finalize_loop].
    destruct (finalize_one_spec pdf_path st) as (st1 & evs1 & E1 & S1 & _ & _ & O1).
    run E1. destruct (IH st1) as (st2 & evs & E2 & S2 & O2).
    rewrite (steps_output_dir _ _ _ S1) in O2.
    exists st2, (evs1 ++ evs). split_and!; try done.
    + apply (steps_to_trans _ _ _ _ _ S1 S2).
    + by econstructor.
Qed.

Lemma finalize_filenames_outcomes (st : State) :
  ∃ st' evs,
    finalize_filenames cancel_click replace_existing st = Returned tt st'
    ∧ trace st' = trace st ++ FinalizeFilenames (saved_pdf_paths st) :: evs
    ∧ finalize_outcomes replace_existing (output_dir st) (saved_pdf_paths st)
        (listing st) evs (listing st').
Proof.
  unfold finalize_filenames. run_gets.
  destruct (op_spec (FinalizeFilenames (saved_pdf_paths st)) st eq_refl)
    as (st1 & E1 & S1 & _ & L1).
  run E1.
  destruct (finalize_loop_outcomes (saved_pdf_paths st) st1)
    as (st2 & evs & E2 & S2 & O2).
  rewrite (steps_output_dir _ _ _ S1), L1 in O2.
  exists st2, evs. split_and!; try done.
  rewrite (steps_trace _ _ _ S2), (steps_trace _ _ _ S1).
  by rewrite <- app_assoc.
Qed.

Lemma finalize_events_converted (out : string) (paths : list string)
    (evs : list Event) :
  finalize_events out paths evs → converted_paths evs = [].
Proof.
  induction 1 as [|p rest evs1 evs H1 _ IH]; [done|].
  rewrite converted_paths_app, IH. by destruct H1.
Qed.

Lemma finalize_filenames_spec (st : State) :
  ∃ st' evs,
    finalize_filenames cancel_click replace_existing st = Returned tt st'
    ∧ steps_to st (FinalizeFilenames (saved_pdf_paths st) :: evs) st'
    ∧ finalize_events (output_dir st) (saved_pdf_paths st) evs
    ∧ listing st'
      = foldl (λ dir p, finalize_dir replace_existing (output_dir st) p dir)
              (listing st) (saved_pdf_paths st).
Proof.
  unfold finalize_filenames. run_gets.
  destruct (op_spec (FinalizeFilenames (saved_pdf_paths st)) st eq_refl)
    as (st1 & E1 & S1 & _ & L1).
  run E1.
  destruct (finalize_loop_spec (saved_pdf_paths st) st1)
    as (st2 & evs & E2 & S2 & G2 & L2).
  rewrite (steps_output_dir _ _ _ S1) in G2, L2. rewrite L1 in L2.
  exists st2, evs. split_and!; try done.
  apply (steps_to_trans _ _ _ [_] _ S1 S2).
Qed.

(** *** The whole job *)

(** [convert_files] returns, and its trace is a job trace. *)
Lemma convert_files_spec (st : State) :
  ∃ st' processed c levs fevs,
    convert_files session_ok engine chmod cancel_click replace_existing st = Returned tt st'
    ∧ steps_to st (job_events (saved_pdf_paths st') c levs fevs) st'
    ∧ loop_events (output_dir st) (retries st) (Z.of_nat (length (files st)))
                  (files st) 0 processed levs
    ∧ finalize_events (output_dir st) (saved_pdf_paths st') fevs
    ∧ saved_pdf_paths st' = saved_pdf_paths st ++ converted_paths levs
    ∧ ((∀ k, engine k ≠ None) → converted_paths levs = []).
Proof.
  unfold convert_files. rewrite !session_call_ok.
  destruct (op_spec CoInitialize st eq_refl) as (st1 & E1 & S1 & _). run E1.
  destruct (op_spec Dispatch st1 eq_refl) as (st2 & E2 & S2 & _). run E2.
  destruct (op_spec (SetVisible false) st2 eq_refl) as (st3 & E3 & S3 & _). run E3.
  pose proof (steps_to_trans _ _ _ [_] _ S1 (steps_to_trans _ _ _ [_] [_] S2 S3))
    as S03.
  run_gets. rewrite (steps_files _ _ _ S03).
  destruct (files_loop_spec (files st) (Z.of_nat (length (files st))) 0 st3)
    as (processed & st4 & levs & E4 & S4 & G4 & N4).
  { destruct (files st); [by left | right; simpl; lia]. }
  rewrite (steps_output_dir _ _ _ S03), (steps_retries _ _ _ S03) in G4.
  run E4.
  destruct (op_spec Quit st4 eq_refl) as (st5 & E5 & S5 & _). run E5.
  destruct (op_spec CoUninitialize st5 eq_refl) as (st6 & E6 & S6 & _). run E6.
  destruct (finalize_filenames_spec st6) as (st7 & fevs & E7 & S7 & G7 & _). run E7.
  destruct (is_cancelled_spec st7) as (st8 & E8 & S8 & _). run E8.
  destruct (op_spec (ConversionComplete (terminal_message (cancelled st8))) st8 eq_refl)
    as (st9 & E9 & S9 & _).
  pose proof (steps_to_trans _ _ _ _ _ S03 S4) as S04.
  pose proof (steps_to_trans _ _ _ _ _ S04
                (steps_to_trans _ _ _ [_] [_] S5 S6)) as S06.
  assert (saved_pdf_paths st6 = saved_pdf_paths st ++ converted_paths levs) as Hsaved.
  { rewrite (steps_saved _ _ _ S06), !converted_paths_app. simpl.
    by rewrite app_nil_r. }
  pose proof (steps_to_trans _ _ _ _ _ S7
                (steps_to_trans _ _ _ [_] [_] S8 S9)) as S69.
  assert (saved_pdf_paths st9 = saved_pdf_paths st6) as Hsaved9.
  { rewrite (steps_saved _ _ _ S69).
    change (FinalizeFilenames (saved_pdf_paths st6) :: fevs)
      with ([FinalizeFilenames (saved_pdf_paths st6)] ++ fevs).
    rewrite !converted_paths_app, (finalize_events_converted _ _ _ G7). simpl.
    by rewrite app_nil_r. }
  rewrite (steps_output_dir _ _ _ S06) in G7.
  exists st9, processed, (cancelled st8), levs, fevs.
  split_and!; try done.
  - pose proof (steps_to_trans _ _ _ _ _ S06 S69) as S09.
    rewrite Hsaved9. unfold job_events.
    replace ([CoInitialize; Dispatch; SetVisible false] ++ levs
             ++ [Quit; CoUninitialize; FinalizeFilenames (saved_pdf_paths st6)]
             ++ fevs
             ++ [IsCancelled (cancelled st8);
                 ConversionComplete (terminal_message (cancelled st8))])
      with ((((([CoInitialize] ++ [Dispatch] ++ [SetVisible false]) ++ levs)
             ++ [Quit] ++ [CoUninitialize])
             ++ (FinalizeFilenames (saved_pdf_paths st6) :: fevs)
             ++ [IsCancelled (cancelled st8)]
             ++ [ConversionComplete (terminal_message (cancelled st8))])).
    + exact S09.
    + simpl. rewrite <- !app_assoc. done.
  - by rewrite Hsaved9.
  - by rewrite Hsaved9.
Qed.

(** *** The flag *)

Lemma pressed_mono (i j : nat) :
  (i ≤ j)%nat → pressed cancel_click i = true → pressed cancel_click j = true.
Proof.
  unfold pressed. destruct cancel_click; [|done].
  intros Hij Hi%bool_decide_eq_true. apply bool_decide_eq_true. lia.
Qed.

Lemma preserves_ret {A} (I : State → Prop) (a : A) : preserves I (mret a : M A).
Proof. by intros st. Qed.

Lemma preserves_gets {A} (I : State → Prop) (f : State → A) : preserves I (gets f).
Proof. by intros st. Qed.

Lemma preserves_raise {A} (I : State → Prop) (e : Exn) :
  preserves I (raise e : M A).
Proof. by intros st. Qed.

Lemma preserves_bind {A B} (I : State → Prop) (m : M A) (k : A → M B) :
  preserves I m → (∀ a, preserves I (k a)) → preserves I (m ≫= k).
Proof.
  intros Hm Hk st Hst. specialize (Hm st Hst).
  unfold mbind, worker_bind, bind. destruct (m st) as [a st'|e st']; [|done].
  by apply Hk.
Qed.

Lemma preserves_try {A} (I : State → Prop) (m : M A) (h : Exn → M A) :
  preserves I m → (∀ e, preserves I (h e)) → preserves I (try_except m h).
Proof.
  intros Hm Hh st Hst. specialize (Hm st Hst).
  unfold try_except. destruct (m st) as [a st'|e st']; [done|].
  by apply Hh.
Qed.

Abbreviation flag_inv := (flag_inv cancel_click).

(** One more operation recorded; a read of the flag records the flag. *)
Lemma flag_inv_record (ev : Event) (st : State) :
  (∀ b, ev = IsCancelled b → b = cancelled (gui_thread st)) →
  flag_inv st → flag_inv (record ev (gui_thread st)).
Proof.
  intros Hev [Hset Hchecks].
  destruct (gui_thread_fields st) as (Ht&Hf&Ho&Hr&Hs&Hc&Hl).
  assert (cancelled (gui_thread st) = pressed cancel_click (length (trace st)))
    as Hflag.
  { rewrite gui_thread_cancelled. destruct (cancelled st); [|done].
    by rewrite Hset. }
  split; unfold record, set_trace; cbn [trace cancelled]; rewrite Ht.
  - rewrite Hflag, length_app. apply pressed_mono. lia.
  - intros i b Hi. apply lookup_app_Some in Hi as [Hi|[Hlen Hi]].
    + by apply Hchecks.
    + apply list_lookup_singleton_Some in Hi as [Hi ->].
      rewrite (Hev b eq_refl), Hflag. f_equal. lia.
Qed.

Lemma flag_inv_fields (st st' : State) :
  trace st' = trace st → cancelled st' = cancelled st →
  flag_inv st → flag_inv st'.
Proof. unfold flag_inv. by intros -> ->. Qed.

Lemma preserves_op (ev : Event) :
  (∀ b, ev ≠ IsCancelled b) → preserves flag_inv (op ev).
Proof.
  intros Hev st Hst. apply flag_inv_record; [|done].
  intros b ->. by destruct (Hev b).
Qed.

Lemma preserves_is_cancelled : preserves flag_inv is_cancelled.
Proof.
  intros st Hst. apply flag_inv_record; [|done]. by intros b [= ->].
Qed.

Lemma preserves_modify (f : State → State) :
  (∀ st, trace (f st) = trace st ∧ cancelled (f st) = cancelled st) →
  preserves flag_inv (modify f).
Proof.
  intros Hf st Hst. destruct (Hf st). by eapply flag_inv_fields.
Qed.

Lemma preserves_engine_call (ev : option Exn → Event) :
  (∀ r b, ev r ≠ IsCancelled b) → preserves flag_inv (engine_call ev).
Proof.
  intros Hev st Hst. unfold engine_call. cbv zeta.
  assert (flag_inv (set_calls (S (calls (gui_thread st)))
            (record (ev (engine (calls (gui_thread st)))) (gui_thread st)))).
  { eapply flag_inv_fields; [| |apply (flag_inv_record (ev (engine (calls (gui_thread st)))) st)];
      try done.
    intros b Hb. by destruct (Hev _ _ Hb). }
  by destruct (engine _).
Qed.

Lemma preserves_path_exists (path : string) :
  preserves flag_inv (path_exists cancel_click path).
Proof. intros st Hst. by apply flag_inv_record. Qed.

Lemma preserves_os_rename (src dst : string) :
  preserves flag_inv (os_rename cancel_click replace_existing src dst).
Proof.
  intros st Hst. unfold os_rename. cbv zeta.
  destruct (rename_in _ _ _ _); cbn [final_state].
  - by apply flag_inv_record.
  - eapply flag_inv_fields; [| |apply (flag_inv_record (Rename src dst None) st)];
      done.
Qed.

(** Walk through a worker computation, one construct at a time. *)
Ltac preserve :=
  repeat first
    [ solve [auto]
    | apply preserves_ret
    | apply preserves_gets
    | apply preserves_raise
    | apply preserves_is_cancelled
    | apply preserves_path_exists
    | apply preserves_os_rename
    | apply preserves_op; done
    | apply preserves_engine_call; done
    | apply preserves_modify; done
    | apply preserves_bind; [|intros ?]
    | apply preserves_try; [|intros ?]
    | progress unfold progress_update, export, reset_permissions
    | case_match ].

Lemma preserves_retry_loop (attempts : list Z) (file file_name pdf_path : string) :
  preserves flag_inv
    (retry_loop engine cancel_click attempts file file_name pdf_path).
Proof.
  induction attempts as [|attempt rest IH]; cbn [retry_loop];
    unfold attempt_conversion; preserve.
Qed.

Lemma preserves_process_file (file : string) (total processed : Z) :
  preserves flag_inv (process_file engine chmod cancel_click file total processed).
Proof.
  unfold process_file. pose proof preserves_retry_loop. preserve.
Qed.

Lemma preserves_files_loop (fs : list string) (total processed : Z) :
  preserves flag_inv (files_loop engine chmod cancel_click fs total processed).
Proof.
  revert processed. induction fs as [|file rest IH]; intros processed;
    cbn [files_loop]; pose proof preserves_process_file; preserve.
Qed.

Lemma preserves_finalize_loop (paths : list string) :
  preserves flag_inv (finalize_loop cancel_click replace_existing paths).
Proof.
  induction paths as [|p rest IH]; cbn [finalize_loop];
    unfold finalize_one; preserve.
Qed.

Lemma preserves_session_call (session : SessionCall → option Exn)
    (call : SessionCall) (ev : Event) :
  (∀ b, ev ≠ IsCancelled b) →
  preserves flag_inv (session_call session cancel_click call ev).
Proof.
  intros Hev st Hinv. unfold session_call.
  destruct (session call) as [e|]; cbn [final_state];
    apply flag_inv_record; try done.
  intros b Heq. by destruct (Hev b).
Qed.

Lemma preserves_convert_files (session : SessionCall → option Exn) :
  preserves flag_inv
    (convert_files session engine chmod cancel_click replace_existing).
Proof.
  unfold convert_files, finalize_filenames.
  pose proof preserves_files_loop. pose proof preserves_finalize_loop.
  pose proof (preserves_session_call session).
  preserve.
Qed.

Lemma flag_inv_new_worker (fs : list string) (out : string) (rs : Z)
    (dir : gset string) :
  flag_inv (new_worker fs out rs dir).
Proof. split; [done|]. by intros i b Hi. Qed.

(** A job started on a fresh worker: it returns, its trace is a job
    trace, and the reads of the flag are faithful. *)
Lemma job_runs (fs : list string) (out : string) (rs : Z) (dir : gset string) :
  ∃ st' processed c levs fevs,
    convert_files session_ok engine chmod cancel_click replace_existing
      (new_worker fs out rs dir) = Returned tt st'
    ∧ trace st' = job_events (converted_paths levs) c levs fevs
    ∧ saved_pdf_paths st' = converted_paths levs
    ∧ loop_events out rs (Z.of_nat (length fs)) fs 0 processed levs
    ∧ finalize_events out (converted_paths levs) fevs
    ∧ checks_ok cancel_click (trace st')
    ∧ ((∀ k, engine k ≠ None) → converted_paths levs = []).
Proof.
  destruct (convert_files_spec (new_worker fs out rs dir))
    as (st' & processed & c & levs & fevs & E & S & G & F & Hsaved & Hnone).
  cbn [new_worker files output_dir retries saved_pdf_paths app] in *.
  pose proof (preserves_convert_files session_ok _
                (flag_inv_new_worker fs out rs dir))
    as [_ Hchecks].
  rewrite E in Hchecks. cbn [final_state] in Hchecks.
  exists st', processed, c, levs, fevs. rewrite <- Hsaved.
  split_and!; try done.
  - by rewrite (steps_trace _ _ _ S).
  - rewrite Hsaved. exact Hnone.
Qed.

End Run.

(** ** What the traces contain *)

Section TraceFacts.

Context {os_path : OsPath}.
Variables (out : string) (rs total : Z).

Lemma count_app (f : Event → bool) (t1 t2 : list Event) :
  count f (t1 ++ t2) = (count f t1 + count f t2)%nat.
Proof. unfold count. by rewrite filter_app, length_app. Qed.

Lemma count_cons (f : Event → bool) (ev : Event) (t : list Event) :
  count f (ev :: t) = ((if f ev then 1 else 0) + count f t)%nat.
Proof.
  unfold count. destruct (f ev) eqn:Hf.
  - by rewrite filter_cons_True.
  - rewrite filter_cons_False; [done | congruence].
Qed.

Lemma count_nil (f : Event → bool) : count f [] = 0%nat.
Proof. done. Qed.

Lemma count_zero (f : Event → bool) (t : list Event) :
  Forall (λ ev, f ev = false) t → count f t = 0%nat.
Proof.
  induction 1 as [|ev t Hev _ IH]; [done|]. by rewrite count_cons, Hev, IH.
Qed.

Lemma failed_calls_job_steps (file pdf_path : string) (e : Exn) (evs : list Event) :
  failed_calls file pdf_path e evs → Forall (λ ev, is_job_step ev = true) evs.
Proof. destruct 1; repeat constructor. Qed.

Lemma retry_events_job_steps (file file_name pdf_path : string)
    (attempts : list Z) (r : RetryEnd) (evs : list Event) :
  retry_events rs file file_name pdf_path attempts r evs →
  Forall (λ ev, is_job_step ev = true) evs.
Proof.
  induction 1 as [| | |attempt rest e calls r evs Hcalls _ IH].
  - constructor.
  - repeat constructor.
  - repeat constructor.
  - unfold failed_attempt. rewrite !Forall_app. split_and!; try done.
    + repeat constructor.
    + by eapply failed_calls_job_steps.
    + repeat constructor.
Qed.

Lemma file_events_job_steps (file : string) (p p' : Z) (evs : list Event) :
  file_events out rs total file p p' evs →
  Forall (λ ev, is_job_step ev = true) evs.
Proof.
  destruct 1 as [chm r revs c1 c2 percent Hretry _ _ _].
  rewrite !Forall_app. split_and!.
  - unfold chmod_events. destruct chm; repeat constructor.
  - by eapply retry_events_job_steps.
  - unfold report_events. destruct r, c1; repeat constructor.
  - unfold count_events. destruct c2; repeat constructor.
Qed.

Lemma loop_events_job_steps (fs : list string) (p p' : Z) (evs : list Event) :
  loop_events out rs total fs p p' evs →
  Forall (λ ev, is_job_step ev = true) evs.
Proof.
  induction 1 as [| |file rest p p1 p' fevs evs Hfile _ IH].
  - constructor.
  - repeat constructor.
  - constructor; [done|]. rewrite Forall_app. split; [|done].
    by eapply file_events_job_steps.
Qed.

Lemma finalize_events_job_steps (paths : list string) (evs : list Event) :
  finalize_events out paths evs →
  Forall (λ ev, is_job_step ev = true ∧ is_engine_call ev = false
                ∧ is_progress ev = false) evs.
Proof.
  induction 1 as [|p rest evs1 evs H1 _ IH]; [constructor|].
  rewrite Forall_app. split; [|done]. destruct H1; repeat constructor.
Qed.

Lemma failed_files_app (t1 t2 : list Event) :
  failed_files (t1 ++ t2) = failed_files t1 ++ failed_files t2.
Proof. unfold failed_files. apply omap_app. Qed.

Lemma retry_events_failed_files (file file_name pdf_path : string)
    (attempts : list Z) (r : RetryEnd) (evs : list Event) :
  retry_events rs file file_name pdf_path attempts r evs →
  failed_files evs = [].
Proof.
  induction 1 as [| | |attempt rest e calls r evs Hcalls _ IH]; try done.
  unfold failed_attempt. rewrite !failed_files_app, IH. by destruct Hcalls.
Qed.

Lemma retry_events_broke (file file_name pdf_path : string)
    (attempts : list Z) (evs : list Event) :
  retry_events rs file file_name pdf_path attempts Broke evs →
  IsCancelled true ∈ evs.
Proof.
  remember Broke as r eqn:Hr.
  induction 1 as [| | |attempt rest e calls r evs Hcalls _ IH]; try done.
  - set_solver.
  - apply elem_of_app. right. by apply IH.
Qed.

(** Without a read of the set flag and without a conversion, every file
    of the loop gets its "Failed to convert" line. *)
Lemma loop_events_all_failed (fs : list string) (p p' : Z) (evs : list Event) :
  loop_events out rs total fs p p' evs →
  IsCancelled true ∉ evs →
  converted_paths evs = [] →
  failed_files evs = map basename fs.
Proof.
  induction 1 as [| |file rest p p1 p' fevs evs Hfile _ IH]; intros Hnc Hconv.
  - done.
  - set_solver.
  - change (IsCancelled false :: fevs ++ evs)
      with ([IsCancelled false] ++ fevs ++ evs) in *.
    rewrite !converted_paths_app in Hconv.
    apply app_eq_nil in Hconv as [_ [Hconv1 Hconv2]%app_eq_nil].
    rewrite !failed_files_app, IH; [|set_solver|done].
    cbn [map]. f_equal.
    destruct Hfile as [chm r revs c1 c2 percent Hretry Hb _ _].
    rewrite !converted_paths_app in Hconv1.
    apply app_eq_nil in Hconv1 as [_ [Hconv1 _]%app_eq_nil].
    rewrite (retry_events_converted _ _ _ _ _ _ _ Hretry) in Hconv1.
    rewrite !failed_files_app, (retry_events_failed_files _ _ _ _ _ _ Hretry).
    destruct r; try done.
    + assert (c1 = false) as ->.
      { destruct c1; [|done]. exfalso. apply Hnc. set_solver. }
      unfold chmod_events, count_events. by destruct chm, c2.
    + exfalso. apply Hnc. apply retry_events_broke in Hretry. set_solver.
Qed.

(** *** Progress values *)

Lemma progress_values_app (t1 t2 : list Event) :
  progress_values (t1 ++ t2) = progress_values t1 ++ progress_values t2.
Proof. unfold progress_values. apply omap_app. Qed.

Lemma progress_values_job_step (t : list Event) :
  Forall (λ ev, is_progress ev = false) t → progress_values t = [].
Proof.
  induction 1 as [|ev t Hev _ IH]; [done|].
  change (ev :: t) with ([ev] ++ t). rewrite progress_values_app, IH.
  by destruct ev.
Qed.

Lemma retry_events_progress (file file_name pdf_path : string)
    (attempts : list Z) (r : RetryEnd) (evs : list Event) :
  retry_events rs file file_name pdf_path attempts r evs →
  progress_values evs = [].
Proof.
  induction 1 as [| | |attempt rest e calls r evs Hcalls _ IH]; try done.
  unfold failed_attempt. rewrite !progress_values_app, IH. by destruct Hcalls.
Qed.

(** One file sends at most one percentage, that of the new count. *)
Lemma file_events_progress (file : string) (p p' : Z) (evs : list Event) :
  file_events out rs total file p p' evs →
  (p' = p ∧ progress_values evs = [])
  ∨ (p' = p + 1 ∧ ∃ v, progress_percent (p + 1) total = Some v
                       ∧ progress_values evs = [v]).
Proof.
  destruct 1 as [chm r revs c1 c2 percent Hretry _ _ Hpct].
  rewrite !progress_values_app, (retry_events_progress _ _ _ _ _ _ Hretry).
  assert (progress_values (chmod_events file chm) = []) as ->
      by (by destruct chm).
  assert (progress_values (report_events rs (basename file) r c1) = []) as ->
      by (by destruct r, c1).
  destruct c2; [left | right]; eauto.
Qed.


(** A loop in which the flag is never read as set counts every file. *)
Lemma loop_events_all_counted (fs : list string) (p p' : Z) (evs : list Event) :
  loop_events out rs total fs p p' evs →
  IsCancelled true ∉ evs →
  p' = p + Z.of_nat (length fs).
Proof.
  induction 1 as [| |file rest p p1 p' fevs evs Hfile _ IH]; intros Hnc.
  - simpl. lia.
  - set_solver.
  - rewrite IH by set_solver. cbn [length].
    destruct Hfile as [chm r revs c1 c2 percent _ _ _ _].
    destruct c2; [|lia]. exfalso. apply Hnc.
    unfold count_events. set_solver.
Qed.

(** *** Attempts and the reads of the flag *)

Lemma attempts_checked_app (t1 t2 : list Event) :
  attempts_checked t1 → attempts_checked t2 → attempts_checked (t1 ++ t2).
Proof.
  intros H1 H2 j file r Hj. apply lookup_app_Some in Hj as [Hj|[Hlen Hj]].
  - destruct (H1 j file r Hj) as (j' & a & n & name & -> & Hc & Ha).
    exists j', a, n, name. split_and!; [done| |]; by apply lookup_app_l_Some.
  - destruct (H2 _ file r Hj) as (j' & a & n & name & Hjj & Hc & Ha).
    exists (length t1 + j')%nat, a, n, name. split_and!.
    + lia.
    + rewrite lookup_app_r by lia. rewrite <- Hc. f_equal. lia.
    + rewrite lookup_app_r by lia. rewrite <- Ha. f_equal. lia.
Qed.

Lemma attempts_checked_no_open (t : list Event) :
  Forall (λ ev, is_open ev = false) t → attempts_checked t.
Proof.
  intros Hall j file r Hj. rewrite Forall_lookup in Hall.
  by specialize (Hall j _ Hj).
Qed.

(** Settle a statement about the positions of a list written out. *)
Ltac by_position j Hj :=
  repeat (destruct j as [|j]; cbn in Hj; simplify_eq; try done).

Lemma attempts_checked_failed (file file_name pdf_path : string) (attempt : Z)
    (e : Exn) (calls : list Event) :
  failed_calls file pdf_path e calls →
  attempts_checked (failed_attempt rs file_name attempt e calls).
Proof.
  intros Hcalls j f r Hj. unfold failed_attempt in *.
  exists 0%nat, attempt, rs, file_name.
  destruct Hcalls; by_position j Hj.
Qed.

Lemma attempts_checked_good (file file_name pdf_path : string) (attempt : Z) :
  attempts_checked (good_attempt rs file file_name pdf_path attempt).
Proof.
  intros j f r Hj. unfold good_attempt in *.
  exists 0%nat, attempt, rs, file_name. by_position j Hj.
Qed.

Lemma retry_events_checked (file file_name pdf_path : string)
    (attempts : list Z) (r : RetryEnd) (evs : list Event) :
  retry_events rs file file_name pdf_path attempts r evs →
  attempts_checked evs.
Proof.
  induction 1 as [|attempt rest|attempt rest|attempt rest e calls r evs Hcalls _ IH].
  - by apply attempts_checked_no_open.
  - apply attempts_checked_no_open. by repeat constructor.
  - apply attempts_checked_good.
  - apply attempts_checked_app; [|done]. by eapply attempts_checked_failed.
Qed.

Lemma file_events_checked (file : string) (p p' : Z) (evs : list Event) :
  file_events out rs total file p p' evs → attempts_checked evs.
Proof.
  destruct 1 as [chm r revs c1 c2 percent Hretry _ _ _].
  repeat apply attempts_checked_app.
  - apply attempts_checked_no_open. destruct chm; by repeat constructor.
  - by eapply retry_events_checked.
  - apply attempts_checked_no_open. destruct r, c1; by repeat constructor.
  - apply attempts_checked_no_open. destruct c2; by repeat constructor.
Qed.

Lemma loop_events_checked (fs : list string) (p p' : Z) (evs : list Event) :
  loop_events out rs total fs p p' evs → attempts_checked evs.
Proof.
  induction 1 as [| |file rest p p1 p' fevs evs Hfile _ IH].
  - by apply attempts_checked_no_open.
  - apply attempts_checked_no_open. by repeat constructor.
  - apply (attempts_checked_app [_]).
    + apply attempts_checked_no_open. by repeat constructor.
    + apply attempts_checked_app; [|done]. by eapply file_events_checked.
Qed.

Lemma job_events_checked (fs saved : list string) (p p' : Z) (c : bool)
    (levs fevs : list Event) :
  loop_events out rs total fs p p' levs →
  finalize_events out saved fevs →
  attempts_checked (job_events saved c levs fevs).
Proof.
  intros G F. unfold job_events. repeat apply attempts_checked_app.
  - apply attempts_checked_no_open. by repeat constructor.
  - by eapply loop_events_checked.
  - apply attempts_checked_no_open. by repeat constructor.
  - apply attempts_checked_no_open.
    eapply Forall_impl; [apply (finalize_events_job_steps _ _ F)|].
    by intros [] (_ & ? & _).
  - apply attempts_checked_no_open. by repeat constructor.
Qed.

(** *** The retry loop of one file *)

Lemma each_followed_app (P : Event → bool) (next : Event) (t1 t2 : list Event) :
  each_followed P next t1 → each_followed P next t2 →
  each_followed P next (t1 ++ t2).
Proof.
  intros H1 H2 i ev Hi HP. apply lookup_app_Some in Hi as [Hi|[Hlen Hi]].
  - apply lookup_app_l_Some. by eapply H1.
  - rewrite lookup_app_r by lia.
    replace (S i - length t1)%nat with (S (i - length t1)) by lia.
    by eapply H2.
Qed.

Lemma each_followed_none (P : Event → bool) (next : Event) (t : list Event) :
  Forall (λ ev, P ev = false) t → each_followed P next t.
Proof.
  intros Hall i ev Hi HP. rewrite Forall_lookup in Hall.
  specialize (Hall i _ Hi). congruence.
Qed.

Lemma none_after_app (P Q : Event → bool) (t1 t2 : list Event) :
  none_after P Q t1 → none_after P Q t2 →
  Forall (λ ev, P ev = false) t1 ∨ Forall (λ ev, Q ev = false) t2 →
  none_after P Q (t1 ++ t2).
Proof.
  intros H1 H2 Hsep i j a b Hi HP Hj HQ.
  apply lookup_app_Some in Hi as [Hi|[Hleni Hi]];
    apply lookup_app_Some in Hj as [Hj|[Hlenj Hj]].
  - by eapply H1.
  - exfalso. destruct Hsep as [Hall|Hall]; rewrite Forall_lookup in Hall.
    + specialize (Hall _ _ Hi). congruence.
    + specialize (Hall _ _ Hj). congruence.
  - apply lookup_lt_Some in Hj. lia.
  - pose proof (H2 _ _ _ _ Hi HP Hj HQ). lia.
Qed.

Lemma none_after_none (P Q : Event → bool) (t : list Event) :
  Forall (λ ev, P ev = false) t ∨ Forall (λ ev, Q ev = false) t →
  none_after P Q t.
Proof.
  intros Hsep i j a b Hi HP Hj HQ. exfalso.
  destruct Hsep as [Hall|Hall]; rewrite Forall_lookup in Hall.
  - specialize (Hall _ _ Hi). congruence.
  - specialize (Hall _ _ Hj). congruence.
Qed.

Lemma length_range (a b : Z) : length (range a b) = Z.to_nat (b - a).
Proof. unfold range. by rewrite length_map, length_seq. Qed.

(** What the retry loop does, in numbers and in order. *)
Lemma retry_events_facts (file file_name pdf_path : string)
    (attempts : list Z) (r : RetryEnd) (evs : list Event) :
  retry_events rs file file_name pdf_path attempts r evs →
  (count is_open evs ≤ length attempts)%nat
  ∧ (r = Exhausted → count is_open evs = length attempts)
  ∧ count is_converted_line evs = (if success_of r then 1 else 0)%nat
  ∧ count is_open evs
    = (count is_attempt_error evs + count is_converted_line evs)%nat
  ∧ count is_sleep evs = count is_attempt_error evs
  ∧ Forall (λ ev, is_failed_line ev = false) evs
  ∧ each_followed is_attempt_error (Sleep 1) evs
  ∧ none_after is_converted_line is_open evs.
Proof.
  induction 1 as [|attempt rest|attempt rest|attempt rest e calls r evs Hcalls _ IH].
  - split_and!; try done;
      first [ by apply each_followed_none
            | by (apply none_after_none; left) ].
  - split_and!; try done;
      first [ rewrite ?count_cons, ?count_nil; simpl; lia
            | by repeat constructor
            | by (apply each_followed_none; repeat constructor)
            | by (apply none_after_none; left; repeat constructor) ].
  - unfold good_attempt. split_and!; try done;
      first [ rewrite ?count_cons, ?count_nil; simpl; lia
            | by repeat constructor
            | by (apply each_followed_none; repeat constructor)
            | intros i j a b Hi HP Hj HQ;
              by_position i Hi; by_position j Hj; lia ].
  - destruct IH as (Hle & Hex & Hconv & Hopen & Hsleep & Hfail & Hfol & Hnone).
    assert (count is_open (failed_attempt rs file_name attempt e calls) = 1%nat
            ∧ count is_converted_line (failed_attempt rs file_name attempt e calls) = 0%nat
            ∧ count is_attempt_error (failed_attempt rs file_name attempt e calls) = 1%nat
            ∧ count is_sleep (failed_attempt rs file_name attempt e calls) = 1%nat
            ∧ Forall (λ ev, is_failed_line ev = false)
                     (failed_attempt rs file_name attempt e calls)
            ∧ Forall (λ ev, is_converted_line ev = false)
                     (failed_attempt rs file_name attempt e calls)
            ∧ each_followed is_attempt_error (Sleep 1)
                     (failed_attempt rs file_name attempt e calls))
      as (B1 & B2 & B3 & B4 & B5 & B6 & B7).
    { unfold failed_attempt. destruct Hcalls; split_and!; try done.
      all: try by repeat constructor.
      all: intros i ev Hi HP; by_position i Hi. }
    rewrite !count_app, B1, B2, B3, B4. cbn [length].
    split_and!; try lia.
    + intros Hr. rewrite Hex by done. lia.
    + by apply Forall_app.
    + by apply each_followed_app.
    + apply none_after_app; [|done|by left]. apply none_after_none. by left.
Qed.

(** One file, in numbers and in order. *)
Lemma file_events_facts (file : string) (p p' : Z) (evs : list Event) :
  file_events out rs total file p p' evs →
  (count is_open evs ≤ Z.to_nat rs)%nat
  ∧ count is_open evs
    = (count is_attempt_error evs + count is_converted_line evs)%nat
  ∧ (count is_converted_line evs ≤ 1)%nat
  ∧ none_after is_converted_line is_open evs
  ∧ each_followed is_attempt_error (Sleep 1) evs
  ∧ count is_sleep evs = count is_attempt_error evs
  ∧ (count is_failed_line evs ≤ 1)%nat
  ∧ none_after is_failed_line is_open evs
  ∧ (count is_converted_line evs = 1%nat → count is_failed_line evs = 0%nat)
  ∧ (count is_converted_line evs = 0%nat → IsCancelled true ∉ evs →
     failed_files evs = [basename file]
     ∧ count is_failed_line evs = 1%nat
     ∧ count is_open evs = Z.to_nat rs).
Proof.
  destruct 1 as [chm r revs c1 c2 percent Hretry Hb _ _].
  destruct (retry_events_facts _ _ _ _ _ _ Hretry)
    as (Hle & Hex & Hconv & Hopen & Hsleep & Hfail & Hfol & Hnone).
  rewrite length_range in Hle, Hex.
  replace (rs + 1 - 1) with rs in Hle, Hex by lia.
  set (chmod_evs := chmod_events file chm).
  set (report_evs := report_events rs (basename file) r c1).
  set (count_evs := count_events c2 percent).
  assert (∀ f, (f = is_open ∨ f = is_converted_line ∨ f = is_attempt_error
                ∨ f = is_sleep ∨ f = is_failed_line) →
               Forall (λ ev, f ev = false) chmod_evs) as Hchm.
  { intros f Hf. unfold chmod_evs, chmod_events.
    destruct Hf as [->|[->|[->|[->| ->]]]]; destruct chm; by repeat constructor. }
  assert (∀ f, (f = is_open ∨ f = is_converted_line ∨ f = is_attempt_error
                ∨ f = is_sleep ∨ f = is_failed_line) →
               Forall (λ ev, f ev = false) count_evs) as Hcnt.
  { intros f Hf. unfold count_evs, count_events.
    destruct Hf as [->|[->|[->|[->| ->]]]]; destruct c2; by repeat constructor. }
  assert (∀ f, (f = is_open ∨ f = is_converted_line ∨ f = is_attempt_error
                ∨ f = is_sleep) →
               Forall (λ ev, f ev = false) report_evs) as Hrep.
  { intros f Hf. unfold report_evs, report_events.
    destruct Hf as [->|[->|[->| ->]]]; destruct r, c1; by repeat constructor. }
  assert (count is_failed_line report_evs
          = if success_of r then 0%nat else if c1 then 0%nat else 1%nat) as Hrepf.
  { unfold report_evs, report_events. by destruct r, c1. }
  rewrite !count_app.
  rewrite !(count_zero _ chmod_evs), !(count_zero _ count_evs),
    !(count_zero is_open report_evs), !(count_zero is_converted_line report_evs),
    !(count_zero is_attempt_error report_evs), !(count_zero is_sleep report_evs),
    (count_zero is_failed_line revs)
    by auto 10.
  rewrite Hrepf, Hconv.
  split_and!; try lia.
  - destruct (success_of r); lia.
  - apply none_after_app; [apply none_after_none; left; auto 10| |left; auto 10].
    apply none_after_app; [done| |right; apply Forall_app; auto 10].
    apply none_after_none. left. apply Forall_app; auto 10.
  - apply each_followed_app; [apply each_followed_none; auto 10|].
    apply each_followed_app; [done|].
    apply each_followed_none, Forall_app; auto 10.
  - repeat case_match; lia.
  - apply none_after_app; [apply none_after_none; left; auto 10| |left; auto 10].
    apply none_after_app; [apply none_after_none; by left| |by left].
    apply none_after_none. right. apply Forall_app; auto 10.
  - destruct (success_of r); [done | lia].
  - intros Hsucc Hnc.
    destruct r; cbn [success_of] in *; try lia.
    + assert (c1 = false) as ->.
      { destruct c1; [|done]. exfalso. apply Hnc.
        unfold report_evs, report_events. set_solver. }
      split_and!; [|lia|rewrite Hex by done; lia].
      rewrite !failed_files_app, (retry_events_failed_files _ _ _ _ _ _ Hretry).
      unfold chmod_evs, chmod_events, count_evs, count_events.
      by destruct chm, c2.
    + exfalso. apply Hnc. apply retry_events_broke in Hretry. set_solver.
Qed.

End TraceFacts.

(** ** The job as a whole

    The jobs of this part are those of [session_ok]: the calls that set up
    and release the automation session return.  What a job does when one of
    them raises is the matter of the part on jobs and the session below. *)

Section Job.

Context {os_path : OsPath}.
Variable engine : nat → option Exn.
Variable chmod : string → option Exn.
Variable cancel_click : option nat.
Variable replace_existing : bool.
Variables (fs : list string) (out : string) (rs : Z) (dir : gset string).

(** The job, with a session whose calls return. *)
Abbreviation job :=
  (convert_files session_ok engine chmod cancel_click replace_existing
     (new_worker fs out rs dir)).

(** With a session whose calls return, whatever the workbook interface does
    and whenever Cancel is pressed, the job returns and its operations are:
    the acquisition of the session ([Dispatch]) at the start, the operations
    on the files, [Quit], then the finalization and last the terminal
    signal.  All the calls to the workbook interface lie between [Dispatch]
    and [Quit], and each of these two occurs exactly once. *)
Lemma session_of_a_run :
  ∃ st' body saved fin c,
    job = Returned tt st'
    ∧ trace st'
      = [CoInitialize; Dispatch; SetVisible false] ++ body
        ++ [Quit; CoUninitialize; FinalizeFilenames saved] ++ fin
        ++ [IsCancelled c; ConversionComplete (terminal_message c)]
    ∧ Forall (λ ev, is_job_step ev = true) body
    ∧ Forall (λ ev, is_job_step ev = true ∧ is_engine_call ev = false) fin
    ∧ count is_dispatch (trace st') = 1%nat
    ∧ count is_quit (trace st') = 1%nat.
Proof.
  destruct (job_runs engine chmod cancel_click replace_existing fs out rs dir)
    as (st' & processed & c & levs & fevs & E & Ht & _ & G & F & _).
  pose proof (loop_events_job_steps _ _ _ _ _ _ _ G) as Hbody.
  pose proof (finalize_events_job_steps _ _ _ F) as Hfin.
  exists st', levs, (converted_paths levs), fevs, c.
  split_and!; try done.
  - eapply Forall_impl; [exact Hfin|]. by intros ev (? & ? & _).
  - rewrite Ht. unfold job_events.
    rewrite !count_app, !count_cons, !count_nil.
    rewrite (count_zero is_dispatch levs), (count_zero is_dispatch fevs); [done| |].
    + eapply Forall_impl; [exact Hfin|]. by intros [] [].
    + eapply Forall_impl; [exact Hbody|]. by intros [].
  - rewrite Ht. unfold job_events.
    rewrite !count_app, !count_cons, !count_nil.
    rewrite (count_zero is_quit levs), (count_zero is_quit fevs); [done| |].
    + eapply Forall_impl; [exact Hfin|]. by intros [] [].
    + eapply Forall_impl; [exact Hbody|]. by intros [].
Qed.

(** With a session whose calls return, the job returns and sends
    [conversion_complete] exactly once, as its last operation, with
    "Conversion cancelled." when the flag, read just before, is set (Cancel
    was pressed by then) and "All files processed." otherwise.  There is no
    third message: when Cancel is never pressed and every call to the
    workbook interface raises, the message is still "All files processed.",
    nothing is converted, and every file has its own "Failed to convert"
    line. *)
Lemma terminal_event_of_a_run :
  ∃ st' pre c,
    job = Returned tt st'
    ∧ trace st'
      = pre ++ [IsCancelled c;
                ConversionComplete (if c then "Conversion cancelled."
                                    else "All files processed.")]
    ∧ count is_complete pre = 0%nat
    ∧ count is_complete (trace st') = 1%nat
    ∧ c = pressed cancel_click (length pre)
    ∧ (cancel_click = None → (∀ k, engine k ≠ None) →
       c = false
       ∧ saved_pdf_paths st' = []
       ∧ failed_files (trace st') = map basename fs).
Proof.
  destruct (job_runs engine chmod cancel_click replace_existing fs out rs dir)
    as (st' & processed & c & levs & fevs & E & Ht & Hsaved & G & F & Hchecks & Hnone).
  pose proof (loop_events_job_steps _ _ _ _ _ _ _ G) as Hbody.
  pose proof (finalize_events_job_steps _ _ _ F) as Hfin.
  set (pre := [CoInitialize; Dispatch; SetVisible false] ++ levs
              ++ [Quit; CoUninitialize; FinalizeFilenames (converted_paths levs)]
              ++ fevs).
  assert (trace st' = pre ++ [IsCancelled c; ConversionComplete (terminal_message c)])
    as Ht'.
  { rewrite Ht. unfold job_events, pre. by rewrite <- !app_assoc. }
  assert (count is_complete pre = 0%nat) as Hpre.
  { unfold pre. rewrite !count_app, !count_cons, !count_nil.
    rewrite (count_zero is_complete levs), (count_zero is_complete fevs); [done| |].
    + eapply Forall_impl; [exact Hfin|]. by intros [] [].
    + eapply Forall_impl; [exact Hbody|]. by intros []. }
  assert (c = pressed cancel_click (length pre)) as Hc.
  { apply Hchecks. rewrite Ht'.
    rewrite lookup_app_r by done. by rewrite Nat.sub_diag. }
  exists st', pre, c. split_and!; try done.
  - rewrite Ht', count_app, Hpre. done.
  - intros Hclick Hfail. rewrite Hclick in Hc. cbn [pressed] in Hc.
    specialize (Hnone Hfail). split_and!; try done; [congruence|].
    assert (IsCancelled true ∉ levs) as Hnc.
    { intros [i Hi]%list_elem_of_lookup.
      assert (trace st' !! (3 + i)%nat = Some (IsCancelled true)) as Hi'.
      { rewrite Ht. unfold job_events.
        rewrite lookup_app_r by (simpl; lia).
        rewrite lookup_app_l by (apply lookup_lt_Some in Hi; simpl; lia).
        rewrite <- Hi. f_equal. simpl. lia. }
      apply Hchecks in Hi'. by rewrite Hclick in Hi'. }
    rewrite Ht. unfold job_events. rewrite !failed_files_app.
    rewrite (loop_events_all_failed _ _ _ _ _ _ _ G Hnc Hnone).
    assert (failed_files fevs = []) as ->.
    { rewrite Hnone in F. by inversion F. }
    subst c. cbn. by rewrite app_nil_r.
Qed.


Lemma never_pressed_never_read (saved : list string) (c : bool)
    (levs fevs : list Event) :
  checks_ok None (job_events saved c levs fevs) → IsCancelled true ∉ levs.
Proof.
  intros Hchecks [i Hi]%list_elem_of_lookup.
  specialize (Hchecks (3 + i)%nat true). cbn [pressed] in Hchecks.
  assert (true = false); [|done]. apply Hchecks.
  unfold job_events. rewrite lookup_app_r by (simpl; lia).
  rewrite lookup_app_l by (apply lookup_lt_Some in Hi; simpl; lia).
  rewrite <- Hi. f_equal. simpl. lia.
Qed.



End Job.

(** ** Jobs that convert nothing *)

Section NothingToDo.

Context {os_path : OsPath}.
Variable engine : nat → option Exn.
Variable chmod : string → option Exn.
Variable replace_existing : bool.
Variables (out : string) (rs : Z) (dir : gset string).

(** C7.  When Cancel is pressed before the worker reads the flag for the
    first file (at most three operations into the job), the job returns
    after these operations only: the set-up, the read of the flag with its
    "cancelled by user" line when there is a file at all, [Quit], the
    finalization over an empty list of recorded paths, and the terminal
    signal with "Conversion cancelled.".  No file goes through
    [reset_permissions], no call is made to the workbook interface, no
    failure is reported and no progress is sent. *)
Theorem cancelled_before_first_file (n : nat) (fs : list string) :
  (n ≤ 3)%nat →
  ∃ st',
    convert_files session_ok engine chmod (Some n) replace_existing
      (new_worker fs out rs dir) = Returned tt st'
    ∧ trace st'
      = [CoInitialize; Dispatch; SetVisible false]
        ++ match fs with
           | [] => []
           | _ :: _ => [IsCancelled true; ProgressUpdate LogCancelledByUser]
           end
        ++ [Quit; CoUninitialize; FinalizeFilenames [];
            IsCancelled true; ConversionComplete "Conversion cancelled."]
    ∧ saved_pdf_paths st' = []
    ∧ count is_engine_call (trace st') = 0%nat
    ∧ failed_files (trace st') = []
    ∧ progress_values (trace st') = [].
Proof.
  intros Hn.
  destruct (job_runs engine chmod (Some n) replace_existing fs out rs dir)
    as (st' & processed & c & levs & fevs & E & Ht & Hsaved & G & F & Hchecks & _).
  assert (levs = match fs with
                 | [] => []
                 | _ :: _ => [IsCancelled true; ProgressUpdate LogCancelledByUser]
                 end) as Hlevs.
  { inversion G as [| |file rest p p1 p' fevs' evs' Hfile Hrest]; subst; try done.
    exfalso. specialize (Hchecks 3%nat false). rewrite Ht in Hchecks.
    specialize (Hchecks eq_refl). cbn [pressed] in Hchecks.
    symmetry in Hchecks. apply bool_decide_eq_false in Hchecks. lia. }
  assert (converted_paths levs = []) as Hconv by (rewrite Hlevs; by destruct fs).
  rewrite Hconv in *. inversion F; subst fevs.
  assert (c = true) as ->.
  { rewrite Ht, Hlevs in Hchecks. unfold job_events in Hchecks.
    destruct fs.
    - rewrite (Hchecks 6%nat c eq_refl). apply bool_decide_eq_true. lia.
    - rewrite (Hchecks 8%nat c eq_refl). apply bool_decide_eq_true. lia. }
  exists st'. rewrite Ht. unfold job_events.
  split_and!; try done; rewrite Hlevs; by destruct fs.
Qed.

(** C10.  On an empty list of files, with Cancel never pressed and the
    session calls returning, the job returns (it does not raise) having done
    only this: the set-up, [Quit], the finalization over an empty list of
    paths, and the terminal signal with "All files processed.".  No
    percentage is sent: the division by [total_files], which would raise on
    a zero total, is inside the loop and is not reached.  More generally no
    job whose session calls return raises, whatever the list. *)
Theorem empty_job_completes :
  convert_files session_ok engine chmod None replace_existing (new_worker [] out rs dir)
  = Returned tt
      (mkState [] out rs false []
         [CoInitialize; Dispatch; SetVisible false; Quit; CoUninitialize;
          FinalizeFilenames []; IsCancelled false;
          ConversionComplete "All files processed."]
         0 dir)
  ∧ progress_values
      (trace (final_state
         (convert_files session_ok engine chmod None replace_existing
            (new_worker [] out rs dir)))) = []
  ∧ (∀ processed_files, progress_percent processed_files 0 = None)
  ∧ (∀ cancel_click fs,
       returned (convert_files session_ok engine chmod cancel_click replace_existing
                   (new_worker fs out rs dir)) = true).
Proof.
  split_and!; try done.
  intros cancel_click fs.
  destruct (job_runs engine chmod cancel_click replace_existing fs out rs dir)
    as (st' & processed & c & levs & fevs & E & _).
  by rewrite E.
Qed.

End NothingToDo.

(** ** [posixpath] satisfies the laws *)

Module posixpathFacts.
Import PyStr PyStrFacts posixpath.

Lemma has_sep_append (a b : string) :
  has_sep (a +:+ b) = has_sep a || has_sep b.
Proof.
  induction a as [|c a IH]; [done|].
  change (String c a +:+ b) with (String c (a +:+ b)).
  cbn [has_sep]. by rewrite IH, orb_assoc.
Qed.

Lemma has_sep_basename (p : string) : has_sep (basename p) = false.
Proof.
  induction p as [|c p IH]; [done|]. cbn [basename].
  destruct (has_sep p) eqn:Hp; [done|].
  destruct (Ascii.eqb c sep) eqn:Hc; [done|].
  cbn [has_sep]. by rewrite Hc, Hp.
Qed.

Lemma basename_name (x : string) : has_sep x = false → basename x = x.
Proof.
  destruct x as [|c x]; [done|]. cbn [has_sep basename].
  intros [Hc Hx]%orb_false_iff. by rewrite Hx, Hc.
Qed.

Lemma basename_after_sep (a x : string) :
  has_sep x = false → basename (a +:+ String sep x) = x.
Proof.
  intros Hx. induction a as [|c a IH].
  - change ("" +:+ String sep x) with (String sep x).
    cbn [basename]. by rewrite Hx, Ascii.eqb_refl.
  - change (String c a +:+ String sep x) with (String c (a +:+ String sep x)).
    cbn [basename]. rewrite has_sep_append. cbn [has_sep].
    by rewrite Ascii.eqb_refl, orb_true_r.
Qed.

Lemma startswith_sep (x : string) : has_sep x = false → startswith x "/" = false.
Proof.
  destruct x as [|c x]; [done|]. cbn [has_sep startswith].
  intros [Hc _]%orb_false_iff. unfold sep in Hc.
  rewrite Ascii.eqb_sym in Hc. by rewrite Hc.
Qed.

(** Joining a directory and a file name. *)
Lemma basename_join (d x : string) :
  has_sep x = false → basename (join d x) = x.
Proof.
  intros Hx. unfold join. rewrite startswith_sep by done.
  destruct (String.eqb d "") eqn:Hd.
  - apply eqb_eq in Hd as ->. by apply basename_name.
  - cbn [orb]. destruct (endswith d "/") eqn:He.
    + apply endswith_spec in He as [stem ->].
      rewrite append_assoc. by apply basename_after_sep.
    + by apply basename_after_sep.
Qed.

Lemma has_sep_unquote (s : string) :
  has_sep s = false → has_sep (replace s "%20" " ") = false.
Proof.
  induction s as [|r IH|c t Hc IH] using unquote_ind; intros Hs.
  - done.
  - rewrite unquote_match. rewrite has_sep_append in *.
    apply orb_false_iff in Hs as [_ Hr]. by rewrite IH.
  - rewrite unquote_skip by done. cbn [has_sep] in *.
    apply orb_false_iff in Hs as [-> Ht]. by rewrite IH.
Qed.

End posixpathFacts.

#[global] Instance posix_path_laws : OsPathLaws posix_path.
Proof.
  split; intros; cbn [basename path_join posix_path].
  - apply posixpathFacts.basename_join, posixpathFacts.has_sep_basename.
  - apply posixpathFacts.basename_name, posixpathFacts.has_sep_unquote,
      posixpathFacts.has_sep_basename.
Qed.

(** ** Finalization of the file names *)

Section Finalization.
Import PyStr PyStrFacts.

Context {os_path : OsPath} {Hlaws : OsPathLaws os_path}.
Variable replace_existing : bool.
Variable out : string.

Abbreviation pass dir paths :=
  (foldl (λ d q, finalize_dir replace_existing out q d) dir paths).

(** The new path lies in the output directory under the new name. *)
Lemma new_name_basename (p : string) :
  basename (path_join out (unquote (basename p))) = unquote (basename p).
Proof. rewrite <- (basename_unquoted p). apply basename_path_join. Qed.

(** A name that contains ["%20"] makes the two paths differ. *)
Lemma dirty_path_differs (p : string) :
  basename p ≠ unquote (basename p) →
  p ≠ path_join out (unquote (basename p)).
Proof.
  intros Hne Heq. apply Hne. apply (f_equal basename) in Heq.
  by rewrite new_name_basename in Heq.
Qed.

Lemma finalize_dir_unchanged (p : string) (dir : gset string) :
  basename p ∉ dir
  ∨ basename p = unquote (basename p)
  ∨ (unquote (basename p) ∈ dir ∧ replace_existing = false) →
  finalize_dir replace_existing out p dir = dir.
Proof.
  intros Hcase. unfold finalize_dir. rewrite new_name_basename.
  case_bool_decide as Hguard; [|done]. case_bool_decide as Hex; [|done].
  cbn [andb]. unfold rename_in. rewrite bool_decide_eq_true_2 by done.
  case_bool_decide as Hsame; [done|].
  destruct Hcase as [?|[?|[Hin ->]]]; [done..|].
  by rewrite bool_decide_eq_true_2.
Qed.

Lemma finalize_dir_renamed (p : string) (dir : gset string) :
  basename p ∈ dir →
  basename p ≠ unquote (basename p) →
  unquote (basename p) ∉ dir ∨ replace_existing = true →
  finalize_dir replace_existing out p dir
  = {[ unquote (basename p) ]} ∪ dir ∖ {[ basename p ]}.
Proof.
  intros Hin Hne Hfree. unfold finalize_dir. rewrite new_name_basename.
  rewrite (bool_decide_eq_true_2 _ (dirty_path_differs p Hne)).
  rewrite (bool_decide_eq_true_2 _ Hin). cbn [andb].
  unfold rename_in. rewrite (bool_decide_eq_true_2 _ Hin).
  rewrite (bool_decide_eq_false_2 _ Hne).
  destruct Hfree as [Hfree| ->].
  - by rewrite (bool_decide_eq_false_2 _ Hfree).
  - by rewrite andb_false_r.
Qed.

Lemma finalize_dir_cases (p : string) (dir : gset string) :
  finalize_dir replace_existing out p dir = dir
  ∨ (basename p ∈ dir
     ∧ basename p ≠ unquote (basename p)
     ∧ finalize_dir replace_existing out p dir
       = {[ unquote (basename p) ]} ∪ dir ∖ {[ basename p ]}).
Proof.
  destruct (decide (basename p ∈ dir)) as [Hin|Hout];
    [|left; apply finalize_dir_unchanged; tauto].
  destruct (decide (basename p = unquote (basename p))) as [Heq|Hne];
    [left; apply finalize_dir_unchanged; tauto|].
  destruct (decide (unquote (basename p) ∈ dir)) as [Hnew|Hfree].
  - destruct (decide (replace_existing = true)) as [Hre|Hre%not_true_is_false].
    + right. split_and!; try done. apply finalize_dir_renamed; auto.
    + left. apply finalize_dir_unchanged. auto.
  - right. split_and!; try done. apply finalize_dir_renamed; auto.
Qed.

Lemma dirty_name (p : string) :
  basename p ≠ unquote (basename p) → contains (basename p) "%20" = true.
Proof.
  intros Hne. destruct (contains (basename p) "%20") eqn:Hc; [done|].
  by rewrite unquote_id in Hne.
Qed.

(** A pass never creates a name that contains ["%20"]. *)
Lemma pass_adds_clean (paths : list string) (dir : gset string) (x : string) :
  contains x "%20" = true → x ∈ pass dir paths → x ∈ dir.
Proof.
  intros Hx. revert dir. induction paths as [|p rest IH]; intros dir; [done|].
  cbn [foldl]. intros Hin%IH.
  destruct (finalize_dir_cases p dir) as [Heq|(_ & _ & Heq)];
    rewrite Heq in Hin; [done|].
  apply elem_of_union in Hin as [Hin%elem_of_singleton|Hin]; [|set_solver].
  subst x. by rewrite unquote_clean in Hx.
Qed.

(** A pass never removes a name that contains no ["%20"]. *)
Lemma pass_keeps_clean (paths : list string) (dir : gset string) (x : string) :
  contains x "%20" = false → x ∈ dir → x ∈ pass dir paths.
Proof.
  intros Hx. revert dir. induction paths as [|p rest IH]; intros dir Hin; [done|].
  cbn [foldl]. apply IH.
  destruct (finalize_dir_cases p dir) as [Heq|(_ & Hne & Heq)];
    rewrite Heq; [done|].
  apply dirty_name in Hne.
  assert (x ≠ basename p) by congruence. set_solver.
Qed.

(** After a pass, no recorded path has anything left to rename. *)
Lemma pass_settles (paths : list string) (dir : gset string) (p : string) :
  p ∈ paths →
  finalize_dir replace_existing out p (pass dir paths) = pass dir paths.
Proof.
  revert dir. induction paths as [|q rest IH]; intros dir Hp; [by inversion Hp|].
  cbn [foldl]. apply elem_of_cons in Hp as [->|Hp]; [|by apply IH].
  apply finalize_dir_unchanged.
  destruct (decide (basename q = unquote (basename q))) as [Heq|Hne]; [tauto|].
  pose proof (dirty_name q Hne) as Hdirty.
  destruct (finalize_dir_cases q dir) as [Hsame|(Hin & _ & Hmoved)].
  - destruct (decide (basename q ∈ dir)) as [Hin|Hout].
    + (* the rename was refused: the new name is taken, and stays taken *)
      destruct (decide (unquote (basename q) ∈ dir)) as [Hnew|Hfree].
      * destruct (decide (replace_existing = true)) as [Hre|Hre%not_true_is_false].
        -- exfalso.
           rewrite finalize_dir_renamed in Hsame by auto.
           assert (basename q ∉ dir); [|done]. rewrite <- Hsame. set_solver.
        -- right. right. split; [|done]. rewrite Hsame.
           apply pass_keeps_clean; [apply unquote_clean | done].
      * exfalso. rewrite finalize_dir_renamed in Hsame by auto.
        assert (basename q ∉ dir); [|done]. rewrite <- Hsame. set_solver.
    + left. intros Hin. apply pass_adds_clean in Hin; [|done].
      by rewrite Hsame in Hin.
  - left. intros Hin'. apply pass_adds_clean in Hin'; [|done].
    rewrite Hmoved in Hin'. set_solver.
Qed.

Lemma pass_fixed (paths : list string) (dir : gset string) :
  (∀ p, p ∈ paths → finalize_dir replace_existing out p dir = dir) →
  pass dir paths = dir.
Proof.
  induction paths as [|p rest IH]; intros Hall; [done|].
  cbn [foldl]. rewrite Hall by set_solver. apply IH.
  intros q Hq. apply Hall. set_solver.
Qed.

(** The second pass leaves the directory as the first pass left it. *)
Lemma pass_idempotent (paths : list string) (dir : gset string) :
  pass (pass dir paths) paths = pass dir paths.
Proof. apply pass_fixed. intros p Hp. by apply pass_settles. Qed.

Lemma finalize_one_outcome_dir (p : string) (dir dir' : gset string)
    (evs : list Event) :
  finalize_one_outcome replace_existing out p dir evs dir' →
  dir' = finalize_dir replace_existing out p dir.
Proof.
  unfold finalize_dir.
  destruct 1 as [Heq|Hd Hmiss|e Hd Hex Hr|dir' Hd Hex Hr].
  - by rewrite bool_decide_eq_false_2 by (by intros ?).
  - by rewrite (bool_decide_eq_false_2 _ Hmiss), andb_false_r.
  - by rewrite (bool_decide_eq_true_2 _ Hd), (bool_decide_eq_true_2 _ Hex), Hr.
  - by rewrite (bool_decide_eq_true_2 _ Hd), (bool_decide_eq_true_2 _ Hex), Hr.
Qed.

(** On a directory where nothing is left to rename, the loop leaves the
    directory as it is, and an [os.rename] that goes through is one of a
    file onto its own name. *)
Lemma settled_outcomes (paths : list string) (dir dir' : gset string)
    (evs : list Event) :
  finalize_outcomes replace_existing out paths dir evs dir' →
  (∀ p, p ∈ paths → finalize_dir replace_existing out p dir = dir) →
  dir' = dir
  ∧ ∀ src dst, Rename src dst None ∈ evs → basename src = basename dst.
Proof.
  induction 1 as [dir|p rest dir dir1 dir2 evs1 evs H1 _ IH]; intros Hall.
  - split; [done|]. intros src dst Hin. by inversion Hin.
  - pose proof (finalize_one_outcome_dir _ _ _ _ H1) as Hdir1.
    rewrite Hall in Hdir1 by set_solver. subst dir1.
    destruct IH as [-> Hrest]; [intros q Hq; apply Hall; set_solver|].
    split; [done|]. intros src dst [Hin|Hin]%elem_of_app; [|by apply Hrest].
    inversion H1 as [Heq|Hd Hmiss|e Hd Hex Hr|dir' Hd Hex Hr]; subst;
      try (by inversion Hin); try set_solver.
    assert (src = p ∧ dst = path_join out (unquote (basename p))) as [-> ->]
      by set_solver.
    destruct (decide (basename p
                      = basename (path_join out (unquote (basename p)))))
      as [|Hne]; [done|].
    exfalso. unfold rename_in in Hr.
    rewrite (bool_decide_eq_true_2 _ Hex), (bool_decide_eq_false_2 _ Hne) in Hr.
    case_match; [done|]. injection Hr as Hr.
    assert (basename p ∉ dir) as Hout; [|done].
    intros Hin'. rewrite <- Hr in Hin'. set_solver.
Qed.

End Finalization.

Section FinalizeFilenames.
Import PyStr PyStrFacts.

Context {os_path : OsPath} {Hlaws : OsPathLaws os_path}.
Variable replace_existing : bool.

(** X19.  Run [finalize_filenames] a second time on the worker as the
    first run left it (the same recorded paths, the same output
    directory): the second run leaves the content of the output directory
    exactly as the first run left it, whatever the recorded paths, the
    content of the directory before, the moments Cancel is pressed and
    whether [os.rename] replaces an existing file or refuses to.  If a
    call to [os.rename] goes through at all in the second run, it is one
    whose source and destination are the same file name. *)
Theorem finalize_twice (cancel_click1 cancel_click2 : option nat) (st : State) :
  let st1 := final_state (finalize_filenames cancel_click1 replace_existing st) in
  let st2 := final_state (finalize_filenames cancel_click2 replace_existing st1) in
  saved_pdf_paths st1 = saved_pdf_paths st
  ∧ output_dir st1 = output_dir st
  ∧ listing st2 = listing st1
  ∧ ∃ evs2,
      trace st2 = trace st1 ++ evs2
      ∧ ∀ src dst, Rename src dst None ∈ evs2 → basename src = basename dst.
Proof.
  intros st1 st2.
  destruct (finalize_filenames_spec cancel_click1 replace_existing st)
    as (st1' & evs1 & E1 & S1 & G1 & L1).
  assert (st1 = st1') as -> by (unfold st1; by rewrite E1).
  assert (saved_pdf_paths st1' = saved_pdf_paths st) as Hsaved.
  { rewrite (steps_saved _ _ _ S1).
    change (FinalizeFilenames (saved_pdf_paths st) :: evs1)
      with ([FinalizeFilenames (saved_pdf_paths st)] ++ evs1).
    rewrite converted_paths_app, (finalize_events_converted _ _ _ G1).
    by rewrite app_nil_r. }
  pose proof (steps_output_dir _ _ _ S1) as Hout.
  destruct (finalize_filenames_outcomes cancel_click2 replace_existing st1')
    as (st2' & evs2 & E2 & T2 & O2).
  assert (st2 = st2') as -> by (unfold st2; by rewrite E2).
  rewrite Hsaved, Hout, L1 in O2.
  destruct (settled_outcomes _ _ _ _ _ _ O2) as [L2 Hrenames].
  { intros p Hp. by apply pass_settles. }
  split_and!; try done; [congruence|].
  exists (FinalizeFilenames (saved_pdf_paths st1') :: evs2). split; [done|].
  intros src dst [Hin|Hin]%elem_of_cons; [done | by apply Hrenames].
Qed.

Lemma rename_in_done (dir : gset string) (src dst : string) :
  src ∈ dir → src ≠ dst → dst ∉ dir ∨ replace_existing = true →
  rename_in replace_existing dir src dst = inr ({[ dst ]} ∪ dir ∖ {[ src ]}).
Proof.
  intros Hin Hne Hfree. unfold rename_in.
  rewrite (bool_decide_eq_true_2 _ Hin), (bool_decide_eq_false_2 _ Hne).
  destruct Hfree as [Hfree| ->].
  - by rewrite (bool_decide_eq_false_2 _ Hfree).
  - by rewrite andb_false_r.
Qed.

Lemma rename_in_refused (dir : gset string) (src dst : string) :
  src ∈ dir → src ≠ dst → dst ∈ dir → replace_existing = false →
  rename_in replace_existing dir src dst = inl "FileExistsError".
Proof.
  intros Hin Hne Hdst ->. unfold rename_in.
  by rewrite (bool_decide_eq_true_2 _ Hin), (bool_decide_eq_false_2 _ Hne),
    (bool_decide_eq_true_2 _ Hdst).
Qed.

(** C2, as the worker has it.  For a recorded path, the pass computes the
    new name from the basename by replacing every ["%20"] by one space:
    the basename is cut at its occurrences of ["%20"] into pieces that
    contain none, and the new name is these pieces with one space between
    neighbours, nothing else changed.  The new path is that name in the
    output directory.  When the basename contains ["%20"]: if the file is
    there and [os.rename] goes through (the new name is free, or
    [os.rename] replaces), the file is renamed to the new name and a
    "Renamed" line is sent; if [os.rename] refuses because the new name is
    taken, a "Failed to rename" line is sent and the file keeps its name;
    if the file is not there, a "File not found" line is sent.  When the
    basename contains no ["%20"], the content of the directory is left as
    it is, and nothing at all is done when the recorded path is the join
    of the output directory and the basename. *)
Theorem finalize_one_renames (cancel_click : option nat) (pdf_path : string)
    (st : State) :
  let name := basename pdf_path in
  let new_name := replace name "%20" " " in
  let new_path := path_join (output_dir st) new_name in
  ∃ st' evs pieces,
    finalize_one cancel_click replace_existing pdf_path st = Returned tt st'
    ∧ trace st' = trace st ++ evs
    ∧ pieces ≠ []
    ∧ name = join "%20" pieces
    ∧ new_name = join " " pieces
    ∧ Forall (λ piece, contains piece "%20" = false) pieces
    ∧ basename new_path = new_name
    ∧ (contains name "%20" = true →
       (name ∈ listing st →
        new_name ∉ listing st ∨ replace_existing = true →
        evs = [PathExists pdf_path true; Rename pdf_path new_path None;
               ProgressUpdate (LogRenamed name new_name)]
        ∧ listing st' = {[ new_name ]} ∪ listing st ∖ {[ name ]})
       ∧ (name ∈ listing st →
          new_name ∈ listing st → replace_existing = false →
          evs = [PathExists pdf_path true;
                 Rename pdf_path new_path (Some "FileExistsError");
                 ProgressUpdate (LogRenameFailed name "FileExistsError")]
          ∧ listing st' = listing st)
       ∧ (name ∉ listing st →
          evs = [PathExists pdf_path false; ProgressUpdate (LogNotFound name)]
          ∧ listing st' = listing st))
    ∧ (contains name "%20" = false →
       listing st' = listing st
       ∧ (pdf_path = path_join (output_dir st) name → evs = [])).
Proof.
  intros name new_name new_path. subst new_path new_name name.
  destruct (finalize_one_spec cancel_click replace_existing pdf_path st)
    as (st' & evs & E & S & _ & L & Hout).
  destruct (unquote_pieces (basename pdf_path))
    as (pieces & Hne & Hname & Hnew & Hclean).
  pose proof (new_name_basename (output_dir st) pdf_path) as Hbase.
  exists st', evs, pieces. split_and!; try done; [apply S| |].
  - intros Hdirty.
    pose proof (unquote_changes _ Hdirty) as Hchg.
    assert (basename pdf_path ≠ unquote (basename pdf_path)) as Hnn by done.
    pose proof (dirty_path_differs (output_dir st) pdf_path Hnn) as Hdiff.
    split_and!.
    + intros Hin Hfree.
      pose proof (rename_in_done (listing st) _ _ Hin Hnn Hfree) as Hren.
      inversion Hout as [Heq|Hd Hmiss|e Hd Hex Hr|dir' Hd Hex Hr]; subst; try done.
      * rewrite Hbase in Hr. congruence.
      * rewrite Hbase in Hr. rewrite Hren in Hr. by injection Hr as <-.
    + intros Hin Htaken Hre.
      pose proof (rename_in_refused (listing st) _ _ Hin Hnn Htaken Hre)
        as Hren.
      inversion Hout as [Heq|Hd Hmiss|e Hd Hex Hr|dir' Hd Hex Hr]; subst; try done.
      * rewrite Hbase in Hr. rewrite Hren in Hr. by injection Hr as <-.
      * rewrite Hbase in Hr. congruence.
    + intros Hmissing.
      inversion Hout as [Heq|Hd Hmiss|e Hd Hex Hr|dir' Hd Hex Hr]; subst; done.
  - intros Hclean'.
    assert (unquote (basename pdf_path) = basename pdf_path) as Hid
        by (by apply unquote_id).
    split.
    + rewrite L. apply finalize_dir_unchanged. right. left. by symmetry.
    + intros Hjoined.
      inversion Hout as [Heq|Hd Hmiss|e Hd Hex Hr|dir' Hd Hex Hr]; subst; try done.
      all: exfalso; apply Hd; by rewrite Hid.
Qed.

End FinalizeFilenames.

(** ** The retry loop *)

Section RetryLoop.

Context {os_path : OsPath}.
Variable engine : nat → option Exn.
Variable chmod : string → option Exn.
Variable cancel_click : option nat.

(** C8, as the worker has it.  The worker created by the window has a
    retry limit of 3.  For one file, from any state of the worker: there
    are at most [retries] attempts; each attempt either raises or converts
    the file, at most one converts it and no attempt follows that one;
    every attempt that raised is followed at once by a pause of 1 second,
    the last attempt of the loop included, and there is no other pause;
    at most one "Failed to convert" line is sent, after the last attempt,
    and none when an attempt converted the file.  When no attempt
    converted the file and the flag was never read as set, exactly one
    such line is sent, for this file, after exactly [retries] attempts. *)
Theorem retry_loop_of_a_file (file : string) (total processed : Z) (st : State) :
  total ≠ 0 →
  (∀ fs out dir, retries (start_worker fs out dir) = 3)
  ∧ ∃ processed' st' evs,
      process_file engine chmod cancel_click file total processed st
      = Returned processed' st'
      ∧ trace st' = trace st ++ evs
      ∧ (count is_open evs ≤ Z.to_nat (retries st))%nat
      ∧ count is_open evs
        = (count is_attempt_error evs + count is_converted_line evs)%nat
      ∧ (count is_converted_line evs ≤ 1)%nat
      ∧ none_after is_converted_line is_open evs
      ∧ each_followed is_attempt_error (Sleep 1) evs
      ∧ count is_sleep evs = count is_attempt_error evs
      ∧ (count is_failed_line evs ≤ 1)%nat
      ∧ none_after is_failed_line is_open evs
      ∧ (count is_converted_line evs = 1%nat → count is_failed_line evs = 0%nat)
      ∧ (count is_converted_line evs = 0%nat → IsCancelled true ∉ evs →
         failed_files evs = [basename file]
         ∧ count is_failed_line evs = 1%nat
         ∧ count is_open evs = Z.to_nat (retries st)).
Proof.
  intros Htotal. split; [done|].
  destruct (process_file_spec engine chmod cancel_click file total processed st Htotal)
    as (processed' & st' & evs & E & S & G & _).
  exists processed', st', evs. split; [done|]. split; [apply S|].
  by apply (file_events_facts _ _ _ _ _ _ _ G).
Qed.

End RetryLoop.

(** ** The window *)

Lemma deliver_text (w : Window) (ev : Event) :
  is_complete ev = false →
  convert_btn_text (deliver w ev) = convert_btn_text w
  ∧ convert_btn_enabled (deliver w ev) = convert_btn_enabled w.
Proof.
  destruct ev; try done; cbn [deliver]; intros _.
  unfold update_progress, setValue. by case_bool_decide.
Qed.

Lemma deliver_complete_text (w : Window) (message : string) :
  convert_btn_text (deliver w (ConversionComplete message)) = "Convert to PDF"
  ∧ convert_btn_enabled (deliver w (ConversionComplete message)) = true.
Proof.
  cbn [deliver]. unfold conversion_complete, log, setValue.
  by case_bool_decide.
Qed.

Lemma completions_snoc (gs : list GuiEvent) (g : GuiEvent) :
  completions (gs ++ [g])
  = (completions gs + if is_complete_signal g then 1 else 0)%nat.
Proof.
  unfold completions. rewrite filter_app, length_app. f_equal.
  destruct (is_complete_signal g) eqn:Hg.
  - by rewrite filter_cons_True.
  - rewrite filter_cons_False; [done|]. by rewrite Hg.
Qed.

Lemma gui_run_snoc (a : App) (gs : list GuiEvent) (g : GuiEvent) :
  gui_run a (gs ++ [g])
  = match gui_run a gs with
    | inr a' => gui_step a' g
    | inl e => inl e
    end.
Proof.
  revert a. induction gs as [|g' gs IH]; intros a; cbn [gui_run app].
  - by destruct (gui_step a g).
  - destruct (gui_step a g'); [done|]. apply IH.
Qed.

Lemma last_choice_snoc (cur : list string) (gs : list GuiEvent) (g : GuiEvent) :
  last_choice cur (gs ++ [g])
  = match g with
    | BrowseFiles (f :: fs) => f :: fs
    | _ => last_choice cur gs
    end.
Proof.
  revert cur. induction gs as [|g' gs IH]; intros cur; cbn [app last_choice].
  - by destruct g as [[|]| | |].
  - destruct g' as [[|]| | |]; apply IH.
Qed.

Lemma last_folder_snoc (cur : string) (gs : list GuiEvent) (g : GuiEvent) :
  last_folder cur (gs ++ [g])
  = match g with
    | SelectOutputFolder folder =>
        if String.eqb folder "" then last_folder cur gs else folder
    | _ => last_folder cur gs
    end.
Proof.
  revert cur. induction gs as [|g' gs IH]; intros cur; cbn [app last_folder].
  - by destruct g.
  - destruct g'; apply IH.
Qed.

(** One event keeps the invariant, and the slot does not raise. *)
Lemma gui_step_inv (a : App) (g : GuiEvent) (started completed : nat) :
  app_inv a started completed →
  ∃ a', gui_step a g = inr a'
        ∧ app_inv a'
            (started + (threads_started a' - threads_started a))
            (completed + if is_complete_signal g then 1 else 0)
        ∧ (threads_started a ≤ threads_started a')%nat.
Proof.
  intros [Htext Hidle Hbusy Hworker].
  destruct g as [files|folder|dir|ev];
    [cbn [gui_step is_complete_signal]..|cbn [gui_step]].
  - eexists. split; [done|]. destruct files as [|f files]; cbn [select_files].
    + rewrite Nat.sub_diag, !Nat.add_0_r. by split.
    + cbn. rewrite Nat.sub_diag, !Nat.add_0_r. by split.
  - eexists. split; [done|]. unfold select_output_folder.
    destruct (String.eqb folder ""); cbn;
      rewrite Nat.sub_diag, !Nat.add_0_r; by split.
  - destruct (decide (convert_btn_enabled (window a) = true))
      as [Hen|Hen%not_true_is_false]; rewrite Hen.
    + unfold toggle_conversion.
      destruct (String.eqb_spec (convert_btn_text (window a)) "Convert to PDF")
        as [Hidle'|Hne].
      * destruct (Hidle Hidle') as [_ Hle].
        case_bool_decide as Hfiles.
        { eexists. split; [done|]. cbn.
          rewrite Nat.sub_diag, !Nat.add_0_r. by split. }
        destruct (String.eqb_spec (app_output_dir a) "") as [Hout|Hout].
        { eexists. split; [done|]. cbn.
          rewrite Nat.sub_diag, !Nat.add_0_r. by split. }
        eexists. split; [done|]. cbn [threads_started]. split; [|lia].
        replace (S (threads_started a) - threads_started a)%nat with 1%nat by lia.
        split; cbn [window worker start_conversion].
        -- right. unfold start_conversion, setValue. by case_bool_decide.
        -- unfold start_conversion, setValue. by case_bool_decide.
        -- intros _. split; [done | lia].
        -- intros w [= <-]. done.
      * destruct Htext as [?|Hcancel]; [done|].
        destruct (Hbusy Hcancel) as [[w Hw] Hle]. rewrite Hw.
        eexists. split; [done|]. cbn [threads_started]. split; [|lia].
        rewrite Nat.sub_diag, !Nat.add_0_r.
        split; cbn [window worker setEnabled convert_btn_text convert_btn_enabled].
        -- by right.
        -- by rewrite Hcancel.
        -- done.
        -- intros w' [= <-]. by apply (Hworker w).
    + eexists. split; [done|]. rewrite Nat.sub_diag, !Nat.add_0_r. by split.
  - eexists. split; [done|]. cbn [threads_started set_window]. split; [|lia].
    rewrite Nat.sub_diag, Nat.add_0_r.
    destruct (is_complete ev) eqn:Hev.
    + destruct ev; try done. cbn [is_complete_signal].
      destruct (deliver_complete_text (window a) message) as [Ht He].
      split; cbn [window worker set_window]; rewrite ?Ht, ?He; try done.
      * by left.
      * intros _. split; [done|].
        destruct Htext as [Hi|Hc]; [apply Hidle in Hi | apply Hbusy in Hc]; lia.
    + destruct (deliver_text (window a) ev Hev) as [Ht He].
      assert (is_complete_signal (WorkerSignal ev) = false) as ->
        by (by destruct ev).
      rewrite Nat.add_0_r.
      split; cbn [window worker set_window]; rewrite ?Ht, ?He; done.
Qed.

Lemma gui_run_inv (gs : list GuiEvent) :
  ∃ a, gui_run new_app gs = inr a
       ∧ app_inv a (threads_started a) (completions gs)
       ∧ selected_files a = last_choice [] gs
       ∧ app_output_dir a = last_folder "" gs.
Proof.
  induction gs as [|g gs IH] using rev_ind.
  - exists new_app. split; [done|]. split; [|done].
    split; [by left | done..].
  - destruct IH as (a & E & Hinv & Hsel & Hout).
    destruct (gui_step_inv a g _ _ Hinv) as (a' & E' & Hinv' & Hle).
    exists a'. rewrite gui_run_snoc, E. split; [done|].
    rewrite completions_snoc, last_choice_snoc, last_folder_snoc.
    split.
    + replace (threads_started a') with
        (threads_started a + (threads_started a' - threads_started a))%nat
        at 1 by lia.
      done.
    + clear Hinv'. destruct g as [files|folder|dir|ev]; cbn [gui_step] in E'.
      * injection E' as <-. destruct files; cbn; by rewrite ?Hsel, ?Hout.
      * injection E' as <-. unfold select_output_folder.
        destruct (String.eqb folder ""); cbn; by rewrite ?Hsel, ?Hout.
      * destruct (convert_btn_enabled (window a)); [|by injection E' as <-].
        unfold toggle_conversion in E'.
        repeat case_match; simplify_eq; done.
      * by injection E' as <-.
Qed.


(** X1.  Whatever the user does and whatever signals arrive, in any order,
    no slot of the window raises: in particular the Cancel branch of
    [toggle_conversion] never reads [self.worker] before it is assigned.
    The button reads "Convert to PDF" or "Cancel"; while it reads "Cancel" a
    worker exists, and while it reads "Convert to PDF" it is enabled. *)
Theorem slots_never_raise (gs : list GuiEvent) :
  ∃ a, gui_run new_app gs = inr a
       ∧ (convert_btn_text (window a) = "Convert to PDF"
          ∨ convert_btn_text (window a) = "Cancel")
       ∧ (convert_btn_text (window a) = "Cancel" → is_Some (worker a))
       ∧ (convert_btn_text (window a) = "Convert to PDF" →
          convert_btn_enabled (window a) = true).
Proof.
  destruct (gui_run_inv gs) as (a & E & [Htext Hidle Hbusy _] & _).
  exists a. split_and!; try done.
  - intros H. by apply Hbusy.
  - intros H. by apply Hidle.
Qed.

(** X2.  Every worker the window creates has at least one file, a
    non-empty output directory and the default retry limit of 3, and is
    created with nothing recorded; the Cancel branch changes none of this. *)
Theorem created_workers_are_well_formed (gs : list GuiEvent) :
  ∃ a, gui_run new_app gs = inr a
       ∧ ∀ w, worker a = Some w →
              files w ≠ [] ∧ output_dir w ≠ "" ∧ retries w = 3
              ∧ saved_pdf_paths w = [] ∧ trace w = [].
Proof.
  destruct (gui_run_inv gs) as (a & E & [_ _ _ Hworker] & _).
  exists a. split; [done|]. exact Hworker.
Qed.

(** X3.  A thread is started only when every thread started before has
    delivered its terminal signal: the number of threads started never
    exceeds the number of terminal signals delivered by more than one, and
    does not exceed it at all while the button reads "Convert to PDF". *)
Theorem one_job_at_a_time (gs : list GuiEvent) :
  ∃ a, gui_run new_app gs = inr a
       ∧ (threads_started a ≤ S (completions gs))%nat
       ∧ (convert_btn_text (window a) = "Convert to PDF" →
          (threads_started a ≤ completions gs)%nat).
Proof.
  destruct (gui_run_inv gs) as (a & E & [Htext Hidle Hbusy _] & _).
  exists a. split_and!; try done.
  - destruct Htext as [Hi|Hc]; [apply Hidle in Hi | apply Hbusy in Hc]; lia.
  - intros H. by apply Hidle.
Qed.

(** X4.  The selection is the last non-empty answer of the file dialog and
    the output folder the last non-empty answer of the folder dialog: a
    dismissed dialog keeps the previous choice, a new choice replaces it.
    A click on "Convert to PDF" then logs "No files selected" when there is
    no selection, else "No output folder selected" when there is no folder,
    and starts nothing in both cases; otherwise it sets the bar to 0, turns
    the button into "Cancel" and starts one thread on a new worker over
    exactly that selection and that folder. *)
Theorem click_starts_the_last_choices (gs : list GuiEvent) (dir : gset string) :
  ∃ a, gui_run new_app gs = inr a
       ∧ selected_files a = last_choice [] gs
       ∧ app_output_dir a = last_folder "" gs
       ∧ (convert_btn_text (window a) = "Convert to PDF" →
          ∃ a', gui_step a (ClickConvert dir) = inr a'
                ∧ if bool_decide (last_choice [] gs = []) then
                    a' = app_log "No files selected. Please select Excel files first." a
                  else if String.eqb (last_folder "" gs) "" then
                    a' = app_log "No output folder selected. Please select an output folder." a
                  else
                    worker a'
                    = Some (new_worker (last_choice [] gs) (last_folder "" gs) 3 dir)
                    ∧ threads_started a' = S (threads_started a)
                    ∧ convert_btn_text (window a') = "Cancel"
                    ∧ progress_bar (window a') = 0
                    ∧ log_text (window a') = log_text (window a)).
Proof.
  destruct (gui_run_inv gs) as (a & E & [_ Hidle _ _] & Hsel & Hout).
  exists a. split_and!; try done.
  intros Htext. destruct (Hidle Htext) as [Hen _].
  cbn [gui_step]. rewrite Hen. unfold toggle_conversion.
  rewrite Htext. cbn [String.eqb Ascii.eqb Bool.eqb]. rewrite Hsel, Hout.
  case_bool_decide; [by eexists|].
  destruct (String.eqb (last_folder "" gs) ""); [by eexists|].
  eexists. split; [done|].
  cbn [worker threads_started window]. unfold start_conversion, setValue.
  case_bool_decide; [done | lia].
Qed.

Lemma deliver_log (w : Window) (t : list Event) :
  log_text (foldl deliver w t) = log_text w ++ signal_lines t.
Proof.
  revert w. induction t as [|ev t IH]; intros w; cbn [foldl].
  - by rewrite app_nil_r.
  - rewrite IH. unfold signal_lines at 2. cbn [omap].
    destruct ev; cbn [deliver]; try done.
    + cbn [log log_text mbind option_bind]. by rewrite <- app_assoc.
    + unfold update_progress, setValue. by case_bool_decide.
    + unfold conversion_complete, log, setValue.
      case_bool_decide; cbn [log_text]; by rewrite <- app_assoc.
Qed.

Lemma signal_lines_app (t1 t2 : list Event) :
  signal_lines (t1 ++ t2) = signal_lines t1 ++ signal_lines t2.
Proof. unfold signal_lines. apply omap_app. Qed.

Lemma deliver_button (w : Window) (pre : list Event) (message : string) :
  let w' := foldl deliver w (pre ++ [ConversionComplete message]) in
  convert_btn_text w' = "Convert to PDF" ∧ convert_btn_enabled w' = true.
Proof. cbn zeta. rewrite foldl_app. cbn [foldl]. apply deliver_complete_text. Qed.

(** ** Jobs and the session

    The calls that set up and release the automation session are made
    outside of every [try]: what a job does depends on whether they
    return. *)

Section AnySession.

Context {os_path : OsPath}.
Variable session : SessionCall → option Exn.
Variable engine : nat → option Exn.
Variable chmod : string → option Exn.
Variable cancel_click : option nat.
Variable replace_existing : bool.
Variables (fs : list string) (out : string) (rs : Z) (dir : gset string).

Ltac run H :=
  first [ rewrite (bind_returned _ _ _ _ _ H)
        | rewrite (bind_raised _ _ _ _ _ H)
        | rewrite (try_returned _ _ _ _ _ H)
        | rewrite (try_raised _ _ _ _ _ H) ].

(** With a session whose calls return, the job is the job of [session_ok]. *)
Lemma job_of_a_good_session (st : State) :
  first_failure session = None →
  convert_files session engine chmod cancel_click replace_existing st
  = convert_files session_ok engine chmod cancel_click replace_existing st.
Proof.
  unfold first_failure. intros H.
  destruct (session CallCoInitialize) eqn:H1; [done|].
  destruct (session CallDispatch) eqn:H2; [done|].
  destruct (session CallSetVisible) eqn:H3; [done|].
  destruct (session CallQuit) eqn:H4; [done|].
  destruct (session CallCoUninitialize) eqn:H5; [done|].
  unfold convert_files.
  by rewrite !session_call_ok, !(session_call_returns _ session) by done.
Qed.

(** A job whose session call [call] raises [e] ends there, with [e]. *)
Lemma job_is_cut (call : SessionCall) (e : Exn) :
  first_failure session = Some (call, e) →
  ∃ st' processed levs,
    convert_files session engine chmod cancel_click replace_existing
      (new_worker fs out rs dir) = Raised e st'
    ∧ session call = Some e
    ∧ trace st' = cut_events call e levs
    ∧ loop_events out rs (Z.of_nat (length fs)) fs 0 processed levs
    ∧ saved_pdf_paths st' = converted_paths (trace st')
    ∧ checks_ok cancel_click (trace st').
Proof.
  intros Hfirst.
  pose proof (preserves_convert_files engine chmod cancel_click replace_existing
                session _ (flag_inv_new_worker cancel_click fs out rs dir)) as [_ Hchecks].
  set (st := new_worker fs out rs dir) in *.
  destruct (files_loop_spec engine chmod cancel_click fs (Z.of_nat (length fs)) 0 st)
    as (p0 & _ & levs0 & _ & _ & G0 & _).
  { destruct fs; [by left | right; simpl; lia]. }
  unfold first_failure in Hfirst. unfold convert_files in *.
  destruct (session CallCoInitialize) as [e1|] eqn:H1.
  { injection Hfirst as <- <-.
    destruct (session_call_raises cancel_click session CallCoInitialize
                CoInitialize e1 st H1) as (st' & E & S).
    run E. rewrite (bind_raised _ _ _ _ _ E) in Hchecks.
    exists st', p0, levs0. split_and!; try done.
    - by rewrite (steps_trace _ _ _ S).
    - by rewrite (steps_saved _ _ _ S), (steps_trace _ _ _ S). }
  rewrite (session_call_returns cancel_click session _ _ H1) in *.
  destruct (op_spec cancel_click CoInitialize st eq_refl) as (st1 & E1 & S1 & _).
  run E1. rewrite (bind_returned _ _ _ _ _ E1) in Hchecks.
  destruct (session CallDispatch) as [e2|] eqn:H2.
  { injection Hfirst as <- <-.
    destruct (session_call_raises cancel_click session CallDispatch
                Dispatch e2 st1 H2) as (st' & E & S).
    run E. rewrite (bind_raised _ _ _ _ _ E) in Hchecks.
    pose proof (steps_to_trans _ _ _ _ _ S1 S) as S'.
    exists st', p0, levs0. split_and!; try done.
    - by rewrite (steps_trace _ _ _ S').
    - by rewrite (steps_saved _ _ _ S'), (steps_trace _ _ _ S'). }
  rewrite (session_call_returns cancel_click session _ _ H2) in *.
  destruct (op_spec cancel_click Dispatch st1 eq_refl) as (st2 & E2 & S2 & _).
  run E2. rewrite (bind_returned _ _ _ _ _ E2) in Hchecks.
  pose proof (steps_to_trans _ _ _ _ _ S1 S2) as S02.
  destruct (session CallSetVisible) as [e3|] eqn:H3.
  { injection Hfirst as <- <-.
    destruct (session_call_raises cancel_click session CallSetVisible
                (SetVisible false) e3 st2 H3) as (st' & E & S).
    run E. rewrite (bind_raised _ _ _ _ _ E) in Hchecks.
    pose proof (steps_to_trans _ _ _ _ _ S02 S) as S'.
    exists st', p0, levs0. split_and!; try done.
    - by rewrite (steps_trace _ _ _ S').
    - by rewrite (steps_saved _ _ _ S'), (steps_trace _ _ _ S'). }
  rewrite (session_call_returns cancel_click session _ _ H3) in *.
  destruct (op_spec cancel_click (SetVisible false) st2 eq_refl)
    as (st3 & E3 & S3 & _).
  run E3. rewrite (bind_returned _ _ _ _ _ E3) in Hchecks.
  pose proof (steps_to_trans _ _ _ _ _ S02 S3) as S03.
  rewrite (bind_returned (gets files) _ st3 st3 (files st3) (gets_spec files st3))
    in *.
  rewrite (steps_files _ _ _ S03) in *. cbn [st new_worker files] in *.
  destruct (files_loop_spec engine chmod cancel_click fs (Z.of_nat (length fs)) 0 st3)
    as (processed & st4 & levs & E4 & S4 & G4 & _).
  { destruct fs; [by left | right; simpl; lia]. }
  rewrite (steps_output_dir _ _ _ S03), (steps_retries _ _ _ S03) in G4.
  cbn [st new_worker output_dir retries] in G4.
  run E4. rewrite (bind_returned _ _ _ _ _ E4) in Hchecks.
  pose proof (steps_to_trans _ _ _ _ _ S03 S4) as S04.
  destruct (session CallQuit) as [e4|] eqn:H4.
  { injection Hfirst as <- <-.
    destruct (session_call_raises cancel_click session CallQuit
                Quit e4 st4 H4) as (st' & E & S).
    run E. rewrite (bind_raised _ _ _ _ _ E) in Hchecks.
    pose proof (steps_to_trans _ _ _ _ _ S04 S) as S'.
    exists st', processed, levs. split_and!; try done.
    - rewrite (steps_trace _ _ _ S'). cbn. by rewrite <- ?app_assoc.
    - by rewrite (steps_saved _ _ _ S'), (steps_trace _ _ _ S'). }
  rewrite (session_call_returns cancel_click session _ _ H4) in *.
  destruct (op_spec cancel_click Quit st4 eq_refl) as (st5 & E5 & S5 & _).
  run E5. rewrite (bind_returned _ _ _ _ _ E5) in Hchecks.
  pose proof (steps_to_trans _ _ _ _ _ S04 S5) as S05.
  destruct (session CallCoUninitialize) as [e5|] eqn:H5; [|done].
  injection Hfirst as <- <-.
  destruct (session_call_raises cancel_click session CallCoUninitialize
              CoUninitialize e5 st5 H5) as (st' & E & S).
  run E. rewrite (bind_raised _ _ _ _ _ E) in Hchecks.
  pose proof (steps_to_trans _ _ _ _ _ S05 S) as S'.
  exists st', processed, levs. split_and!; try done.
  - rewrite (steps_trace _ _ _ S'). cbn. by rewrite <- ?app_assoc.
  - by rewrite (steps_saved _ _ _ S'), (steps_trace _ _ _ S').
Qed.

(** A trace without terminal signal leaves the button as it is. *)
Lemma deliver_keeps_button (w : Window) (t : list Event) :
  count is_complete t = 0%nat →
  convert_btn_text (foldl deliver w t) = convert_btn_text w
  ∧ convert_btn_enabled (foldl deliver w t) = convert_btn_enabled w.
Proof.
  revert w. induction t as [|ev t IH]; intros w; [done|].
  rewrite count_cons. destruct (is_complete ev) eqn:Hev; [done|].
  intros Ht. cbn [foldl]. destruct (IH (deliver w ev) Ht) as [-> ->].
  by apply deliver_text.
Qed.

Lemma cut_events_facts (call : SessionCall) (e : Exn) (levs : list Event) :
  Forall (λ ev, is_job_step ev = true) levs →
  last (cut_events call e levs) = Some (SessionError call e)
  ∧ count is_complete (cut_events call e levs) = 0%nat
  ∧ count is_finalize (cut_events call e levs) = 0%nat
  ∧ count is_dispatch (cut_events call e levs)
    = (if acquired_before call then 1 else 0)%nat
  ∧ count is_quit (cut_events call e levs)
    = (if released_before call then 1 else 0)%nat.
Proof.
  intros Hsteps.
  assert (count is_complete levs = 0 ∧ count is_finalize levs = 0
          ∧ count is_dispatch levs = 0 ∧ count is_quit levs = 0)%nat
    as (H1 & H2 & H3 & H4).
  { split_and!; apply count_zero; (eapply Forall_impl; [exact Hsteps|]);
      by intros []. }
  destruct call; cbn [cut_events acquired_before released_before];
    rewrite ?last_app, ?count_app, ?count_cons, ?count_nil, ?H1, ?H2, ?H3, ?H4;
    by cbn.
Qed.

(** C4, as the worker has it.  A job whose session calls (the calls that
    set up and release the automation session, made outside of every [try])
    all return emits [conversion_complete] exactly once, as its last
    operation, with "Conversion cancelled." when the flag, read just before,
    is set and "All files processed." otherwise.  There is no third message:
    when Cancel is never pressed and every call to the workbook interface
    raises, the message is still "All files processed.", nothing is
    converted, and every file has its own "Failed to convert" line.  A job
    one of whose session calls raises ends there with that exception and
    emits no terminal signal. *)
Theorem one_terminal_event :
  match convert_files session engine chmod cancel_click replace_existing
          (new_worker fs out rs dir) with
  | Returned _ st' =>
      first_failure session = None
      ∧ ∃ pre c,
          trace st'
          = pre ++ [IsCancelled c;
                    ConversionComplete (if c then "Conversion cancelled."
                                        else "All files processed.")]
          ∧ count is_complete pre = 0%nat
          ∧ count is_complete (trace st') = 1%nat
          ∧ c = pressed cancel_click (length pre)
          ∧ (cancel_click = None → (∀ k, engine k ≠ None) →
             c = false
             ∧ saved_pdf_paths st' = []
             ∧ failed_files (trace st') = map basename fs)
  | Raised e st' =>
      ∃ call, first_failure session = Some (call, e)
              ∧ session call = Some e
              ∧ last (trace st') = Some (SessionError call e)
              ∧ count is_complete (trace st') = 0%nat
  end.
Proof.
  destruct (first_failure session) as [[call e]|] eqn:Hfirst.
  - destruct (job_is_cut call e Hfirst)
      as (st' & processed & levs & -> & Hcall & Ht & G & _).
    destruct (cut_events_facts call e levs
                (loop_events_job_steps _ _ _ _ _ _ _ G)) as (Hlast & Hc & _).
    exists call. rewrite Ht. done.
  - rewrite (job_of_a_good_session _ Hfirst).
    destruct (terminal_event_of_a_run engine chmod cancel_click replace_existing
                fs out rs dir) as (st' & pre & c & -> & H).
    split; [done|]. by exists pre, c.
Qed.

(** C9, as the worker has it.  In a job whose session calls all return,
    whatever the workbook interface does and whenever Cancel is pressed, the
    handle is acquired once ([Dispatch]) at the start and released once
    ([Quit]) after the operations on the files, before the finalization and
    the terminal signal, and all the calls to the workbook interface lie
    between the two.  Nothing protects the job against an exception of a
    session call: the job ends at the call that raises, so the handle is
    acquired at most once and released at most once, it is held and never
    released when [Visible = False] or [Quit] raises, and then neither the
    finalization nor the terminal signal takes place. *)
Theorem engine_acquired_and_released_once :
  match convert_files session engine chmod cancel_click replace_existing
          (new_worker fs out rs dir) with
  | Returned _ st' =>
      first_failure session = None
      ∧ ∃ body saved fin c,
          trace st'
          = [CoInitialize; Dispatch; SetVisible false] ++ body
            ++ [Quit; CoUninitialize; FinalizeFilenames saved] ++ fin
            ++ [IsCancelled c; ConversionComplete (terminal_message c)]
          ∧ Forall (λ ev, is_job_step ev = true) body
          ∧ Forall (λ ev, is_job_step ev = true ∧ is_engine_call ev = false) fin
          ∧ count is_dispatch (trace st') = 1%nat
          ∧ count is_quit (trace st') = 1%nat
  | Raised e st' =>
      ∃ call body,
        first_failure session = Some (call, e)
        ∧ trace st' = cut_events call e body
        ∧ Forall (λ ev, is_job_step ev = true) body
        ∧ count is_dispatch (trace st') = (if acquired_before call then 1 else 0)%nat
        ∧ count is_quit (trace st') = (if released_before call then 1 else 0)%nat
        ∧ count is_finalize (trace st') = 0%nat
        ∧ count is_complete (trace st') = 0%nat
  end.
Proof.
  destruct (first_failure session) as [[call e]|] eqn:Hfirst.
  - destruct (job_is_cut call e Hfirst)
      as (st' & processed & levs & -> & Hcall & Ht & G & _).
    pose proof (loop_events_job_steps _ _ _ _ _ _ _ G) as Hsteps.
    destruct (cut_events_facts call e levs Hsteps) as (_ & Hc & Hf & Hd & Hq).
    exists call, levs. rewrite Ht. done.
  - rewrite (job_of_a_good_session _ Hfirst).
    destruct (session_of_a_run engine chmod cancel_click
                replace_existing fs out rs dir)
      as (st' & body & saved & fin & c & -> & H).
    split; [done|]. by exists body, saved, fin, c.
Qed.

(** X5.  With the operations of a job delivered to the window in the order
    of emission, whatever state the window was in and whatever the session
    does: the calls made on [log_text.append] are exactly the texts sent
    through [progress_update] and [conversion_complete], in that order,
    after those made before.  When the job returns, the last of these texts
    is the terminal message, and the button is enabled again and reads
    "Convert to PDF".  When the job ends with the exception of a session
    call, no terminal signal is sent and the button is left as it was:
    reading "Cancel" if the job was started by a click, and disabled if
    Cancel had been pressed. *)
Theorem window_after_a_job (w : Window) :
  let r := convert_files session engine chmod cancel_click replace_existing
             (new_worker fs out rs dir) in
  let w' := foldl deliver w (trace (final_state r)) in
  log_text w' = log_text w ++ signal_lines (trace (final_state r))
  ∧ match r with
    | Returned _ st' =>
        ∃ c, last (signal_lines (trace st')) = Some (terminal_message c)
             ∧ convert_btn_text w' = "Convert to PDF"
             ∧ convert_btn_enabled w' = true
    | Raised e st' =>
        count is_complete (trace st') = 0%nat
        ∧ convert_btn_text w' = convert_btn_text w
        ∧ convert_btn_enabled w' = convert_btn_enabled w
    end.
Proof.
  intros r w'. split; [apply deliver_log|]. subst w' r.
  destruct (first_failure session) as [[call e]|] eqn:Hfirst.
  - destruct (job_is_cut call e Hfirst)
      as (st' & processed & levs & -> & Hcall & Ht & G & _).
    destruct (cut_events_facts call e levs
                (loop_events_job_steps _ _ _ _ _ _ _ G)) as (_ & Hc & _).
    cbn [final_state]. rewrite Ht. split; [done|].
    by apply deliver_keeps_button.
  - rewrite (job_of_a_good_session _ Hfirst).
    destruct (job_runs engine chmod cancel_click replace_existing fs out rs dir)
      as (st' & processed & c & levs & fevs & -> & Ht & _).
    cbn [final_state]. exists c.
    assert (∃ pre, trace st' = pre ++ [ConversionComplete (terminal_message c)])
      as [pre Hpre].
    { rewrite Ht. unfold job_events.
      eexists ([_; _; _] ++ levs ++ [_; _; _] ++ fevs ++ [_]).
      rewrite <- !app_assoc. done. }
    rewrite Hpre. split_and!; try apply deliver_button.
    rewrite signal_lines_app. cbn. by rewrite last_snoc.
Qed.

End AnySession.

(** X18.  A click on the button while it reads "Cancel" sets the flag of
    the worker and disables the button, and does nothing else: the
    parameters of the worker, the selection, the log, the bar and the number
    of threads are as before.  Until the terminal signal arrives further
    clicks are not passed to the slot, and the flag stays set. *)
Theorem cancel_click_sets_the_flag (gs : list GuiEvent) (dir dir' : gset string) :
  ∃ a, gui_run new_app gs = inr a
       ∧ (convert_btn_text (window a) = "Cancel" →
          convert_btn_enabled (window a) = true →
          ∃ a' w w',
            gui_step a (ClickConvert dir) = inr a'
            ∧ worker a = Some w ∧ worker a' = Some w'
            ∧ cancelled w' = true
            ∧ files w' = files w ∧ output_dir w' = output_dir w
            ∧ retries w' = retries w
            ∧ convert_btn_enabled (window a') = false
            ∧ convert_btn_text (window a') = "Cancel"
            ∧ log_text (window a') = log_text (window a)
            ∧ progress_bar (window a') = progress_bar (window a)
            ∧ selected_files a' = selected_files a
            ∧ threads_started a' = threads_started a
            ∧ gui_step a' (ClickConvert dir') = inr a').
Proof.
  destruct (gui_run_inv gs) as (a & E & [_ _ Hbusy _] & _).
  exists a. split; [done|]. intros Htext Hen.
  destruct (Hbusy Htext) as [[w Hw] _].
  cbn [gui_step]. rewrite Hen. unfold toggle_conversion. rewrite Htext, Hw.
  cbn [String.eqb Ascii.eqb Bool.eqb].
  eexists _, w, _. split; [done|]. split; [done|]. split; [done|].
  split_and!; done.
Qed.

(** ** The calls to the workbook interface *)

Section EngineInv.

Context {os_path : OsPath}.
Variable session : SessionCall → option Exn.
Variable engine : nat → option Exn.
Variable chmod : string → option Exn.
Variable cancel_click : option nat.
Variable replace_existing : bool.

Lemma engine_outcomes_app (t1 t2 : list Event) :
  engine_outcomes (t1 ++ t2) = engine_outcomes t1 ++ engine_outcomes t2.
Proof. unfold engine_outcomes. apply omap_app. Qed.

Lemma engine_outcomes_one (ev : Event) :
  engine_outcomes [ev] = match outcome_of ev with Some r => [r] | None => [] end.
Proof. unfold engine_outcomes. cbn. by destruct (outcome_of ev). Qed.

Lemma engine_inv_record (ev : Event) (st : State) :
  outcome_of ev = None →
  engine_inv engine st → engine_inv engine (record ev (gui_thread cancel_click st)).
Proof.
  intros Hev Hinv. unfold engine_inv in *.
  destruct (gui_thread_fields cancel_click st) as (Ht & _ & _ & _ & _ & Hc & _).
  cbn [record set_trace trace calls].
  rewrite Ht, Hc, engine_outcomes_app, Hinv, engine_outcomes_one, Hev.
  by rewrite app_nil_r.
Qed.

Lemma engine_inv_op (ev : Event) :
  outcome_of ev = None → preserves (engine_inv engine) (op cancel_click ev).
Proof. intros Hev st Hinv. by apply engine_inv_record. Qed.

Lemma engine_inv_session_call (call : SessionCall) (ev : Event) :
  outcome_of ev = None →
  preserves (engine_inv engine) (session_call session cancel_click call ev).
Proof.
  intros Hev st Hinv. unfold session_call.
  destruct (session call) as [e|]; cbn [final_state];
    by apply engine_inv_record.
Qed.

Lemma engine_inv_is_cancelled :
  preserves (engine_inv engine) (is_cancelled cancel_click).
Proof. intros st Hinv. by apply engine_inv_record. Qed.

Lemma engine_inv_modify (f : State → State) :
  (∀ st, trace (f st) = trace st ∧ calls (f st) = calls st) →
  preserves (engine_inv engine) (modify f).
Proof.
  intros Hf st Hinv. unfold engine_inv in *. cbn [modify final_state].
  destruct (Hf st) as [-> ->]. done.
Qed.

Lemma engine_inv_engine_call (ev : option Exn → Event) :
  (∀ r, outcome_of (ev r) = Some r) →
  preserves (engine_inv engine) (engine_call engine cancel_click ev).
Proof.
  intros Hev st Hinv. unfold engine_inv in *.
  destruct (gui_thread_fields cancel_click st) as (Ht & _ & _ & _ & _ & Hc & _).
  assert (engine_outcomes
            (trace st ++ [ev (engine (calls st))])
          = map engine (seq 0 (S (calls st)))) as Hnew.
  { by rewrite engine_outcomes_app, Hinv, seq_S, map_app,
      engine_outcomes_one, Hev. }
  unfold engine_call. rewrite Hc.
  destruct (engine (calls st)) eqn:He;
    cbn [final_state set_calls record set_trace trace calls];
    by rewrite Ht.
Qed.

Lemma engine_inv_path_exists (path : string) :
  preserves (engine_inv engine) (path_exists cancel_click path).
Proof. intros st Hinv. by apply engine_inv_record. Qed.

Lemma engine_inv_os_rename (src dst : string) :
  preserves (engine_inv engine) (os_rename cancel_click replace_existing src dst).
Proof.
  intros st Hinv. unfold os_rename.
  destruct (gui_thread_fields cancel_click st) as (Ht & _ & _ & _ & _ & Hc & Hl).
  destruct (rename_in _ _ _ _) eqn:Hr; cbn [final_state].
  - by apply engine_inv_record.
  - pose proof (engine_inv_record (Rename src dst None) st eq_refl Hinv) as H.
    unfold engine_inv in *. exact H.
Qed.

Ltac engine_preserve :=
  repeat first
    [ solve [auto]
    | apply preserves_ret
    | apply preserves_gets
    | apply preserves_raise
    | apply engine_inv_is_cancelled
    | apply engine_inv_path_exists
    | apply engine_inv_os_rename
    | apply engine_inv_op; done
    | apply engine_inv_session_call; done
    | apply engine_inv_engine_call; done
    | apply engine_inv_modify; done
    | apply preserves_bind; [|intros ?]
    | apply preserves_try; [|intros ?]
    | progress unfold progress_update, export, reset_permissions
    | case_match ].

Lemma engine_inv_retry_loop (attempts : list Z) (file file_name pdf_path : string) :
  preserves (engine_inv engine)
    (retry_loop engine cancel_click attempts file file_name pdf_path).
Proof.
  induction attempts as [|attempt rest IH]; cbn [retry_loop];
    unfold attempt_conversion; engine_preserve.
Qed.

Lemma engine_inv_process_file (file : string) (total processed : Z) :
  preserves (engine_inv engine)
    (process_file engine chmod cancel_click file total processed).
Proof.
  pose proof engine_inv_retry_loop. unfold process_file. engine_preserve.
Qed.

Lemma engine_inv_files_loop (fs : list string) (total processed : Z) :
  preserves (engine_inv engine)
    (files_loop engine chmod cancel_click fs total processed).
Proof.
  pose proof engine_inv_process_file. revert processed.
  induction fs as [|file rest IH]; intros processed; cbn [files_loop];
    engine_preserve.
Qed.

Lemma engine_inv_finalize_loop (paths : list string) :
  preserves (engine_inv engine)
    (finalize_loop cancel_click replace_existing paths).
Proof.
  induction paths as [|p rest IH]; cbn [finalize_loop];
    unfold finalize_one; engine_preserve.
Qed.

Lemma engine_inv_convert_files :
  preserves (engine_inv engine)
    (convert_files session engine chmod cancel_click replace_existing).
Proof.
  pose proof engine_inv_files_loop. pose proof engine_inv_finalize_loop.
  unfold convert_files, finalize_filenames. engine_preserve.
Qed.

End EngineInv.

Section MoreTraceFacts.

Context {os_path : OsPath}.
Variables (out : string) (rs total : Z).

Lemma length_converted_paths (t : list Event) :
  length (converted_paths t) = count is_converted_line t.
Proof.
  induction t as [|ev t IH]; [done|].
  change (ev :: t) with ([ev] ++ t) at 1.
  rewrite converted_paths_app, length_app, IH, count_cons.
  by destruct ev as [| | | | | |[]| | | | | | | | | | | |].
Qed.

Lemma length_failed_files (t : list Event) :
  length (failed_files t) = count is_failed_line t.
Proof.
  induction t as [|ev t IH]; [done|].
  change (ev :: t) with ([ev] ++ t) at 1.
  rewrite failed_files_app, length_app, IH, count_cons.
  by destruct ev as [| | | | | |[]| | | | | | | | | | | |].
Qed.

(** The framing operations of a job and the finalization do not count. *)
Lemma count_job_events (f : Event → bool) (saved : list string) (c : bool)
    (levs fevs : list Event) :
  (∀ ev, is_job_step ev = false → f ev = false) →
  (∀ b, f (IsCancelled b) = false) →
  Forall (λ ev, f ev = false) fevs →
  count f (job_events saved c levs fevs) = count f levs.
Proof.
  intros Hframe Hread Hfin. unfold job_events.
  rewrite !count_app, !count_cons, !count_nil, (count_zero f fevs Hfin).
  rewrite (Hframe CoInitialize), (Hframe Dispatch), (Hframe (SetVisible false)),
    (Hframe Quit), (Hframe CoUninitialize), (Hframe (FinalizeFilenames saved)),
    (Hframe (ConversionComplete _)), Hread by done.
  lia.
Qed.

Lemma finalize_events_quiet (paths : list string) (evs : list Event) :
  finalize_events out paths evs →
  Forall (λ ev, is_open ev = false ∧ is_engine_call ev = false
                ∧ is_sleep ev = false ∧ is_attempt_error ev = false
                ∧ is_converted_line ev = false ∧ is_failed_line ev = false
                ∧ is_chmod ev = false ∧ (∀ b, ev ≠ IsCancelled b)) evs.
Proof.
  induction 1 as [|p rest evs1 evs H1 _ IH]; [done|].
  apply Forall_app. split; [|done].
  destruct H1; repeat constructor; done.
Qed.

(** What one file leaves in the two lists of results. *)
Lemma file_events_verdict (file : string) (p p' : Z) (evs : list Event) :
  file_events out rs total file p p' evs →
  (converted_paths evs = [pdf_path_of out file] ∧ failed_files evs = [])
  ∨ (converted_paths evs = [] ∧ failed_files evs = [basename file])
  ∨ (converted_paths evs = [] ∧ failed_files evs = []
     ∧ IsCancelled true ∈ evs).
Proof.
  destruct 1 as [chm r revs c1 c2 percent Hretry Hb Hc Hp].
  pose proof (retry_events_converted _ _ _ _ _ _ _ Hretry) as Hconv.
  pose proof (retry_events_failed_files _ _ _ _ _ _ _ Hretry) as Hfail.
  rewrite !converted_paths_app, !failed_files_app, Hconv, Hfail.
  assert (converted_paths (chmod_events file chm) = []) as ->
    by (by destruct chm).
  assert (failed_files (chmod_events file chm) = []) as ->
    by (by destruct chm).
  assert (converted_paths (count_events c2 percent) = []) as ->
    by (by destruct c2).
  assert (failed_files (count_events c2 percent) = []) as ->
    by (by destruct c2).
  destruct r; cbn [success_of report_events app].
  - destruct c1; cbn; [|by right; left].
    right. right. split_and!; try done. set_solver.
  - destruct c1; cbn; [|by right; left].
    right. right. split_and!; try done. set_solver.
  - by left.
Qed.

Lemma loop_events_verdicts (fs : list string) (p p' : Z) (evs : list Event) :
  loop_events out rs total fs p p' evs →
  converted_paths evs `sublist_of` map (pdf_path_of out) fs
  ∧ failed_files evs `sublist_of` map basename fs
  ∧ (length (converted_paths evs) + length (failed_files evs) ≤ length fs)%nat
  ∧ (IsCancelled true ∉ evs →
     (length (converted_paths evs) + length (failed_files evs))%nat = length fs).
Proof.
  induction 1 as [p|file rest p|file rest p p1 p' fevs evs Hfile _ IH].
  - split_and!; try done.
  - split_and!; cbn; try apply sublist_nil_l; [lia|]. set_solver.
  - destruct IH as (IH1 & IH2 & IH3 & IH4).
    change (IsCancelled false :: fevs ++ evs)
      with ([IsCancelled false] ++ fevs ++ evs).
    rewrite !converted_paths_app, !failed_files_app, !length_app.
    cbn [converted_paths failed_files omap list_omap app length map].
    destruct (file_events_verdict _ _ _ _ Hfile)
      as [[-> ->]|[[-> ->]|(-> & -> & Hc)]]; cbn [app length].
    + split_and!; [by apply sublist_skip | by apply sublist_cons | lia |].
      intros Hnc. rewrite <- IH4; [lia|]. set_solver.
    + split_and!; [by apply sublist_cons | by apply sublist_skip | lia |].
      intros Hnc. rewrite <- IH4; [lia|]. set_solver.
    + split_and!; [by apply sublist_cons | by apply sublist_cons | lia |].
      intros Hnc. exfalso. apply Hnc. set_solver.
Qed.

(** The attempts of a whole loop. *)
Lemma loop_events_counts (fs : list string) (p p' : Z) (evs : list Event) :
  loop_events out rs total fs p p' evs →
  (count is_open evs ≤ length fs * Z.to_nat rs)%nat
  ∧ count is_open evs
    = (count is_attempt_error evs + count is_converted_line evs)%nat
  ∧ count is_sleep evs = count is_attempt_error evs.
Proof.
  induction 1 as [p|file rest p|file rest p p1 p' fevs evs Hfile _ IH].
  - done.
  - split_and!; try done. rewrite !count_cons, count_nil. cbn. lia.
  - destruct IH as (IH1 & IH2 & IH3).
    destruct (file_events_facts _ _ _ _ _ _ _ Hfile)
      as (F1 & F2 & _ & _ & _ & F3 & _).
    rewrite !count_cons, !count_app. cbn [is_open is_attempt_error
      is_converted_line is_sleep length]. lia.
Qed.

End MoreTraceFacts.

Section AfterCheck.

Context {os_path : OsPath}.
Variables (out : string) (rs total : Z).

Ltac at_position j Hj :=
  repeat (destruct j as [|j]; cbn in Hj; simplify_eq; try done).

Lemma after_check_app (P : Event → bool) (t1 t2 : list Event) :
  after_check P t1 → after_check P t2 → quiet_head P t2 →
  after_check P (t1 ++ t2).
Proof.
  intros H1 H2 Hhead j ev Hj HP.
  apply lookup_app_Some in Hj as [Hj|[Hlen Hj]].
  - destruct (H1 _ _ Hj HP) as (j' & -> & Hread). exists j'. split; [done|].
    by rewrite lookup_app_l by (apply lookup_lt_Some in Hread; lia).
  - destruct (H2 _ _ Hj HP) as (j' & Hj' & Hread).
    exists (length t1 + j')%nat. split; [lia|].
    rewrite lookup_app_r by lia.
    by replace (length t1 + j' - length t1)%nat with j' by lia.
Qed.

Lemma quiet_head_app (P : Event → bool) (t1 t2 : list Event) :
  quiet_head P t1 → quiet_head P t2 → quiet_head P (t1 ++ t2).
Proof.
  intros H1 H2 ev Hev. destruct t1 as [|x t1]; [by apply H2 | by apply H1].
Qed.

Lemma after_check_none (P : Event → bool) (t : list Event) :
  Forall (λ ev, P ev = false) t → after_check P t ∧ quiet_head P t.
Proof.
  rewrite Forall_lookup. intros Hnone. split.
  - intros j ev Hj HP. specialize (Hnone _ _ Hj). congruence.
  - intros ev Hev. by apply (Hnone 0%nat).
Qed.

Lemma retry_events_go_on (file file_name pdf_path : string)
    (attempts : list Z) (r : RetryEnd) (evs : list Event) :
  retry_events rs file file_name pdf_path attempts r evs →
  Forall (λ ev, goes_on ev = false) evs.
Proof.
  induction 1 as [| | |attempt rest e calls r evs Hcalls _ IH];
    try (repeat constructor; done).
  apply Forall_app. split; [|done]. unfold failed_attempt.
  repeat first [apply Forall_app; split | apply Forall_cons; split
               | apply Forall_nil ]; try done.
  destruct Hcalls; repeat constructor; done.
Qed.

(** One file, with the check that lets it in. *)
Lemma file_events_after_check (file : string) (p p' : Z) (evs : list Event) :
  file_events out rs total file p p' evs →
  after_check goes_on (IsCancelled false :: evs).
Proof.
  destruct 1 as [chm r revs c1 c2 percent Hretry Hb Hc Hp].
  destruct (after_check_none goes_on revs (retry_events_go_on _ _ _ _ _ _ Hretry))
    as [Hrevs Hrevs'].
  change (IsCancelled false :: chmod_events file chm ++ revs
            ++ report_events rs (basename file) r c1 ++ count_events c2 percent)
    with ((IsCancelled false :: chmod_events file chm) ++ revs
            ++ report_events rs (basename file) r c1 ++ count_events c2 percent).
  assert (after_check goes_on (report_events rs (basename file) r c1)
          ∧ quiet_head goes_on (report_events rs (basename file) r c1))
    as [Hrep Hrep'].
  { split.
    - intros j ev Hj HP. destruct r, c1; at_position j Hj; by exists 0%nat.
    - intros ev Hev. destruct r, c1; by simplify_eq/=. }
  assert (after_check goes_on (count_events c2 percent)
          ∧ quiet_head goes_on (count_events c2 percent)) as [Hcnt Hcnt'].
  { split.
    - intros j ev Hj HP. destruct c2; at_position j Hj; by exists 0%nat.
    - intros ev Hev. destruct c2; by simplify_eq/=. }
  repeat first [ apply after_check_app | apply quiet_head_app ]; try done.
  intros j ev Hj HP. destruct chm; at_position j Hj; by exists 0%nat.
Qed.

Lemma loop_events_after_check (fs : list string) (p p' : Z) (evs : list Event) :
  loop_events out rs total fs p p' evs →
  after_check goes_on evs ∧ quiet_head goes_on evs.
Proof.
  induction 1 as [p|file rest p|file rest p p1 p' fevs evs Hfile _ [IH IH']].
  - by apply after_check_none.
  - apply after_check_none. repeat constructor; done.
  - split; [|by intros ev [= <-]].
    change (IsCancelled false :: fevs ++ evs)
      with ((IsCancelled false :: fevs) ++ evs).
    apply after_check_app; try done. by eapply file_events_after_check.
Qed.

Lemma finalize_events_go_on (paths : list string) (evs : list Event) :
  finalize_events out paths evs → Forall (λ ev, goes_on ev = false) evs.
Proof.
  induction 1 as [|q rest evs1 evs H1 _ IH]; [done|].
  apply Forall_app. split; [|done].
  destruct H1; repeat constructor; done.
Qed.

Lemma job_events_after_check (fs saved : list string) (p p' : Z) (c : bool)
    (levs fevs : list Event) :
  loop_events out rs total fs p p' levs →
  finalize_events out saved fevs →
  after_check goes_on (job_events saved c levs fevs).
Proof.
  intros Hloop Hfin. unfold job_events.
  destruct (loop_events_after_check _ _ _ _ Hloop) as [Hl Hl'].
  destruct (after_check_none goes_on fevs (finalize_events_go_on _ _ Hfin))
    as [Hf Hf'].
  repeat first [ apply after_check_app | apply quiet_head_app ]; try done;
    try (by intros ev [= <-]);
    by (intros j ev Hj HP; at_position j Hj).
Qed.

End AfterCheck.

Section Calls.

Context {os_path : OsPath}.
Variables (out : string) (rs total : Z).

Lemma retry_events_calls (file file_name pdf_path : string)
    (attempts : list Z) (r : RetryEnd) (evs : list Event) :
  retry_events rs file file_name pdf_path attempts r evs →
  (count is_engine_call evs ≤ 3 * count is_open evs)%nat.
Proof.
  induction 1 as [| | |attempt rest e calls r evs Hcalls _ IH].
  - done.
  - rewrite !count_cons, !count_nil. cbn. lia.
  - unfold good_attempt. rewrite !count_cons, !count_nil. cbn. lia.
  - unfold failed_attempt. rewrite !count_app, !count_cons, !count_nil.
    cbn [is_engine_call is_open].
    assert (count is_engine_call calls ≤ 3 ∧ count is_open calls = 1)%nat
      as [? ?].
    { destruct Hcalls; rewrite !count_cons, !count_nil; cbn; lia. }
    lia.
Qed.

Lemma file_events_calls (file : string) (p p' : Z) (evs : list Event) :
  file_events out rs total file p p' evs →
  (count is_engine_call evs ≤ 3 * count is_open evs)%nat.
Proof.
  destruct 1 as [chm r revs c1 c2 percent Hretry Hb Hc Hp].
  pose proof (retry_events_calls _ _ _ _ _ _ Hretry).
  rewrite !count_app.
  assert (count is_engine_call (chmod_events file chm) = 0%nat) as ->
    by (by destruct chm).
  assert (count is_engine_call (report_events rs (basename file) r c1) = 0%nat)
    as -> by (by destruct r, c1).
  assert (count is_engine_call (count_events c2 percent) = 0%nat) as ->
    by (by destruct c2).
  lia.
Qed.

Lemma loop_events_calls (fs : list string) (p p' : Z) (evs : list Event) :
  loop_events out rs total fs p p' evs →
  (count is_engine_call evs ≤ 3 * count is_open evs)%nat.
Proof.
  induction 1 as [p|file rest p|file rest p p1 p' fevs evs Hfile _ IH].
  - done.
  - rewrite !count_cons, !count_nil. cbn. lia.
  - pose proof (file_events_calls _ _ _ _ Hfile).
    rewrite !count_cons, !count_app. cbn [is_engine_call is_open]. lia.
Qed.

End Calls.

Section FirstTry.

Context {os_path : OsPath}.
Variables (out : string) (rs total : Z).

Lemma range_cons (a b : Z) : a < b → range a b = a :: range (a + 1) b.
Proof.
  intros Hab. unfold range.
  replace (Z.to_nat (b - a)) with (S (Z.to_nat (b - (a + 1)))) by lia.
  cbn [seq map]. f_equal; [lia|].
  rewrite <- seq_shift, map_map. apply map_ext. intros i. lia.
Qed.

Lemma range_nil (a b : Z) : b ≤ a → range a b = [].
Proof. intros Hab. unfold range. by replace (Z.to_nat (b - a)) with 0%nat by lia. Qed.

Lemma attempts_announced_app (t1 t2 : list Event) :
  attempts_announced (t1 ++ t2) = attempts_announced t1 ++ attempts_announced t2.
Proof. unfold attempts_announced. apply omap_app. Qed.

(** When no call raises and the flag is never read as set, the first
    attempt of a retry loop goes through. *)
Lemma retry_events_first_try (file file_name pdf_path : string) (attempt : Z)
    (rest : list Z) (r : RetryEnd) (evs : list Event) :
  retry_events rs file file_name pdf_path (attempt :: rest) r evs →
  no_call_raised evs → IsCancelled true ∉ evs →
  r = Succeeded ∧ evs = good_attempt rs file file_name pdf_path attempt.
Proof.
  intros Hretry Hquiet Hnc.
  inversion Hretry as [| | |a rest' e calls r' evs' Hcalls Hrest]; subst.
  - exfalso. apply Hnc. set_solver.
  - done.
  - exfalso. unfold failed_attempt, no_call_raised in Hquiet.
    rewrite !Forall_app in Hquiet. destruct Hquiet as [(_ & Hq & _) _].
    destruct Hcalls; repeat match goal with
      | H : Forall _ (_ :: _) |- _ => apply Forall_cons in H as [? H]
      end; naive_solver.
Qed.

Lemma file_events_first_try (file : string) (p p' : Z) (evs : list Event) :
  1 ≤ rs →
  file_events out rs total file p p' evs →
  no_call_raised evs → IsCancelled true ∉ evs →
  converted_paths evs = [pdf_path_of out file]
  ∧ attempts_announced evs = [1]
  ∧ count is_open evs = 1%nat
  ∧ count is_engine_call evs = 3%nat.
Proof.
  intros Hrs Hfile Hquiet Hnc.
  destruct Hfile as [chm r revs c1 c2 percent Hretry Hb Hc Hp].
  rewrite range_cons in Hretry by lia.
  unfold no_call_raised in Hquiet. rewrite !Forall_app in Hquiet.
  destruct Hquiet as (_ & Hq & _).
  destruct (retry_events_first_try _ _ _ _ _ _ _ Hretry Hq) as [-> ->].
  { intros Hin. apply Hnc. set_solver. }
  rewrite !converted_paths_app, !attempts_announced_app, !count_app.
  cbn [report_events app].
  assert (c2 = false) as ->.
  { destruct c2; [|done]. exfalso. apply Hnc. set_solver. }
  by destruct chm.
Qed.

Lemma loop_events_first_try (fs : list string) (p p' : Z) (evs : list Event) :
  1 ≤ rs →
  loop_events out rs total fs p p' evs →
  no_call_raised evs → IsCancelled true ∉ evs →
  converted_paths evs = map (pdf_path_of out) fs
  ∧ attempts_announced evs = replicate (length fs) 1
  ∧ count is_open evs = length fs
  ∧ count is_engine_call evs = (3 * length fs)%nat.
Proof.
  intros Hrs Hloop. induction Hloop
    as [p|file rest p|file rest p p1 p' fevs evs Hfile _ IH]; intros Hquiet Hnc.
  - done.
  - exfalso. apply Hnc. set_solver.
  - apply Forall_cons in Hquiet as [_ Hquiet].
    apply Forall_app in Hquiet as [Hq1 Hq2].
    destruct (file_events_first_try _ _ _ _ Hrs Hfile Hq1) as (F1 & F2 & F3 & F4).
    { intros Hin. apply Hnc. set_solver. }
    destruct (IH Hq2) as (L1 & L2 & L3 & L4).
    { intros Hin. apply Hnc. set_solver. }
    change (IsCancelled false :: fevs ++ evs)
      with ([IsCancelled false] ++ fevs ++ evs).
    rewrite !converted_paths_app, !attempts_announced_app, !count_app.
    rewrite F1, F2, F3, F4, L1, L2, L3, L4. split_and!; try done.
    cbn [length]. rewrite count_cons, count_nil. cbn. lia.
Qed.

End FirstTry.

Section JobFacts.

Context {os_path : OsPath}.
Variable engine : nat → option Exn.
Variable chmod : string → option Exn.
Variable cancel_click : option nat.
Variable replace_existing : bool.
Variables (fs : list string) (out : string) (rs : Z) (dir : gset string).

(** The job, with a session whose calls return. *)
Abbreviation job :=
  (convert_files session_ok engine chmod cancel_click replace_existing
     (new_worker fs out rs dir)).

(** X6.  Over a whole job there are at most [retries] attempts per file,
    every attempt either raises or converts its file, there is one pause of
    one second per attempt that raised and no other pause, a path is
    recorded for each attempt that converted, and an attempt makes at most
    three calls to the workbook interface. *)
Theorem attempts_of_a_job :
  ∃ st',
    job = Returned tt st'
    ∧ (count is_open (trace st') ≤ length fs * Z.to_nat rs)%nat
    ∧ count is_open (trace st')
      = (count is_attempt_error (trace st') + length (saved_pdf_paths st'))%nat
    ∧ count is_sleep (trace st') = count is_attempt_error (trace st')
    ∧ (count is_engine_call (trace st') ≤ 3 * count is_open (trace st'))%nat
    ∧ (length (saved_pdf_paths st') ≤ length fs)%nat.
Proof.
  destruct (job_runs engine chmod cancel_click replace_existing fs out rs dir)
    as (st' & processed & c & levs & fevs & E & Ht & Hsaved & G & F & _).
  pose proof (finalize_events_quiet _ _ _ F) as Hq.
  destruct (loop_events_counts _ _ _ _ _ _ _ G) as (C1 & C2 & C3).
  pose proof (loop_events_calls _ _ _ _ _ _ _ G) as C4.
  destruct (loop_events_verdicts _ _ _ _ _ _ _ G) as (_ & _ & V & _).
  assert (∀ f, (∀ ev, is_job_step ev = false → f ev = false) →
               (∀ b, f (IsCancelled b) = false) →
               Forall (λ ev, f ev = false) fevs →
               count f (trace st') = count f levs) as Hcount.
  { intros f H1 H2 H3. rewrite Ht. by apply count_job_events. }
  exists st'. split; [done|].
  rewrite (Hcount is_open), (Hcount is_attempt_error), (Hcount is_sleep),
    (Hcount is_engine_call), Hsaved, length_converted_paths;
    try (by intros []);
    try (eapply Forall_impl; [exact Hq|]; by intros ev (?&?&?&?&?&?&?&?)).
  rewrite length_converted_paths in V. split_and!; lia.
Qed.

Lemma finalize_events_announce (paths : list string) (evs : list Event) :
  finalize_events out paths evs → attempts_announced evs = [].
Proof.
  induction 1 as [|p rest evs1 evs H1 _ IH]; [done|].
  rewrite attempts_announced_app, IH. by destruct H1.
Qed.

Lemma failed_files_none (t : list Event) :
  Forall (λ ev, is_failed_line ev = false) t → failed_files t = [].
Proof.
  induction 1 as [|ev t Hev _ IH]; [done|].
  change (ev :: t) with ([ev] ++ t). rewrite failed_files_app, IH.
  by destruct ev as [| | | | | |[]| | | | | | | | | | | |].
Qed.

(** X7.  The recorded paths are PDF paths of input files, in the order of
    the input, and the "Failed to convert" lines name input files, in the
    order of the input; together there are at most as many of them as
    files.  When Cancel is never pressed there are exactly as many: every
    file is either recorded as converted or reported as failed. *)
Theorem every_file_gets_a_verdict :
  ∃ st',
    job = Returned tt st'
    ∧ saved_pdf_paths st' `sublist_of` map (pdf_path_of out) fs
    ∧ failed_files (trace st') `sublist_of` map basename fs
    ∧ (length (saved_pdf_paths st') + length (failed_files (trace st'))
       ≤ length fs)%nat
    ∧ (cancel_click = None →
       (length (saved_pdf_paths st') + length (failed_files (trace st')))%nat
       = length fs).
Proof.
  destruct (job_runs engine chmod cancel_click replace_existing fs out rs dir)
    as (st' & processed & c & levs & fevs & E & Ht & Hsaved & G & F & Hchecks & _).
  destruct (loop_events_verdicts _ _ _ _ _ _ _ G) as (V1 & V2 & V3 & V4).
  assert (failed_files (trace st') = failed_files levs) as Hfailed.
  { rewrite Ht. unfold job_events. rewrite !failed_files_app.
    rewrite (failed_files_none fevs).
    - cbn. by rewrite app_nil_r.
    - eapply Forall_impl; [exact (finalize_events_quiet _ _ _ F)|].
      by intros ev (?&?&?&?&?&?&?&?). }
  exists st'. rewrite Hsaved, Hfailed. split_and!; try done.
  intros Hclick. apply V4. rewrite Hclick, Ht in Hchecks.
  by apply never_pressed_never_read in Hchecks.
Qed.

(** X8.  With a retry limit of zero or less no attempt is made: the
    workbook interface is not called at all and nothing is recorded; when
    Cancel is never pressed every file is reported as failed, in the order of
    the input. *)
Theorem no_attempt_without_retries :
  rs ≤ 0 →
  ∃ st',
    job = Returned tt st'
    ∧ count is_engine_call (trace st') = 0%nat
    ∧ saved_pdf_paths st' = []
    ∧ (cancel_click = None → failed_files (trace st') = map basename fs).
Proof.
  intros Hrs.
  destruct (job_runs engine chmod cancel_click replace_existing fs out rs dir)
    as (st' & processed & c & levs & fevs & E & Ht & Hsaved & G & F & Hchecks & _).
  pose proof (finalize_events_quiet _ _ _ F) as Hq.
  destruct (loop_events_counts _ _ _ _ _ _ _ G) as (C1 & C2 & _).
  pose proof (loop_events_calls _ _ _ _ _ _ _ G) as C4.
  replace (Z.to_nat rs) with 0%nat in C1 by lia.
  assert (converted_paths levs = []) as Hnone.
  { apply nil_length_inv. rewrite length_converted_paths. lia. }
  exists st'. split; [done|]. rewrite Hsaved, Hnone. split_and!; try done.
  - rewrite Ht, count_job_events; try (by intros []); [lia|].
    eapply Forall_impl; [exact Hq|]. by intros ev (?&?&?&?&?&?&?&?).
  - intros Hclick. rewrite Hclick, Ht in Hchecks.
    apply never_pressed_never_read in Hchecks.
    rewrite Ht. unfold job_events. rewrite !failed_files_app.
    rewrite (loop_events_all_failed _ _ _ _ _ _ _ G Hchecks Hnone).
    rewrite (failed_files_none fevs).
    + cbn. by rewrite app_nil_r.
    + eapply Forall_impl; [exact Hq|]. by intros ev (?&?&?&?&?&?&?&?).
Qed.

End JobFacts.

(** ** The accuracy of the percentage *)

Module Float64Error.
Import Float64 Float64Facts.

(** Rounding to nearest is off by at most half a unit. *)
Lemma rne_error (a b : Z) :
  0 < b → 2 * (rne a b * b) ≤ 2 * a + b ∧ 2 * a ≤ 2 * (rne a b * b) + b.
Proof.
  intros Hb. destruct (div_mod_bounds a b Hb) as [Ha Hr]. unfold rne.
  repeat case_match;
    repeat match goal with
           | H : (_ <? _) = true |- _ => apply Z.ltb_lt in H
           | H : (_ <? _) = false |- _ => apply Z.ltb_ge in H
           end; nia.
Qed.

Lemma round_error (n d : Z) :
  0 < d →
  2 * (round n d * d) ≤ 2 * n + d * ulp n d
  ∧ 2 * n ≤ 2 * (round n d * d) + d * ulp n d.
Proof.
  intros Hd. pose proof (ulp_pos n d) as Hu. unfold round.
  destruct (rne_error n (d * ulp n d)) as [H1 H2]; [nia|]. nia.
Qed.

(** Below [2^k] the spacing is at most [2^(k - 53)]. *)
Lemma ulp_below (n d k : Z) :
  0 < d → 0 ≤ n → prec ≤ k → n < 2 ^ k * d → ulp n d ≤ 2 ^ (k - prec).
Proof.
  intros Hd Hn Hk Hlt. unfold ulp.
  apply Z.pow_le_mono_r; [lia|].
  assert (n / d < 2 ^ k) as Hq by (apply Z.div_lt_upper_bound; lia).
  destruct (decide (0 < n / d)) as [Hpos|Hz].
  - apply Z.log2_lt_pow2 in Hq; [|done]. unfold prec in *. lia.
  - rewrite Z.log2_nonpos by lia. unfold prec in *. lia.
Qed.

End Float64Error.

Section Accuracy.
Import Float64 Float64Facts Float64Error.

(** The float product of the float quotient by [100] is within [2^-45] of
    the exact percentage: in units of [2^-1074], [t] times the product is
    within [164 * t * 2^1021] of [100 * p * 2^1074]. *)
Lemma percent_error (p t : Z) :
  0 ≤ p ≤ t → 0 < t →
  let f2 := mul (true_div p t) (of_int 100) in
  f2 * t ≤ 100 * p * 2 ^ scale + 164 * t * 2 ^ 1021
  ∧ 100 * p * 2 ^ scale ≤ f2 * t + 164 * t * 2 ^ 1021.
Proof.
  intros Hp Ht f2.
  pose proof (pow2_pos 1021 ltac:(done)) as HE.
  assert (2 ^ scale = 2 ^ 53 * 2 ^ 1021) as HS
    by (by rewrite <- Z.pow_add_r).
  assert (0 ≤ true_div p t ≤ 2 ^ scale) as Hf1.
  { split; [apply true_div_nonneg; lia|].
    rewrite <- (true_div_same t Ht). apply true_div_mono; lia. }
  (* the quotient *)
  assert (ulp (p * 2 ^ scale) t ≤ 2 ^ 1022) as Hu1.
  { change 1022 with (1075 - prec). apply ulp_below; [lia| nia |done|].
    change 1075 with (1 + scale). rewrite Z.pow_add_r by done. nia. }
  destruct (round_error (p * 2 ^ scale) t Ht) as [D1 D2].
  fold (true_div p t) in D1, D2.
  (* the product *)
  assert (ulp (true_div p t * of_int 100) (2 ^ scale) ≤ 2 ^ 1028) as Hu2.
  { change 1028 with (1081 - prec). apply ulp_below; [lia| |done|].
    - unfold of_int. nia.
    - unfold of_int. change 1081 with (7 + scale).
      rewrite Z.pow_add_r by done. change (2 ^ 7) with 128. nia. }
  destruct (round_error (true_div p t * of_int 100) (2 ^ scale)) as [M1 M2];
    [lia|].
  fold (mul (true_div p t) (of_int 100)) in M1, M2. fold f2 in M1, M2.
  unfold of_int in *.
  pose proof (ulp_pos (p * 2 ^ scale) t).
  pose proof (ulp_pos (true_div p t * (100 * 2 ^ scale)) (2 ^ scale)).
  change (2 ^ 1022) with (2 * 2 ^ 1021) in Hu1.
  change (2 ^ 1028) with (128 * 2 ^ 1021) in Hu2.
  revert D1 D2 M1 M2 Hu1 Hu2 Hf1 HS HE H H0.
  generalize (ulp (p * 2 ^ scale) t) (ulp (true_div p t * (100 * 2 ^ scale)) (2 ^ scale)).
  generalize (true_div p t). generalize f2. clear f2.
  generalize (2 ^ scale) (2 ^ 1021). intros S E f2 f1 u1 u2. intros.
  subst S. change (2 ^ 53) with 9007199254740992 in *.
  split; nia.
Qed.

(** The percentage sent is the exact percentage rounded down, or one less. *)
Lemma progress_percent_floor (p t v : Z) :
  0 ≤ p ≤ t → 0 < t ≤ 2 ^ 45 →
  progress_percent p t = Some v →
  100 * p / t - 1 ≤ v ≤ 100 * p / t.
Proof.
  intros Hp Ht. unfold progress_percent.
  destruct (Z.eqb_spec t 0); [lia|]. intros [= <-].
  destruct (percent_error p t Hp ltac:(lia)) as [E1 E2].
  pose proof (pow2_pos 1021 ltac:(done)) as HE.
  assert (2 ^ scale = 2 ^ 53 * 2 ^ 1021) as HS
    by (by rewrite <- Z.pow_add_r).
  destruct (div_mod_bounds (100 * p) t ltac:(lia)) as [Hk Hr].
  unfold to_int.
  revert E1 E2 HS HE.
  generalize (mul (true_div p t) (of_int 100)).
  generalize (2 ^ scale) (2 ^ 1021). intros S E f2 E1 E2 -> HE.
  change (2 ^ 53) with 9007199254740992 in *.
  change (2 ^ 45) with 35184372088832 in *.
  set (k := 100 * p / t) in *.
  split.
  - apply Z.div_le_lower_bound; [lia|].
    assert ((k - 1) * (9007199254740992 * E) * t ≤ f2 * t) by nia. nia.
  - assert (f2 / (9007199254740992 * E) < k + 1); [|lia].
    apply Z.div_lt_upper_bound; [lia|].
    assert (f2 * t < (k + 1) * (9007199254740992 * E) * t) by nia. nia.
Qed.

End Accuracy.

Section PercentageAccuracy.

(** X16.  For [p] files counted out of [t], with [t] at most [2^45], the
    percentage computed in floating point is the exact percentage rounded
    down, or one less than that; it is 100 exactly when [p = t], and it does
    not decrease with [p]. *)
Theorem percentage_is_floor_or_one_less (p t : Z) :
  0 ≤ p ≤ t → 0 < t ≤ 2 ^ 45 →
  ∃ v, progress_percent p t = Some v
       ∧ 100 * p / t - 1 ≤ v ≤ 100 * p / t
       ∧ (v = 100 ↔ p = t)
       ∧ (∀ q w, p ≤ q ≤ t → progress_percent q t = Some w → v ≤ w).
Proof.
  intros Hp Ht.
  destruct (progress_percent_defined p t ltac:(lia)) as [v Hv].
  pose proof (progress_percent_floor p t v Hp Ht Hv) as Hfloor.
  exists v. split_and!; try done; try lia.
  - split.
    + intros ->.
      destruct (Float64Facts.div_mod_bounds (100 * p) t ltac:(lia)) as [Hk Hr].
      nia.
    + intros ->. rewrite progress_percent_full in Hv by lia. congruence.
  - intros q w Hq Hw. eapply (progress_percent_mono p q t); eauto; lia.
Qed.

End PercentageAccuracy.

(** ** The percentages of a job *)

Lemma range_snoc (a b : Z) : a ≤ b → range a (b + 1) = range a b ++ [b].
Proof.
  intros Hab. unfold range.
  replace (Z.to_nat (b + 1 - a)) with (S (Z.to_nat (b - a))) by lia.
  rewrite seq_S, map_app. cbn [map]. do 2 f_equal. lia.
Qed.

Lemma percentages_S (n : Z) (m : nat) :
  percentages n (S m)
  = percentages n m ++ option_list (progress_percent (Z.of_nat (S m)) n).
Proof.
  unfold percentages.
  replace (Z.of_nat (S m) + 1) with ((Z.of_nat m + 1) + 1) by lia.
  rewrite range_snoc by lia. rewrite omap_app. f_equal.
  cbn. replace (Z.of_nat m + 1) with (Z.of_nat (S m)) by lia.
  by destruct (progress_percent _ _).
Qed.

Lemma length_percentages (n : Z) (m : nat) :
  n ≠ 0 → length (percentages n m) = m.
Proof.
  intros Hn. induction m as [|m IH]; [done|].
  rewrite percentages_S, length_app, IH.
  destruct (progress_percent_defined (Z.of_nat (S m)) n Hn) as [v ->].
  cbn. lia.
Qed.

Lemma percentages_lookup (n : Z) (m i : nat) (v : Z) :
  n ≠ 0 →
  percentages n m !! i = Some v →
  (i < m)%nat ∧ progress_percent (Z.of_nat (S i)) n = Some v.
Proof.
  intros Hn. induction m as [|m IH]; [done|].
  rewrite percentages_S. intros [Hi|[Hlen Hi]]%lookup_app_Some.
  - destruct (IH Hi). split; [lia | done].
  - rewrite length_percentages in Hlen, Hi by done.
    destruct (progress_percent (Z.of_nat (S m)) n) as [w|] eqn:Hw; [|done].
    destruct (i - m)%nat eqn:Him; [|done]. cbn in Hi. simplify_eq.
    replace i with m by lia. split; [lia | done].
Qed.

Section ProgressOfALoop.

Context {os_path : OsPath}.
Variables (out : string) (rs total : Z).

Lemma loop_events_counted (fs : list string) (p p' : Z) (evs : list Event) :
  loop_events out rs total fs p p' evs →
  p ≤ p' ≤ p + Z.of_nat (length fs)
  ∧ progress_values evs
    = omap (λ k, progress_percent k total) (range (p + 1) (p' + 1)).
Proof.
  induction 1 as [p|file rest p|file rest p p1 p' fevs evs Hfile _ IH].
  - split; [lia|]. by rewrite range_nil by lia.
  - split; [cbn [length]; lia|]. by rewrite range_nil by lia.
  - destruct IH as [Hle IH].
    change (IsCancelled false :: fevs ++ evs)
      with ([IsCancelled false] ++ fevs ++ evs).
    rewrite !progress_values_app, IH. cbn [progress_values omap list_omap app].
    destruct (file_events_progress _ _ _ _ _ _ _ Hfile)
      as [[-> ->]|(-> & v & Hv & ->)].
    + split; [cbn [length]; lia | done].
    + split; [cbn [length]; lia|].
      rewrite (range_cons (p + 1) (p' + 1)) by lia.
      cbn [omap list_omap]. by rewrite Hv.
Qed.

End ProgressOfALoop.

Section Progress.
Import Float64 Float64Facts Float64Error.

Context {os_path : OsPath}.
Variable engine : nat → option Exn.
Variable chmod : string → option Exn.
Variable cancel_click : option nat.
Variable replace_existing : bool.
Variables (fs : list string) (out : string) (rs : Z) (dir : gset string).

(** The job, with a session whose calls return. *)
Abbreviation job :=
  (convert_files session_ok engine chmod cancel_click replace_existing
     (new_worker fs out rs dir)).

(** The percentages of a job are those of its loop. *)
Lemma job_progress_values :
  ∃ st' processed c levs fevs,
    job = Returned tt st'
    ∧ trace st' = job_events (converted_paths levs) c levs fevs
    ∧ loop_events out rs (Z.of_nat (length fs)) fs 0 processed levs
    ∧ checks_ok cancel_click (trace st')
    ∧ 0 ≤ processed ≤ Z.of_nat (length fs)
    ∧ progress_values (trace st')
      = percentages (Z.of_nat (length fs)) (Z.to_nat processed).
Proof.
  destruct (job_runs engine chmod cancel_click replace_existing fs out rs dir)
    as (st' & processed & c & levs & fevs & E & Ht & _ & G & F & Hchecks & _).
  destruct (loop_events_counted _ _ _ _ _ _ _ G) as [Hle Hvalues].
  exists st', processed, c, levs, fevs. split_and!; try done; try lia.
  rewrite Ht. unfold job_events. rewrite !progress_values_app.
  rewrite (progress_values_job_step fevs).
  - cbn. rewrite app_nil_r, Hvalues. unfold percentages.
    by replace (Z.of_nat (Z.to_nat processed)) with processed by lia.
  - eapply Forall_impl; [apply (finalize_events_job_steps _ _ _ F)|].
    by intros ev (_ & _ & ?).
Qed.

(** X9.  The percentages a job sends are those of the counts 1, 2, ... up
    to the number [m] of files counted, each computed against the number of
    files of the job: one value per file counted, none skipped and none
    repeated.  When Cancel is never pressed every file is counted, whether it
    converted or failed. *)
Theorem progress_counts_the_files :
  ∃ st' m,
    job = Returned tt st'
    ∧ (m ≤ length fs)%nat
    ∧ progress_values (trace st') = percentages (Z.of_nat (length fs)) m
    ∧ length (progress_values (trace st')) = m
    ∧ (cancel_click = None → m = length fs).
Proof.
  destruct job_progress_values
    as (st' & processed & c & levs & fevs & E & Ht & G & Hchecks & Hle & Hp).
  exists st', (Z.to_nat processed). split_and!; try done; [lia| |].
  - rewrite Hp. destruct fs as [|f fs'].
    + by replace processed with 0 by (cbn in Hle; lia).
    + apply length_percentages. cbn [length]. lia.
  - intros Hclick. rewrite Hclick, Ht in Hchecks.
    apply never_pressed_never_read in Hchecks.
    pose proof (loop_events_all_counted _ _ _ _ _ _ _ G Hchecks). lia.
Qed.

(** X10.  In a job of at most [2^45] files, the [i]-th percentage sent is
    the exact percentage of [i] files out of the total rounded down, or one
    less, and it is 100 exactly when the last file is counted: the value
    100 is sent if and only if [i] is the number of files. *)
Theorem full_progress_only_at_the_last_file :
  Z.of_nat (length fs) ≤ 2 ^ 45 →
  ∃ st',
    job = Returned tt st'
    ∧ ∀ i v, progress_values (trace st') !! i = Some v →
             (S i ≤ length fs)%nat
             ∧ 100 * Z.of_nat (S i) / Z.of_nat (length fs) - 1 ≤ v
               ≤ 100 * Z.of_nat (S i) / Z.of_nat (length fs)
             ∧ (v = 100 ↔ S i = length fs).
Proof.
  intros Hsize.
  destruct job_progress_values
    as (st' & processed & c & levs & fevs & E & _ & _ & _ & Hle & Hp).
  exists st'. split; [done|]. intros i v Hi. rewrite Hp in Hi.
  assert (Z.of_nat (length fs) ≠ 0) as Hn.
  { destruct fs; [|cbn [length]; lia].
    replace (Z.to_nat processed) with 0%nat in Hi by (cbn in Hle; lia). done. }
  apply percentages_lookup in Hi as [Him Hv]; [|done].
  pose proof (progress_percent_floor (Z.of_nat (S i)) (Z.of_nat (length fs)) v
                ltac:(lia) ltac:(lia) Hv) as Hfloor.
  split_and!; try lia. split.
  - intros ->.
    assert (100 * Z.of_nat (length fs) ≤ 100 * Z.of_nat (S i)); [|lia].
    destruct (div_mod_bounds (100 * Z.of_nat (S i)) (Z.of_nat (length fs))
                ltac:(lia)) as [Hk Hr].
    nia.
  - intros Hlast. rewrite Hlast in Hv.
    rewrite progress_percent_full in Hv by lia. congruence.
Qed.

End Progress.

(** ** Cancellation and the cooperative case *)

Section Latency.

Context {os_path : OsPath}.
Variable engine : nat → option Exn.
Variable chmod : string → option Exn.
Variable replace_existing : bool.
Variables (fs : list string) (out : string) (rs : Z) (dir : gset string).

(** X11.  When Cancel is pressed once the worker has performed [n]
    operations, the worker does not go on with the job: no file is entered
    any more ([os.chmod], the first operation on a file, is never later than
    operation [n]), no file is counted and no percentage sent any more, no
    failure is reported any more, and no attempt is started later than one
    operation after the press: only an attempt that was already past its
    check goes on.  Every read of the flag from operation [n] on returns
    [True], every read before returns [False]. *)
Theorem cancel_stops_new_work (n : nat) :
  ∃ st',
    convert_files session_ok engine chmod (Some n) replace_existing
      (new_worker fs out rs dir) = Returned tt st'
    ∧ (∀ j file r, trace st' !! j = Some (Chmod file r) → (j ≤ n)%nat)
    ∧ (∀ j v, trace st' !! j = Some (Progress v) → (j ≤ n)%nat)
    ∧ (∀ j name k,
         trace st' !! j = Some (ProgressUpdate (LogFailed name k)) → (j ≤ n)%nat)
    ∧ (∀ j file r, trace st' !! j = Some (WorkbooksOpen file r) → (j ≤ S n)%nat)
    ∧ (∀ j b, trace st' !! j = Some (IsCancelled b) → (b = true ↔ (n ≤ j)%nat)).
Proof.
  destruct (job_runs engine chmod (Some n) replace_existing fs out rs dir)
    as (st' & processed & c & levs & fevs & E & Ht & _ & G & F & Hchecks & _).
  assert (∀ j ev, trace st' !! j = Some ev → goes_on ev = true → (j ≤ n)%nat)
    as Hgo.
  { intros j ev Hj Hev.
    assert (after_check goes_on (trace st')) as Hafter
      by (rewrite Ht; by eapply job_events_after_check).
    destruct (Hafter _ _ Hj Hev) as (j' & -> & Hread).
    apply Hchecks in Hread. cbn [pressed] in Hread.
    symmetry in Hread. apply bool_decide_eq_false in Hread. lia. }
  exists st'. split; [done|]. split_and!.
  - intros j file r Hj. by apply (Hgo _ _ Hj).
  - intros j v Hj. by apply (Hgo _ _ Hj).
  - intros j name k Hj. by apply (Hgo _ _ Hj).
  - intros j file r Hj.
    assert (attempts_checked (trace st')) as Hatt
      by (rewrite Ht; by eapply job_events_checked).
    destruct (Hatt _ _ _ Hj) as (j' & a & k & name & -> & Hread & _).
    apply Hchecks in Hread. cbn [pressed] in Hread.
    symmetry in Hread. apply bool_decide_eq_false in Hread. lia.
  - intros j b Hj. apply Hchecks in Hj. cbn [pressed] in Hj. subst b.
    by rewrite bool_decide_eq_true.
Qed.

End Latency.

Section Cooperative.

Context {os_path : OsPath}.
Variable engine : nat → option Exn.
Variable chmod : string → option Exn.
Variable replace_existing : bool.
Variables (fs : list string) (out : string) (rs : Z) (dir : gset string).

Lemma engine_outcomes_elem (t : list Event) (ev : Event) (r : option Exn) :
  ev ∈ t → outcome_of ev = Some r → r ∈ engine_outcomes t.
Proof.
  intros Hin Hev. unfold engine_outcomes. apply list_elem_of_omap. eauto.
Qed.

(** X12.  When no call to the workbook interface raises, Cancel is never
    pressed and the retry limit is at least 1, every file is converted at
    its first attempt, whatever [os.chmod] does: the recorded paths are the
    PDF paths of all the files in the order of the input, there is one
    attempt per file, each announced as attempt 1, no pause and no failure
    line. *)
Theorem cooperative_engine_converts_all :
  (∀ k, engine k = None) → 1 ≤ rs →
  ∃ st',
    convert_files session_ok engine chmod None replace_existing
      (new_worker fs out rs dir) = Returned tt st'
    ∧ saved_pdf_paths st' = map (pdf_path_of out) fs
    ∧ count is_open (trace st') = length fs
    ∧ attempts_announced (trace st') = replicate (length fs) 1
    ∧ count is_sleep (trace st') = 0%nat
    ∧ failed_files (trace st') = []
    ∧ count is_engine_call (trace st') = (3 * length fs)%nat.
Proof.
  intros Hengine Hrs.
  pose proof (engine_inv_convert_files session_ok engine chmod None replace_existing
                (new_worker fs out rs dir) eq_refl) as Hinv.
  destruct (job_runs engine chmod None replace_existing fs out rs dir)
    as (st' & processed & c & levs & fevs & E & Ht & Hsaved & G & F & Hchecks & _).
  rewrite E in Hinv. cbn [final_state] in Hinv. unfold engine_inv in Hinv.
  assert (no_call_raised (trace st')) as Hquiet.
  { apply Forall_forall. intros ev Hin e Hev.
    pose proof (engine_outcomes_elem _ _ _ Hin Hev) as Hr.
    rewrite Hinv in Hr. apply list_elem_of_fmap in Hr as (k & Hk & _).
    by rewrite Hengine in Hk. }
  assert (IsCancelled true ∉ levs) as Hnc.
  { rewrite Ht in Hchecks. by apply never_pressed_never_read in Hchecks. }
  assert (no_call_raised levs) as Hquiet'.
  { rewrite Ht in Hquiet. unfold job_events, no_call_raised in Hquiet.
    rewrite !Forall_app in Hquiet. tauto. }
  destruct (loop_events_first_try _ _ _ _ _ _ _ Hrs G Hquiet' Hnc)
    as (L1 & L2 & L3 & L4).
  pose proof (finalize_events_quiet _ _ _ F) as Hq.
  destruct (loop_events_counts _ _ _ _ _ _ _ G) as (_ & C2 & C3).
  destruct (loop_events_verdicts _ _ _ _ _ _ _ G) as (_ & _ & _ & V4).
  specialize (V4 Hnc).
  assert (∀ f, (∀ ev, is_job_step ev = false → f ev = false) →
               (∀ b, f (IsCancelled b) = false) →
               Forall (λ ev, f ev = false) fevs →
               count f (trace st') = count f levs) as Hcount.
  { intros f H1 H2 H3. rewrite Ht. by apply count_job_events. }
  assert (failed_files levs = []) as Hfailed.
  { apply nil_length_inv. rewrite L1, length_map in V4. lia. }
  exists st'. split; [done|].
  rewrite (Hcount is_open), (Hcount is_sleep), (Hcount is_engine_call), Hsaved;
    try (by intros []);
    try (eapply Forall_impl; [exact Hq|]; by intros ev (?&?&?&?&?&?&?&?)).
  split_and!; try done.
  - rewrite Ht. unfold job_events. rewrite !attempts_announced_app.
    rewrite (finalize_events_announce _ _ _ F), L2. cbn. by rewrite app_nil_r.
  - rewrite <- length_converted_paths, L1, length_map in C2. lia.
  - rewrite Ht. unfold job_events. rewrite !failed_files_app, Hfailed.
    rewrite (failed_files_none fevs); [done|].
    eapply Forall_impl; [exact Hq|]. by intros ev (?&?&?&?&?&?&?&?).
Qed.

End Cooperative.

(** ** The new name, the numbering of the attempts, the permissions *)

Section NewName.
Import PyStr PyStrFacts.

Lemma length_unquote (s : string) :
  (String.length (unquote s) ≤ String.length s)%nat.
Proof.
  induction s as [|r IH|c t Hc IH] using unquote_ind.
  - done.
  - rewrite unquote_match. cbn [String.append String.length]. lia.
  - rewrite unquote_skip by done. cbn [String.length]. lia.
Qed.

(** X13.  The new name computed by the finalization never contains
    ["%20"]; it is the old name exactly when the old name contains no
    ["%20"]; it is never longer than the old name; and computing it again
    from the new name changes nothing. *)
Theorem new_name_is_clean (s : string) :
  contains (replace s "%20" " ") "%20" = false
  ∧ (replace s "%20" " " = s ↔ contains s "%20" = false)
  ∧ (String.length (replace s "%20" " ") ≤ String.length s)%nat
  ∧ replace (replace s "%20" " ") "%20" " " = replace s "%20" " ".
Proof.
  split_and!.
  - apply unquote_clean.
  - split; [|apply unquote_id].
    intros Heq. destruct (contains s "%20") eqn:Hc; [|done].
    by apply unquote_changes in Hc.
  - apply length_unquote.
  - apply unquote_idemp.
Qed.

End NewName.

Section Numbering.

Context {os_path : OsPath}.
Variable engine : nat → option Exn.
Variable cancel_click : option nat.

Lemma take_range (a b : Z) (m : nat) :
  (m ≤ Z.to_nat (b - a))%nat → take m (range a b) = range a (a + Z.of_nat m).
Proof.
  intros Hm. unfold range. rewrite <- fmap_take, take_seq.
  do 2 f_equal. lia.
Qed.

Lemma retry_events_numbering (rs : Z) (file file_name pdf_path : string)
    (attempts : list Z) (r : RetryEnd) (evs : list Event) :
  retry_events rs file file_name pdf_path attempts r evs →
  attempts_announced evs = take (count is_open evs) attempts.
Proof.
  induction 1 as [| | |attempt rest e calls r evs Hcalls _ IH]; try done.
  unfold failed_attempt.
  rewrite !attempts_announced_app, !count_app, IH.
  assert (attempts_announced calls = [] ∧ count is_open calls = 1%nat) as [-> ->]
    by (by destruct Hcalls).
  done.
Qed.

(** X14.  In the retry loop of a file the attempts are announced as
    attempt 1, 2, 3, ... without a gap, one announcement per attempt made,
    and at most [retries] of them; the loop returns [True] exactly when it
    has recorded the path of the PDF, which it then does once. *)
Theorem attempts_are_numbered (file file_name pdf_path : string) (st : State) :
  ∃ success st' evs,
    retry_loop engine cancel_click (range 1 (retries st + 1))
      file file_name pdf_path st = Returned success st'
    ∧ trace st' = trace st ++ evs
    ∧ attempts_announced evs = range 1 (1 + Z.of_nat (count is_open evs))
    ∧ (count is_open evs ≤ Z.to_nat (retries st))%nat
    ∧ saved_pdf_paths st'
      = saved_pdf_paths st ++ (if success then [pdf_path] else []).
Proof.
  destruct (retry_loop_spec engine cancel_click file file_name pdf_path
              (range 1 (retries st + 1)) st)
    as (r & st' & evs & E & S & G & _).
  destruct (retry_events_facts _ _ _ _ _ _ _ G) as (Hle & _).
  rewrite length_range in Hle.
  exists (success_of r), st', evs. split_and!; try done.
  - apply S.
  - rewrite (retry_events_numbering _ _ _ _ _ _ _ G).
    apply take_range. lia.
  - lia.
  - rewrite (steps_saved _ _ _ S).
    by rewrite (retry_events_converted _ _ _ _ _ _ _ G).
Qed.

End Numbering.

Section Permissions.

Context {os_path : OsPath}.
Variables (out : string) (rs total : Z).

Ltac at_position j Hj :=
  repeat (destruct j as [|j]; cbn in Hj; simplify_eq; try done).








End Permissions.

Section PermissionsOfAJob.

Context {os_path : OsPath}.
Variable engine : nat → option Exn.
Variable chmod : string → option Exn.
Variable cancel_click : option nat.
Variable replace_existing : bool.
Variables (fs : list string) (out : string) (rs : Z) (dir : gset string).

Ltac at_position j Hj :=
  repeat (destruct j as [|j]; cbn in Hj; simplify_eq; try done).


End PermissionsOfAJob.

Section Silent.

Context {os_path : OsPath}.
Variable session : SessionCall → option Exn.
Variable engine : nat → option Exn.
Variable replace_existing : bool.

Lemma audible_app (t1 t2 : list Event) :
  audible (t1 ++ t2) = audible t1 ++ audible t2.
Proof. apply filter_app. Qed.

Lemma same_run_record (ev1 ev2 : list Event) (st1 st2 : State) :
  audible ev1 = audible ev2 →
  same_run st1 st2 →
  same_run (set_trace (trace st1 ++ ev1) st1) (set_trace (trace st2 ++ ev2) st2).
Proof.
  intros Hev []. split; cbn; try done. rewrite !audible_app. congruence.
Qed.

Lemma agree_ret {A} (a : A) : agree (mret a : M A) (mret a).
Proof. by intros st1 st2 H. Qed.

Lemma agree_raise {A} (e : Exn) : agree (raise e : M A) (raise e).
Proof. by intros st1 st2 H. Qed.

Lemma agree_gets {A} (f : State → A) :
  (∀ st1 st2, same_run st1 st2 → f st1 = f st2) → agree (gets f) (gets f).
Proof. intros Hf st1 st2 H. cbn. split; [by apply Hf | done]. Qed.

Lemma agree_bind {A B} (m1 m2 : M A) (k1 k2 : A → M B) :
  agree m1 m2 → (∀ a, agree (k1 a) (k2 a)) → agree (m1 ≫= k1) (m2 ≫= k2).
Proof.
  intros Hm Hk st1 st2 H. specialize (Hm st1 st2 H).
  unfold mbind, worker_bind, bind.
  destruct (m1 st1) as [a s1|e s1], (m2 st2) as [b s2|e' s2]; try done.
  destruct Hm as [<- Hs]. by apply Hk.
Qed.

Lemma agree_try {A} (m1 m2 : M A) (h1 h2 : Exn → M A) :
  agree m1 m2 → (∀ e, agree (h1 e) (h2 e)) →
  agree (try_except m1 h1) (try_except m2 h2).
Proof.
  intros Hm Hh st1 st2 H. specialize (Hm st1 st2 H). unfold try_except.
  destruct (m1 st1) as [a s1|e s1], (m2 st2) as [b s2|e' s2]; try done.
  destruct Hm as [<- Hs]. by apply Hh.
Qed.

Lemma agree_op (ev : Event) : agree (op None ev) (op None ev).
Proof.
  intros st1 st2 H. cbn. split; [done|]. by apply (same_run_record [ev] [ev]).
Qed.

Lemma agree_is_cancelled : agree (is_cancelled None) (is_cancelled None).
Proof.
  intros st1 st2 H. cbn. rewrite (same_cancelled _ _ H). split; [done|].
  by apply (same_run_record [_] [_]).
Qed.

Lemma agree_session_call (call : SessionCall) (ev : Event) :
  agree (session_call session None call ev) (session_call session None call ev).
Proof.
  intros st1 st2 H. unfold session_call. cbn.
  destruct (session call); (split; [done|]); by apply (same_run_record [_] [_]).
Qed.

Lemma agree_engine_call (ev : option Exn → Event) :
  agree (engine_call engine None ev) (engine_call engine None ev).
Proof.
  intros st1 st2 H. unfold engine_call. cbn. rewrite (same_calls _ _ H).
  pose proof (same_run_record [ev (engine (calls st2))] [_] _ _ eq_refl H) as [].
  destruct (engine (calls st2)); (split; [done|]); split; cbn in *; congruence.
Qed.

Lemma agree_modify (f : State → State) :
  (∀ st1 st2, same_run st1 st2 → same_run (f st1) (f st2)) →
  agree (modify f) (modify f).
Proof. intros Hf st1 st2 H. cbn. split; [done | by apply Hf]. Qed.

Lemma agree_path_exists (path : string) :
  agree (path_exists None path) (path_exists None path).
Proof.
  intros st1 st2 H. cbn. rewrite (same_listing _ _ H). split; [done|].
  by apply (same_run_record [_] [_]).
Qed.

Lemma agree_os_rename (src dst : string) :
  agree (os_rename None replace_existing src dst)
        (os_rename None replace_existing src dst).
Proof.
  intros st1 st2 H. unfold os_rename. cbn. rewrite (same_listing _ _ H).
  destruct (rename_in _ _ _ _) as [e|d]; (split; [done|]).
  - by apply (same_run_record [_] [_]).
  - pose proof (same_run_record [Rename src dst None] [_] _ _ eq_refl H) as [].
    split; cbn in *; congruence.
Qed.

(** Whatever [os.chmod] does, [reset_permissions] performs silent operations
    only. *)
Lemma agree_reset_permissions (chmod1 chmod2 : string → option Exn)
    (file : string) :
  agree (reset_permissions chmod1 None file) (reset_permissions chmod2 None file).
Proof.
  intros st1 st2 H. unfold reset_permissions.
  destruct (chmod1 file) as [e1|], (chmod2 file) as [e2|]; cbn;
    (split; [done|]); destruct H; split; cbn; try done;
    by rewrite ?audible_app, ?app_nil_r.
Qed.

Lemma agree_export_done (name : string) :
  agree (modify (λ st, set_listing ({[ name ]} ∪ listing st) st))
        (modify (λ st, set_listing ({[ name ]} ∪ listing st) st)).
Proof.
  apply agree_modify. intros st1 st2 []. split; cbn; try done. by f_equal.
Qed.

Lemma agree_record_path (pdf_path : string) :
  agree (modify (λ st, set_saved_pdf_paths (saved_pdf_paths st ++ [pdf_path]) st))
        (modify (λ st, set_saved_pdf_paths (saved_pdf_paths st ++ [pdf_path]) st)).
Proof.
  apply agree_modify. intros st1 st2 []. split; cbn; try done. by f_equal.
Qed.

Ltac agreeing :=
  repeat first
    [ solve [auto]
    | apply agree_ret
    | apply agree_raise
    | apply agree_is_cancelled
    | apply agree_path_exists
    | apply agree_os_rename
    | apply agree_op
    | apply agree_session_call
    | apply agree_engine_call
    | apply agree_reset_permissions
    | apply agree_gets; by intros ?? []
    | apply agree_export_done
    | apply agree_record_path
    | apply agree_bind; [|intros ?]
    | apply agree_try; [|intros ?]
    | progress unfold progress_update, export
    | case_match ].

Lemma agree_retry_loop (attempts : list Z) (file file_name pdf_path : string) :
  agree (retry_loop engine None attempts file file_name pdf_path)
        (retry_loop engine None attempts file file_name pdf_path).
Proof.
  induction attempts as [|attempt rest IH]; cbn [retry_loop];
    unfold attempt_conversion; agreeing.
Qed.

Lemma agree_process_file (chmod1 chmod2 : string → option Exn)
    (file : string) (total processed : Z) :
  agree (process_file engine chmod1 None file total processed)
        (process_file engine chmod2 None file total processed).
Proof.
  pose proof agree_retry_loop. unfold process_file.
  apply agree_bind; [agreeing|]. intros out. agreeing.
Qed.

Lemma agree_files_loop (chmod1 chmod2 : string → option Exn)
    (fs : list string) (total processed : Z) :
  agree (files_loop engine chmod1 None fs total processed)
        (files_loop engine chmod2 None fs total processed).
Proof.
  pose proof (agree_process_file chmod1 chmod2). revert processed.
  induction fs as [|file rest IH]; intros processed; cbn [files_loop];
    agreeing.
Qed.

Lemma agree_finalize_loop (paths : list string) :
  agree (finalize_loop None replace_existing paths)
        (finalize_loop None replace_existing paths).
Proof.
  induction paths as [|p rest IH]; cbn [finalize_loop];
    unfold finalize_one; agreeing.
Qed.

Lemma agree_convert_files (chmod1 chmod2 : string → option Exn) :
  agree (convert_files session engine chmod1 None replace_existing)
        (convert_files session engine chmod2 None replace_existing).
Proof.
  pose proof (agree_files_loop chmod1 chmod2). pose proof agree_finalize_loop.
  unfold convert_files, finalize_filenames.
  repeat (apply agree_bind; [agreeing|]; intros ?).
  agreeing.
Qed.

Lemma signal_lines_audible (t : list Event) :
  signal_lines (audible t) = signal_lines t.
Proof.
  induction t as [|ev t IH]; [done|]. unfold audible in *.
  destruct (is_silent ev) eqn:Hev.
  - rewrite filter_cons_False by (by rewrite Hev).
    rewrite IH. by destruct ev.
  - rewrite filter_cons_True by done.
    change (ev :: filter (λ ev0, is_silent ev0 = false) t)
      with ([ev] ++ filter (λ ev0, is_silent ev0 = false) t).
    change (ev :: t) with ([ev] ++ t).
    by rewrite !signal_lines_app, IH.
Qed.

(** X20.  What [os.chmod] does changes nothing but the silent operations of
    [reset_permissions]: two jobs on the same input, with the same session
    and the same workbook interface, Cancel never pressed, that differ only
    by what [os.chmod] does on each file, both return or both raise the same
    exception, record the same paths, leave the same output directory, send
    the same texts to the window, and perform the same operations apart from
    the calls to [os.chmod] and the lines passed to [logging.error]. *)
Theorem chmod_failures_change_nothing_else (chmod1 chmod2 : string → option Exn)
    (fs : list string) (out : string) (rs : Z) (dir : gset string) :
  let r1 := convert_files session engine chmod1 None replace_existing
              (new_worker fs out rs dir) in
  let r2 := convert_files session engine chmod2 None replace_existing
              (new_worker fs out rs dir) in
  match r1, r2 with
  | Returned _ _, Returned _ _ => True
  | Raised e1 _, Raised e2 _ => e1 = e2
  | _, _ => False
  end
  ∧ saved_pdf_paths (final_state r1) = saved_pdf_paths (final_state r2)
  ∧ listing (final_state r1) = listing (final_state r2)
  ∧ audible (trace (final_state r1)) = audible (trace (final_state r2))
  ∧ signal_lines (trace (final_state r1)) = signal_lines (trace (final_state r2)).
Proof.
  intros r1 r2.
  assert (same_run (new_worker fs out rs dir) (new_worker fs out rs dir)) as H0
    by (by split).
  pose proof (agree_convert_files chmod1 chmod2 _ _ H0) as H.
  fold r1 r2 in H.
  destruct r1 as [[] s1|e1 s1], r2 as [[] s2|e2 s2]; try done;
    destruct H as [He Hs]; cbn [final_state];
    (split; [done|]); destruct Hs; split_and!; try done;
    by rewrite <- (signal_lines_audible (trace s1)),
               <- (signal_lines_audible (trace s2)); f_equal.
Qed.

End Silent.

(** ** What the finalization touches *)

Section FinalizationScope.
Import PyStr PyStrFacts.

Context {os_path : OsPath} {Hlaws : OsPathLaws os_path}.
Variable replace_existing : bool.

Lemma size_renamed (dir : gset string) (old new : string) :
  old ∈ dir → (size ({[ new ]} ∪ dir ∖ {[ old ]}) ≤ size dir)%nat.
Proof.
  intros Hold. rewrite size_union_alt, size_singleton.
  assert (size ((dir ∖ {[ old ]}) ∖ {[ new ]}) ≤ size (dir ∖ {[ old ]}))%nat as H.
  { apply subseteq_size. by apply subseteq_difference_l. }
  assert ({[ old ]} ⊆ dir) as Hsub by (by apply singleton_subseteq_l).
  rewrite (size_difference dir {[ old ]} Hsub), size_singleton in H.
  assert (size dir ≠ 0)%nat.
  { intros Hz. apply size_empty_inv in Hz. set_solver. }
  lia.
Qed.

Lemma pass_scope (out : string) (paths : list string) (dir : gset string) :
  let dir' := foldl (λ d q, finalize_dir replace_existing out q d) dir paths in
  (∀ x, x ∈ dir → x ∉ dir' →
        contains x "%20" = true ∧ ∃ p, p ∈ paths ∧ x = basename p)
  ∧ (∀ x, x ∈ dir' → x ∉ dir →
          contains x "%20" = false
          ∧ ∃ p, p ∈ paths ∧ x = replace (basename p) "%20" " ")
  ∧ (size dir' ≤ size dir)%nat.
Proof.
  revert dir. induction paths as [|p rest IH]; intros dir; cbn [foldl].
  - split_and!; [done..|lia].
  - destruct (IH (finalize_dir replace_existing out p dir)) as (IH1 & IH2 & IH3).
    destruct (finalize_dir_cases replace_existing out p dir)
      as [Hsame|(Hin & Hne & Hmoved)].
    + rewrite Hsame in *. split_and!; [| |done].
      * intros x Hx Hx'. destruct (IH1 x Hx Hx') as (? & q & ? & ?).
        split; [done|]. exists q. set_solver.
      * intros x Hx Hx'. destruct (IH2 x Hx Hx') as (? & q & ? & ?).
        split; [done|]. exists q. set_solver.
    + rewrite Hmoved in *. split_and!.
      * intros x Hx Hx'.
        destruct (decide (x = basename p)) as [->|Hxp].
        -- split; [by apply (dirty_name p)|]. exists p. set_solver.
        -- destruct (IH1 x) as (? & q & ? & ?); [set_solver | done |].
           split; [done|]. exists q. set_solver.
      * intros x Hx Hx'.
        destruct (decide (x = replace (basename p) "%20" " ")) as [->|Hxp].
        -- split; [apply unquote_clean|]. exists p. set_solver.
        -- destruct (IH2 x Hx) as (? & q & ? & ?); [set_solver|].
           split; [done|]. exists q. set_solver.
      * pose proof (size_renamed dir (basename p)
                      (replace (basename p) "%20" " ") Hin). lia.
Qed.

(** X17.  [finalize_filenames] always returns.  The only names it removes
    from the output directory are basenames of recorded paths that contain
    ["%20"]; the only names it adds are such basenames with their ["%20"]
    replaced by spaces, which contain no ["%20"]; a name without ["%20"],
    and any name that is not the basename of a recorded path, stays; and the
    directory never holds more names after than before. *)
Theorem finalization_scope (cancel_click : option nat) (st : State) :
  ∃ st',
    finalize_filenames cancel_click replace_existing st = Returned tt st'
    ∧ saved_pdf_paths st' = saved_pdf_paths st
    ∧ (∀ x, x ∈ listing st → x ∉ listing st' →
            contains x "%20" = true
            ∧ ∃ p, p ∈ saved_pdf_paths st ∧ x = basename p)
    ∧ (∀ x, x ∈ listing st' → x ∉ listing st →
            contains x "%20" = false
            ∧ ∃ p, p ∈ saved_pdf_paths st
                   ∧ x = replace (basename p) "%20" " ")
    ∧ (size (listing st') ≤ size (listing st))%nat.
Proof.
  destruct (finalize_filenames_spec cancel_click replace_existing st)
    as (st' & evs & E & S & G & L).
  exists st'. split; [done|]. split.
  - rewrite (steps_saved _ _ _ S).
    change (FinalizeFilenames (saved_pdf_paths st) :: evs)
      with ([FinalizeFilenames (saved_pdf_paths st)] ++ evs).
    rewrite converted_paths_app, (finalize_events_converted _ _ _ G).
    by rewrite app_nil_r.
  - rewrite L. apply pass_scope.
Qed.

End FinalizationScope.

(** ** The theorems at work on small jobs *)


Lemma pdf_name_derivation_witness :
  pdf_name_of (posixpath.basename "/in/Report.xlsx") = "Report.pdf"
  ∧ pdf_name_of (posixpath.basename "/in/data.csv.pdf") = "data.csv.pdf.pdf".
Proof.
  split.
  - apply (proj1 (proj2 (@pdf_name_derivation posix_path
                           "/out" "/in/Report.xlsx" "Report"))).
    right. reflexivity.
  - apply (proj2 (proj2 (proj2 (@pdf_name_derivation posix_path
                                  "/out" "/in/data.csv.pdf" "data.csv")))).
    reflexivity.
Defined.



Lemma all_files_fail_example :
  ∃ st',
    convert_files (os_path := posix_path) session_ok all_raise chmod_ok None false
      (new_worker ["/in/a.xlsx"; "/in/b.xls"] "/out" 3 ∅) = Returned tt st'
    ∧ last (trace st') = Some (ConversionComplete "All files processed.")
    ∧ failed_files (trace st') = ["a.xlsx"; "b.xls"].
Proof.
  destruct (terminal_event_of_a_run (os_path := posix_path) all_raise chmod_ok
              None false ["/in/a.xlsx"; "/in/b.xls"] "/out" 3 ∅)
    as (st' & pre & c & E & Ht & _ & _ & _ & Hfail).
  destruct Hfail as (-> & _ & Hfailed); [reflexivity | by intros k |].
  exists st'. split; [exact E|]. split; [|exact Hfailed].
  rewrite Ht, last_app. reflexivity.
Defined.

Lemma cancelled_before_first_file_witness :
  ∃ st',
    convert_files (os_path := posix_path) session_ok all_return chmod_ok (Some 0%nat) false
      (new_worker ["/in/a.xlsx"; "/in/b.xls"] "/out" 3 ∅) = Returned tt st'
    ∧ trace st'
      = [CoInitialize; Dispatch; SetVisible false;
         IsCancelled true; ProgressUpdate LogCancelledByUser;
         Quit; CoUninitialize; FinalizeFilenames [];
         IsCancelled true; ConversionComplete "Conversion cancelled."].
Proof.
  destruct (cancelled_before_first_file (os_path := posix_path) all_return chmod_ok
              false "/out" 3 ∅ 0 ["/in/a.xlsx"; "/in/b.xls"])
    as (st' & E & Ht & _); [lia|].
  exists st'. split; [exact E | exact Ht].
Defined.

Lemma retry_loop_of_a_file_witness :
  ∃ processed' st' evs,
    process_file (os_path := posix_path) all_raise chmod_ok None "/in/a.xlsx" 1 0
      (new_worker ["/in/a.xlsx"] "/out" 2 ∅) = Returned processed' st'
    ∧ trace st' = evs
    ∧ (count is_open evs ≤ 2)%nat
    ∧ count is_sleep evs = count is_attempt_error evs.
Proof.
  destruct (retry_loop_of_a_file (os_path := posix_path) all_raise chmod_ok None
              "/in/a.xlsx" 1 0 (new_worker ["/in/a.xlsx"] "/out" 2 ∅))
    as (_ & processed' & st' & evs & E & Ht & Hopen & _ & _ & _ & _ & Hsleep & _);
    [lia|].
  exists processed', st', evs. split; [exact E|].
  split; [exact Ht|]. split; [exact Hopen | exact Hsleep].
Defined.

(** With a retry limit of 1 and an attempt that raises, the worker pauses for
    a second although no attempt follows: after the pause come the read of
    the flag and the "Failed to convert" line. *)
Lemma pause_after_last_attempt :
  let evs := trace (final_state
               (process_file (os_path := posix_path) all_raise chmod_ok None
                  "/in/a.xlsx" 1 0 (new_worker ["/in/a.xlsx"] "/out" 1 ∅))) in
  evs !! 3%nat = Some (WorkbooksOpen "/in/a.xlsx" (Some "com_error"))
  ∧ evs !! 6%nat = Some (Sleep 1)
  ∧ drop 7 evs = [IsCancelled false; ProgressUpdate (LogFailed "a.xlsx" 1);
                  IsCancelled false; Progress 100]
  ∧ count is_open (drop 7 evs) = 0%nat.
Proof. by vm_compute. Qed.

Lemma finalize_one_renames_witness :
  ∃ st',
    finalize_one (os_path := posix_path) None false "/out/%20Report.pdf"
      (mkState [] "/out" 3 false ["/out/%20Report.pdf"] [] 0 {[ "%20Report.pdf" ]})
    = Returned tt st'
    ∧ listing st' = {[ " Report.pdf" ]} ∪ {[ "%20Report.pdf" ]} ∖ {[ "%20Report.pdf" ]}.
Proof.
  destruct (finalize_one_renames (os_path := posix_path) false None
              "/out/%20Report.pdf"
              (mkState [] "/out" 3 false ["/out/%20Report.pdf"] [] 0
                 {[ "%20Report.pdf" ]}))
    as (st' & evs & pieces & E & _ & _ & _ & _ & _ & _ & Hdirty & _).
  exists st'. split; [exact E|].
  destruct (Hdirty eq_refl) as (Hrenamed & _ & _).
  destruct Hrenamed as [_ Hlisting].
  - apply (bool_decide_unpack _). by vm_compute.
  - left. apply (bool_decide_unpack _). by vm_compute.
  - exact Hlisting.
Defined.

(** Two recorded paths whose basenames contain ["%20"] and whose files are
    not renamed.  First, with an [os.rename] that refuses an existing
    destination, the job over ["a%20b.xlsx"] and ["a b.xlsx"]: both PDFs are
    made, the new name of the first is the name of the second, the rename is
    refused, and the first PDF keeps its name.  Second, a recorded path
    whose file is not in the output directory: a "File not found" line is
    sent and nothing is renamed. *)
Lemma percent20_name_can_remain :
  (let st' := final_state
                (convert_files (os_path := posix_path) session_ok all_return chmod_ok None false
                   (new_worker ["/in/a%20b.xlsx"; "/in/a b.xlsx"] "/out" 3 ∅)) in
   saved_pdf_paths st' = ["/out/a%20b.pdf"; "/out/a b.pdf"]
   ∧ PyStr.contains (posixpath.basename "/out/a%20b.pdf") "%20" = true
   ∧ bool_decide ("a%20b.pdf" ∈ listing st') = true
   ∧ drop 25 (trace st')
     = [FinalizeFilenames ["/out/a%20b.pdf"; "/out/a b.pdf"];
        PathExists "/out/a%20b.pdf" true;
        Rename "/out/a%20b.pdf" "/out/a b.pdf" (Some "FileExistsError");
        ProgressUpdate (LogRenameFailed "a%20b.pdf" "FileExistsError");
        IsCancelled false; ConversionComplete "All files processed."])
  ∧ (let st' := final_state
                  (finalize_filenames (os_path := posix_path) None true
                     (mkState [] "/out" 3 false ["/out/a%20b.pdf"] [] 0 ∅)) in
     trace st' = [FinalizeFilenames ["/out/a%20b.pdf"];
                  PathExists "/out/a%20b.pdf" false;
                  ProgressUpdate (LogNotFound "a%20b.pdf")]
     ∧ bool_decide ("a b.pdf" ∈ listing st') = false).
Proof. by vm_compute. Qed.

Lemma finalize_twice_witness :
  let st := mkState [] "/out" 3 false ["/out/a%20b.pdf"; "/out/c.pdf"] [] 0
              ({[ "a%20b.pdf" ]} ∪ {[ "c.pdf" ]}) in
  let st1 := final_state (finalize_filenames (os_path := posix_path) None false st) in
  let st2 := final_state (finalize_filenames (os_path := posix_path) None false st1) in
  listing st2 = listing st1.
Proof.
  intros st st1 st2.
  exact (proj1 (proj2 (proj2
           (finalize_twice (os_path := posix_path) false None None st)))).
Defined.

(** The job of the two files ["%20Report.xlsx"] and ["Budget.xls"] with a
    retry limit of 1, where the first file converts and every call for the
    second raises: the first PDF is made and then renamed to [" Report.pdf"],
    the second file gets its failure line after one attempt, the progress
    goes 50 then 100, and the job ends with "All files processed.". *)
Example two_files_one_failure :
  let st' := final_state
               (convert_files (os_path := posix_path) session_ok (engine_ok_for 3) chmod_ok
                  None false
                  (new_worker ["/in/%20Report.xlsx"; "/in/Budget.xls"] "/out" 1 ∅)) in
  saved_pdf_paths st' = ["/out/%20Report.pdf"]
  ∧ elements (listing st') = [" Report.pdf"]
  ∧ progress_values (trace st') = [50; 100]
  ∧ failed_files (trace st') = ["Budget.xls"]
  ∧ count is_open (trace st') = 2%nat
  ∧ drop 27 (trace st')
    = [FinalizeFilenames ["/out/%20Report.pdf"];
       PathExists "/out/%20Report.pdf" true;
       Rename "/out/%20Report.pdf" "/out/ Report.pdf" None;
       ProgressUpdate (LogRenamed "%20Report.pdf" " Report.pdf");
       IsCancelled false; ConversionComplete "All files processed."].
Proof. by vm_compute. Qed.

Lemma no_attempt_without_retries_witness :
  ∃ st',
    convert_files (os_path := posix_path) session_ok all_return chmod_ok None false
      (new_worker ["/in/a.xlsx"; "/in/b.xls"] "/out" 0 ∅) = Returned tt st'
    ∧ count is_engine_call (trace st') = 0%nat
    ∧ failed_files (trace st') = ["a.xlsx"; "b.xls"].
Proof.
  destruct (no_attempt_without_retries (os_path := posix_path) all_return
              chmod_ok None false ["/in/a.xlsx"; "/in/b.xls"] "/out" 0 ∅)
    as (st' & E & Hcalls & _ & Hfailed); [lia|].
  exists st'. split; [exact E|]. split; [exact Hcalls|].
  apply Hfailed. reflexivity.
Defined.

Lemma full_progress_only_at_the_last_file_witness :
  ∃ st',
    convert_files (os_path := posix_path) session_ok all_raise chmod_ok None false
      (new_worker ["/in/a.xlsx"; "/in/b.xls"; "/in/c.xls"] "/out" 1 ∅)
    = Returned tt st'
    ∧ ∀ i v, progress_values (trace st') !! i = Some v →
             (v = 100 ↔ S i = 3%nat).
Proof.
  destruct (full_progress_only_at_the_last_file (os_path := posix_path)
              all_raise chmod_ok None false
              ["/in/a.xlsx"; "/in/b.xls"; "/in/c.xls"] "/out" 1 ∅)
    as (st' & E & Hvalues); [by vm_compute|].
  exists st'. split; [exact E|].
  intros i v Hi. exact (proj2 (proj2 (Hvalues i v Hi))).
Defined.

Lemma cooperative_engine_converts_all_witness :
  ∃ st',
    convert_files (os_path := posix_path) session_ok all_return (λ _, Some "PermissionError")
      None false (new_worker ["/in/a.xlsx"; "/in/b.xls"] "/out" 3 ∅)
    = Returned tt st'
    ∧ saved_pdf_paths st' = ["/out/a.pdf"; "/out/b.pdf"]
    ∧ count is_sleep (trace st') = 0%nat.
Proof.
  destruct (cooperative_engine_converts_all (os_path := posix_path) all_return
              (λ _, Some "PermissionError") false
              ["/in/a.xlsx"; "/in/b.xls"] "/out" 3 ∅)
    as (st' & E & Hsaved & _ & _ & Hsleep & _); [by intros k | lia |].
  exists st'. split; [exact E|]. split; [exact Hsaved | exact Hsleep].
Defined.

Lemma percentage_is_floor_or_one_less_witness :
  ∃ v, progress_percent 29 100 = Some v
       ∧ 100 * 29 / 100 - 1 ≤ v ≤ 100 * 29 / 100.
Proof.
  destruct (percentage_is_floor_or_one_less 29 100) as (v & Hv & Hfloor & _);
    [lia | split; [lia | by vm_compute] |].
  exists v. split; [exact Hv | exact Hfloor].
Defined.

Lemma finalization_scope_witness :
  let st := mkState [] "/out" 3 false ["/out/a%20b.pdf"; "/out/c.pdf"] [] 0
              ({[ "a%20b.pdf" ]} ∪ {[ "c.pdf" ]} ∪ {[ "notes%20old.txt" ]}) in
  ∃ st',
    finalize_filenames (os_path := posix_path) None false st = Returned tt st'
    ∧ (size (listing st') ≤ size (listing st))%nat.
Proof.
  intros st.
  destruct (finalization_scope (os_path := posix_path) false None st)
    as (st' & E & _ & _ & _ & Hsize).
  exists st'. split; [exact E | exact Hsize].
Defined.

(** Excel is gone: every call to the workbook interface raises, and so does
    [Quit].  Both files get their failure line, and the job ends with the
    exception of [Quit]: no finalization, no terminal signal. *)
Lemma no_terminal_event_when_quit_raises :
  ∃ st',
    convert_files (os_path := posix_path) (session_fails_at CallQuit) all_raise
      chmod_ok None false (new_worker ["/in/a.xlsx"; "/in/b.xls"] "/out" 1 ∅)
    = Raised "com_error" st'
    ∧ failed_files (trace st') = ["a.xlsx"; "b.xls"]
    ∧ last (trace st') = Some (SessionError CallQuit "com_error")
    ∧ count is_complete (trace st') = 0%nat.
Proof. eexists. by vm_compute. Qed.

(** [Visible = False] raises after the handle has been acquired: the job
    ends there and [Quit] is never called.  And when [Dispatch] itself
    raises there is no handle at all. *)
Lemma handle_not_released_when_visible_raises :
  (∃ st',
     convert_files (os_path := posix_path) (session_fails_at CallSetVisible)
       all_return chmod_ok None false (new_worker ["/in/a.xlsx"] "/out" 3 ∅)
     = Raised "com_error" st'
     ∧ trace st' = [CoInitialize; Dispatch; SessionError CallSetVisible "com_error"]
     ∧ count is_dispatch (trace st') = 1%nat
     ∧ count is_quit (trace st') = 0%nat)
  ∧ (∃ st',
       convert_files (os_path := posix_path) (session_fails_at CallDispatch)
         all_return chmod_ok None false (new_worker ["/in/a.xlsx"] "/out" 3 ∅)
       = Raised "com_error" st'
       ∧ trace st' = [CoInitialize; SessionError CallDispatch "com_error"]
       ∧ count is_dispatch (trace st') = 0%nat
       ∧ count is_quit (trace st') = 0%nat).
Proof. split; eexists; by vm_compute. Qed.

(** C5.  With the output directory written ["/out/."], the job over
    ["/in/a.xlsx"] records ["/out/a.pdf"] (the path is normalized when it is
    built), while the finalization compares it with ["/out/./a.pdf"] (the
    new path is not normalized): the guard lets the path through although
    the name has nothing to replace.  The first pass renames the file onto
    itself, and a second pass run right after does the same again: it
    finds the file, calls [os.rename], which goes through, and sends
    "Renamed a.pdf to a.pdf" once more. *)
Lemma second_pass_renames_again :
  let st1 := final_state
               (convert_files (os_path := posix_path) session_ok all_return
                  chmod_ok None false (new_worker ["/in/a.xlsx"] "/out/." 3 ∅)) in
  let st2 := final_state (finalize_filenames (os_path := posix_path) None false st1) in
  saved_pdf_paths st1 = ["/out/a.pdf"]
  ∧ PyStr.contains "a.pdf" "%20" = false
  ∧ drop 13 (trace st1)
    = [Quit; CoUninitialize; FinalizeFilenames ["/out/a.pdf"];
       PathExists "/out/a.pdf" true;
       Rename "/out/a.pdf" "/out/./a.pdf" None;
       ProgressUpdate (LogRenamed "a.pdf" "a.pdf");
       IsCancelled false; ConversionComplete "All files processed."]
  ∧ drop (length (trace st1)) (trace st2)
    = [FinalizeFilenames ["/out/a.pdf"];
       PathExists "/out/a.pdf" true;
       Rename "/out/a.pdf" "/out/./a.pdf" None;
       ProgressUpdate (LogRenamed "a.pdf" "a.pdf")]
  ∧ count is_renamed (drop (length (trace st1)) (trace st2)) = 1%nat.
Proof. by vm_compute. Qed.
